(** * swbd_mask: verification of the land/water mask builder

    A shallow embedding of [main.cpp] and [maskThread.cpp] of the
    [swbd_mask] utility, which turns the SRTM Water Body Data shape files
    into a compressed land mask ([.clm]) file, and the properties of its
    rasterising and encoding engine.

    Conventions of the embedding:
    - C integers are [Z]; where a conversion can change a value
      ([int32_t block_address = ftell (ofp)], [uint32_t map_address]) the
      wrap-around is written out with [to_int32] and [to_uint32];
    - [/] and [%] of C are [Z.quot] and [Z.rem];
    - a [uint8_t] array is a [list Z]; a read outside it yields [0] and a
      store outside it leaves it unchanged (in C both are undefined);
    - a [double] is a rational of [Q]: rounding is not modelled;
    - the process state that [main] threads through the cell loop is a
      record [world]; [exit (-1)] is the outcome [Exited] that carries the
      diagnostic; the runs of the worker threads of one cell are composed
      in sequence, in the order in which [main] starts them. *)

From Stdlib Require Import String Ascii DecimalString ZArith List Lia Lqa Bool QArith.
Import ListNotations.
Local Open Scope Z_scope.

(** ** Integers, loops and arrays *)

Definition to_uint32 (v : Z) : Z := v mod 2 ^ 32.

Definition to_int32 (v : Z) : Z := (v + 2 ^ 31) mod 2 ^ 32 - 2 ^ 31.

Definition INT32_MAX : Z := 2147483647.

Definition NVTrue : Z := 1.
Definition NVFalse : Z := 0.

(** [for (i = a ; i < b ; i++) s = body (i, s)] *)
Fixpoint for_up {S : Type} (n : nat) (i : Z) (body : Z -> S -> S) (s : S) : S :=
  match n with
  | O => s
  | Datatypes.S n' => for_up n' (i + 1) body (body i s)
  end.

Definition for_loop {S : Type} (a b : Z) (body : Z -> S -> S) (s : S) : S :=
  for_up (Z.to_nat (b - a)) a body s.

(** [a[i]] *)
Definition aget {A : Type} (d : A) (a : list A) (i : Z) : A :=
  if i <? 0 then d else nth (Z.to_nat i) a d.

Fixpoint upd {A : Type} (a : list A) (n : nat) (v : A) : list A :=
  match a, n with
  | [], _ => []
  | _ :: t, O => v :: t
  | h :: t, Datatypes.S n' => h :: upd t n' v
  end.

(** [a[i] = v] *)
Definition aset {A : Type} (a : list A) (i : Z) (v : A) : list A :=
  if i <? 0 then a else upd a (Z.to_nat i) v.

(** [calloc (n, 1)] *)
Definition calloc (n : Z) : list Z := repeat 0 (Z.to_nat n).

(** ** maskThread.cpp: the tiles of the workers *)

(** Modelled from the spec: the macro [NINT] of nvutility is not part of
    the sources; [NINT (sqrt ((double) n))] is the integer nearest to the
    square root of [n], the side of the square arrangement of tiles. *)
Definition NINT_sqrt (n : Z) : Z :=
  let r := Z.sqrt n in
  if r * r + r <? n then r + 1 else r.

Definition point_count (resolution : Z) : Z := Z.quot 3600 resolution.

Definition block_count (num_threads : Z) : Z := NINT_sqrt num_threads.

Definition pass_point_count (resolution num_threads : Z) : Z :=
  Z.quot (point_count resolution) (block_count num_threads).

Definition start_x (resolution num_threads pass : Z) : Z :=
  Z.rem pass (block_count num_threads) * pass_point_count resolution num_threads.

Definition start_y (resolution num_threads pass : Z) : Z :=
  Z.quot pass (block_count num_threads) * pass_point_count resolution num_threads.

Definition end_x (resolution num_threads pass : Z) : Z :=
  start_x resolution num_threads pass + pass_point_count resolution num_threads.

Definition end_y (resolution num_threads pass : Z) : Z :=
  start_y resolution num_threads pass + pass_point_count resolution num_threads.

(** Row [i] and column [j] are visited by the two loops of worker [pass]. *)
Definition in_tile (resolution num_threads pass i j : Z) : bool :=
  (start_y resolution num_threads pass <=? i) && (i <? end_y resolution num_threads pass)
  && (start_x resolution num_threads pass <=? j) && (j <? end_x resolution num_threads pass).

(** The checks of [main] on its two arguments. *)
Definition valid_resolution (r : Z) : bool :=
  negb ((negb (r =? 1)) && (negb (r =? 3)) && (negb (r =? 10)) && (negb (r =? 30))
        && (negb (r =? 60))).

Definition valid_num_threads (n : Z) : bool :=
  negb ((negb (n =? 4)) && (negb (n =? 16))).

(** ** nvutility: the bit packer and the polygon test *)

(** Modelled from the spec: [bit_pack] and [bit_unpack] of nvutility are
    not part of the sources. The buffer is a stream of bits in which bit
    [p] belongs to byte [p div 8], at position [p mod 8] of that byte;
    positions are counted from the high-order end of the byte, so that a
    field of several bits is stored with its most significant bit first and
    no byte order is involved. *)
Definition byte_bit (byte p : Z) : bool := Z.testbit byte (7 - p).

Definition get_bit (buffer : list Z) (p : Z) : bool :=
  byte_bit (aget 0 buffer (p / 8)) (p mod 8).

Definition set_bit (buffer : list Z) (p : Z) (b : bool) : list Z :=
  let byte := aget 0 buffer (p / 8) in
  aset buffer (p / 8)
    (if b then Z.setbit byte (7 - p mod 8) else Z.clearbit byte (7 - p mod 8)).

(** [bit_pack (buffer, start, numbits, value)] *)
Definition bit_pack (buffer : list Z) (start numbits value : Z) : list Z :=
  for_loop 0 numbits
    (fun k buf => set_bit buf (start + k) (Z.testbit value (numbits - 1 - k)))
    buffer.

(** [bit_unpack (buffer, start, numbits)] *)
Definition bit_unpack (buffer : list Z) (start numbits : Z) : Z :=
  for_loop 0 numbits
    (fun k acc => 2 * acc + (if get_bit buffer (start + k) then 1 else 0))
    0.

Definition Qlt_bool (a b : Q) : bool := negb (Qle_bool b a).

(** Modelled from the spec: [inside_polygon2] of nvutility is not part of
    the sources; the crossing-number test of one ring, which toggles the
    answer at every edge that a ray from the point crosses. It serves as
    the polygon test of the worked examples; the theorems hold for any
    polygon test. *)
Definition crossing_number (poly_x poly_y : list Q) (npol : Z) (x y : Q) : Z :=
  snd (for_loop 0 npol
         (fun i (jc : Z * Z) =>
            let (j, c) := jc in
            let xi := aget 0%Q poly_x i in
            let yi := aget 0%Q poly_y i in
            let xj := aget 0%Q poly_x j in
            let yj := aget 0%Q poly_y j in
            if ((Qle_bool yi y && Qlt_bool y yj) || (Qle_bool yj y && Qlt_bool y yi))
               && Qlt_bool x ((xj - xi) * (y - yi) / (yj - yi) + xi)%Q
            then (i, 1 - c)
            else (i, c))
         (npol - 1, 0)).

(** ** The collaborators of the program *)

(** [SHPObject] of shapelib, the fields that [main] reads. *)
Record SHPObject : Type := mkSHPObject {
  nVertices : Z;
  nParts : Z;
  panPartStart : list Z;
  padfX : list Q;
  padfY : list Q
}.

(** What the program takes from its environment and its libraries. A
    shape file is named after the longitude, the latitude and one of the
    data set letters, so that the file system is keyed by [lat], [lon] and
    the index [ds] of the letter. [compress2] gets the capacity of the
    output buffer, the source, its length and the level, and returns its
    status, the new [destLen] and the output buffer. *)
Record externals : Type := mkExternals {
  getenv_ABE_DATA : option string;
  check_srtm_mask : Z -> Z;
  VERSION : string;
  zlibVersion : string;
  asctime_now : string;
  ofile_fopen : bool;
  swbd_fopen : Z -> Z -> Z -> bool;
  SHPOpen : Z -> Z -> Z -> option (list SHPObject);
  read_srtm_mask_min_res : Q -> Q -> Z -> Z;
  inside_polygon2 : list Q -> list Q -> Z -> Q -> Q -> Z;
  compress2 : Z -> list Z -> Z -> Z -> Z * Z * list Z
}.

(** ** maskThread.cpp: the worker *)

(** The centre of bin [index]: [sw + (index + 0.5) / pc_double]. *)
Definition bin_centre (sw index pc : Z) : Q :=
  (inject_Z sw + (inject_Z index + (1 # 2)) / inject_Z pc)%Q.

Section Worker.

Variable E : externals.

(** The loop over the polygons of [maskThread::run]. *)
Definition inside_count (num_poly : Z) (poly_count : list Z)
    (poly_y poly_x : list (list Q)) (slon slat : Q) : Z :=
  for_loop 0 num_poly
    (fun k count =>
       if negb (inside_polygon2 E (aget [] poly_x k) (aget [] poly_y k)
                  (aget 0 poly_count k) slon slat =? 0)
       then count + 1
       else count)
    0.

(** [maskThread::run], on the parameters that [maskThread::mask] stored;
    it returns the block and the completion flags. *)
Definition run (block : list Z) (resolution num_poly : Z) (poly_count : list Z)
    (poly_y poly_x : list (list Q)) (sw_lat sw_lon : Z) (complete : list Z)
    (num_threads pass : Z) : list Z * list Z :=
  let pc := point_count resolution in
  let block' :=
    for_loop (start_y resolution num_threads pass) (end_y resolution num_threads pass)
      (fun i blk =>
         let slat := bin_centre sw_lat i pc in
         for_loop (start_x resolution num_threads pass)
           (end_x resolution num_threads pass)
           (fun j blk =>
              let slon := bin_centre sw_lon j pc in
              let count := inside_count num_poly poly_count poly_y poly_x slon slat in
              if negb (Z.rem count 2 =? 0)
              then aset blk (i * pc + j) NVFalse
              else aset blk (i * pc + j) NVTrue)
           blk)
      block in
  (block', aset complete pass NVTrue).

End Worker.

(** ** stdio: the output file *)

(** A file is its bytes (a byte per offset), its size and the position of
    the stream. *)
Record FILE : Type := mkFILE {
  fdata : Z -> Z;
  fsize : Z;
  fpos : Z
}.

(** [fopen (ofile, "wb+")] *)
Definition fopen_wb : FILE := {| fdata := fun _ => 0; fsize := 0; fpos := 0 |}.

(** The file after [n] bytes of [buf] are written at the position. *)
Definition file_write (f : FILE) (buf : list Z) (n : Z) : FILE :=
  if n <=? 0 then f
  else {| fdata := fun k => if (fpos f <=? k) && (k <? fpos f + n)
                            then aget 0 buf (k - fpos f)
                            else fdata f k;
          fsize := Z.max (fsize f) (fpos f + n);
          fpos := fpos f + n |}.

(** The [n] bytes of the file from offset [off]. *)
Definition file_read (f : FILE) (off n : Z) : list Z :=
  map (fun k => fdata f (off + Z.of_nat k)) (seq 0 (Z.to_nat n)).

Inductive whence : Type := SEEK_SET | SEEK_END.

(** [fseek]: the status and the file. A negative position is refused and
    leaves the stream where it is. *)
Definition file_seek (f : FILE) (offset : Z) (wh : whence) : Z * FILE :=
  let target := match wh with SEEK_SET => offset | SEEK_END => fsize f + offset end in
  if target <? 0 then (-1, f)
  else (0, {| fdata := fdata f; fsize := fsize f; fpos := target |}).

(** ** The state of the process and its outcomes *)

(** The array that a call of [fwrite] writes from. *)
Inductive buffer : Type := Text | Zero | Mapbuf | OutBuf.

Inductive event : Type :=
| EvFwrite (from : buffer) (position length : Z)
| EvSHPOpen (lat lon ds : Z)
| EvSrtm (slat slon : Q) (res : Z)
| EvMask (pass : Z)
| EvCompress2 (sourceLen : Z).

(** The diagnostics that precede [exit (-1)]. [DiagSegv] is the read
    through the null [poly_x] when a shape has vertices and no part. *)
Inductive diagnostic : Type :=
| DiagUsage (name : string)
| DiagNoAbeData
| DiagNoSrtm3
| DiagPerrorOfile
| DiagPerrorShp (lat lon ds : Z)
| DiagCompress (n : Z)
| DiagSegv.

(** [log] holds the calls in reverse order, the latest first. *)
Record world : Type := mkWorld {
  ofp : FILE;
  mapbuf : list Z;
  log : list event
}.

Inductive outcome (A : Type) : Type :=
| Normal (a : A) (w : world)
| Exited (d : diagnostic) (w : world).

Arguments Normal {A} a w.
Arguments Exited {A} d w.

Definition M (A : Type) : Type := world -> outcome A.

Definition ret {A : Type} (a : A) : M A := fun w => Normal a w.

Definition bind {A B : Type} (c : M A) (k : A -> M B) : M B :=
  fun w => match c w with
           | Normal a w' => k a w'
           | Exited d w' => Exited d w'
           end.

Definition exit {A : Type} (d : diagnostic) : M A := fun w => Exited d w.

Notation "x <- c ;; k" := (bind c (fun x => k))
  (at level 61, c at next level, right associativity).
Notation "c ;;; k" := (bind c (fun _ => k))
  (at level 61, right associativity).

Fixpoint for_upM {S : Type} (n : nat) (i : Z) (body : Z -> S -> M S) (s : S) : M S :=
  match n with
  | O => ret s
  | Datatypes.S n' => s' <- body i s ;; for_upM n' (i + 1) body s'
  end.

Definition for_loopM {S : Type} (a b : Z) (body : Z -> S -> M S) (s : S) : M S :=
  for_upM (Z.to_nat (b - a)) a body s.

Definition emit (e : event) : M unit :=
  fun w => Normal tt {| ofp := ofp w; mapbuf := mapbuf w; log := e :: log w |}.

Definition fseek (offset : Z) (wh : whence) : M Z :=
  fun w => let (status, f) := file_seek (ofp w) offset wh in
           Normal status {| ofp := f; mapbuf := mapbuf w; log := log w |}.

Definition ftell : M Z := fun w => Normal (fpos (ofp w)) w.

Definition fwrite (from : buffer) (buf : list Z) (size nmemb : Z) : M unit :=
  fun w => Normal tt {| ofp := file_write (ofp w) buf (size * nmemb);
                        mapbuf := mapbuf w;
                        log := EvFwrite from (fpos (ofp w)) (size * nmemb) :: log w |}.

Definition get_mapbuf : M (list Z) := fun w => Normal (mapbuf w) w.

Definition set_mapbuf (b : list Z) : M unit :=
  fun w => Normal tt {| ofp := ofp w; mapbuf := b; log := log w |}.

(** [memset (mapbuf, 0, 7)] *)
Definition memset_mapbuf : M unit := set_mapbuf (repeat 0 7%nat).

(** [bit_pack (mapbuf, start, numbits, value)] *)
Definition pack_mapbuf (start numbits value : Z) : M unit :=
  b <- get_mapbuf ;; set_mapbuf (bit_pack b start numbits value).

(** [fwrite (mapbuf, 7, 1, ofp)] *)
Definition fwrite_mapbuf : M unit :=
  b <- get_mapbuf ;; fwrite Mapbuf b 7 1.

(** ** main.cpp: the arguments *)

Definition is_space (c : ascii) : bool :=
  let n := Z.of_N (N_of_ascii c) in
  (n =? 32) || ((9 <=? n) && (n <=? 13)).

Definition digit_of (c : ascii) : option Z :=
  let n := Z.of_N (N_of_ascii c) in
  if (48 <=? n) && (n <=? 57) then Some (n - 48) else None.

Fixpoint skip_space (s : string) : string :=
  match s with
  | String c s' => if is_space c then skip_space s' else s
  | EmptyString => s
  end.

Fixpoint scan_digits (s : string) (acc : Z) : Z :=
  match s with
  | String c s' =>
      match digit_of c with
      | Some d => scan_digits s' (10 * acc + d)
      | None => acc
      end
  | EmptyString => acc
  end.

Definition scan_unsigned (s : string) : option Z :=
  match s with
  | String c _ =>
      match digit_of c with
      | Some _ => Some (scan_digits s 0)
      | None => None
      end
  | EmptyString => None
  end.

(** [sscanf (s, "%d", &v)]: the value stored, if a number was read. *)
Definition sscanf_d (s : string) : option Z :=
  match skip_space s with
  | String c s' =>
      if Ascii.eqb c "-" then option_map (fun v => to_int32 (- v)) (scan_unsigned s')
      else if Ascii.eqb c "+" then option_map to_int32 (scan_unsigned s')
      else option_map to_int32 (scan_unsigned (String c s'))
  | EmptyString => None
  end.

Definition argv_at (argv : list string) (k : nat) : string := nth k argv EmptyString.

Definition argc_of (argv : list string) : Z := Z.of_nat (length argv).

(** [resolution = 0 ; sscanf (argv[1], "%d", &resolution)] *)
Definition arg_resolution (argv : list string) : Z :=
  match sscanf_d (argv_at argv 1) with
  | Some v => v
  | None => 0
  end.

(** [num_threads = 4 ; if (argc == 3) sscanf (argv[2], "%d", &num_threads)] *)
Definition arg_num_threads (argv : list string) : Z :=
  if argc_of argv =? 3
  then match sscanf_d (argv_at argv 2) with
       | Some v => v
       | None => 4
       end
  else 4.

(** The checks of [main] before it opens the output file: the diagnostic
    of the one that fails, or the resolution and the number of threads. *)
Definition configure (E : externals) (argv : list string) : diagnostic + Z * Z :=
  if argc_of argv <? 2 then inl (DiagUsage (argv_at argv 0))
  else match getenv_ABE_DATA E with
       | None => inl DiagNoAbeData
       | Some _ =>
           if negb (check_srtm_mask E 3 =? 0) then inl DiagNoSrtm3
           else
             let resolution := arg_resolution argv in
             if negb (valid_resolution resolution) then inl (DiagUsage (argv_at argv 0))
             else
               let num_threads := arg_num_threads argv in
               if negb (valid_num_threads num_threads)
               then inl (DiagUsage (argv_at argv 1))
               else inr (resolution, num_threads)
       end.

(** ** main.cpp: the rings of a cell *)

Record polygons : Type := mkPolygons {
  num_poly : Z;
  poly_count : list Z;
  poly_x : list (list Q);
  poly_y : list (list Q)
}.

(** [realloc (a, n * sizeof (...))] *)
Definition realloc {A : Type} (d : A) (a : list A) (n : Z) : list A :=
  firstn (Z.to_nat n) a ++ repeat d (Z.to_nat n - length a).

(** [poly_x = poly_y = poly_count = NULL ; num_poly = -1] *)
Definition no_polygons : polygons :=
  {| num_poly := -1; poly_count := []; poly_x := []; poly_y := [] |}.

(** The body of the loop over the vertices of a shape, on [numParts] and
    the polygons; [None] when the point is stored through [poly_x[-1]]. *)
Definition load_vertex (shape : SHPObject) (j : Z) (st : option (Z * polygons))
  : option (Z * polygons) :=
  match st with
  | None => None
  | Some (numParts, p) =>
      let start_segment := (j =? 0) && (0 <? nParts shape) in
      let '(start_segment, numParts) :=
        if (numParts <? nParts shape) && (aget 0 (panPartStart shape) numParts =? j)
        then (true, numParts + 1)
        else (start_segment, numParts) in
      let p :=
        if start_segment
        then
          let np := num_poly p + 1 in
          {| num_poly := np;
             poly_count := aset (realloc 0 (poly_count p) (np + 1)) np 0;
             poly_x := aset (realloc [] (poly_x p) (np + 1)) np [];
             poly_y := aset (realloc [] (poly_y p) (np + 1)) np [] |}
        else p in
      if num_poly p <? 0 then None
      else
        let np := num_poly p in
        let cnt := aget 0 (poly_count p) np in
        let xs := realloc 0%Q (aget [] (poly_x p) np) (cnt + 1) in
        let ys := realloc 0%Q (aget [] (poly_y p) np) (cnt + 1) in
        Some (numParts,
              {| num_poly := np;
                 poly_count := aset (poly_count p) np (cnt + 1);
                 poly_x := aset (poly_x p) np (aset xs cnt (aget 0%Q (padfX shape) j));
                 poly_y := aset (poly_y p) np (aset ys cnt (aget 0%Q (padfY shape) j)) |})
  end.

Definition load_shape (shape : SHPObject) (p : option polygons) : option polygons :=
  if 2 <=? nVertices shape
  then option_map snd
         (for_loop 0 (nVertices shape) (load_vertex shape)
            (option_map (fun q => (1, q)) p))
  else p.

Definition no_shape : SHPObject := mkSHPObject 0 0 [] [] [].

(** The loop over the shapes of the file, then [num_poly++]. *)
Definition load_polygons (shapes : list SHPObject) : option polygons :=
  option_map
    (fun p => {| num_poly := num_poly p + 1; poly_count := poly_count p;
                 poly_x := poly_x p; poly_y := poly_y p |})
    (for_loop 0 (Z.of_nat (length shapes))
       (fun i p => load_shape (aget no_shape shapes i) p)
       (Some no_polygons)).

(** ** main.cpp: the cells *)

Definition SWBD_MASK_HEADER_SIZE : Z := 16384.

(** [uint32_t map_address = SWBD_MASK_HEADER_SIZE + ((lat + 90) * 360 + (lon + 180)) * 7] *)
Definition map_address (lat lon : Z) : Z :=
  to_uint32 (SWBD_MASK_HEADER_SIZE + ((lat + 90) * 360 + (lon + 180)) * 7).

(** [size]: the length of [bit_block]. *)
Definition bit_block_size (pc : Z) : Z :=
  let size := Z.quot (pc * pc) 8 in
  if negb (Z.rem (pc * pc) 8 =? 0) then size + 1 else size.

(** The copy of the [uint8_t] block to the bit block. *)
Definition bit_block (block : list Z) (pc : Z) : list Z :=
  for_loop 0 (pc * pc)
    (fun pos bb =>
       if negb (aget 0 block pos =? 0)
       then bit_pack bb pos 1 1
       else bit_pack bb pos 1 0)
    (calloc (bit_block_size pc)).

(** [out_size = in_size + in_size * 0.10 + 100]. The sizes of the five
    resolutions are multiples of ten, for which the product in [double]
    and its conversion to [uLongf] give the tenth exactly. *)
Definition out_capacity (in_size : Z) : Z := in_size + Z.quot in_size 10 + 100.

Definition bytes_of_string (s : string) : list Z :=
  map (fun c => Z.of_N (N_of_ascii c)) (list_ascii_of_string s).

Definition newline : string := String (ascii_of_nat 10) EmptyString.

Definition decimal (v : Z) : string := DecimalString.NilZero.string_of_int (Z.to_int v).

Section Main.

Variable E : externals.

(** The search for the shape file of the cell among the data sets. *)
Definition find_shp (lat lon : Z) : bool * Z :=
  for_loop 0 6
    (fun ds (st : bool * Z) =>
       let (file_check, file_ext) := st in
       if file_check then st
       else if swbd_fopen E lat lon ds then (true, ds) else st)
    (false, 0).

Definition read_srtm (slat slon : Q) (res : Z) : M Z :=
  emit (EvSrtm slat slon res) ;;; ret (read_srtm_mask_min_res E slat slon res).

Definition shp_open (lat lon ds : Z) : M (list SHPObject) :=
  emit (EvSHPOpen lat lon ds) ;;;
  match SHPOpen E lat lon ds with
  | None => exit (DiagPerrorShp lat lon ds)
  | Some shapes => ret shapes
  end.

(** [mask_thread[i].mask (block, resolution, num_poly, poly_count, poly_y,
    poly_x, slat, slon, complete, num_threads, i)] and the run of the
    thread. *)
Definition mask (resolution : Z) (p : polygons) (lat lon num_threads i : Z)
    (st : list Z * list Z) : M (list Z * list Z) :=
  emit (EvMask i) ;;;
  ret (run E (fst st) resolution (num_poly p) (poly_count p) (poly_y p) (poly_x p)
         lat lon (snd st) num_threads i).

Definition call_compress2 (capacity : Z) (source : list Z) (sourceLen level : Z)
  : M (Z * Z * list Z) :=
  emit (EvCompress2 sourceLen) ;;; ret (compress2 E capacity source sourceLen level).

(** The cell without a shape file. *)
Definition cell_without_file (lat lon : Z) : M unit :=
  if (lat <? -57) || (lat >? 59)
  then
    memset_mapbuf ;;;
    fseek (map_address lat lon) SEEK_SET ;;;
    fwrite_mapbuf
  else
    let slat := (inject_Z lat + (1 # 2))%Q in
    let slon := (inject_Z lon + (1 # 2))%Q in
    lnd <- read_srtm slat slon 3 ;;
    if lnd =? 0
    then
      memset_mapbuf ;;;
      pack_mapbuf 0 32 2 ;;;
      fseek (map_address lat lon) SEEK_SET ;;;
      fwrite_mapbuf
    else
      memset_mapbuf ;;;
      pack_mapbuf 0 32 1 ;;;
      fseek (map_address lat lon) SEEK_SET ;;;
      fwrite_mapbuf.

(** The cell with the shape file of data set [file_ext]. *)
Definition cell_with_file (resolution num_threads lat lon file_ext : Z) : M unit :=
  shapes <- shp_open lat lon file_ext ;;
  match load_polygons shapes with
  | None => exit DiagSegv
  | Some p =>
      let pc := point_count resolution in
      let block := calloc (pc * pc) in
      let complete := calloc num_threads in
      bc <- for_loopM 0 num_threads (mask resolution p lat lon num_threads)
              (block, complete) ;;
      let block := fst bc in
      let size := bit_block_size pc in
      let bits := bit_block block pc in
      let in_size := size in
      r <- call_compress2 (out_capacity in_size) bits size 9 ;;
      let '(n, out_size, out_buf) := r in
      if negb (n =? 0) then exit (DiagCompress n)
      else
        fseek 0 SEEK_END ;;;
        position <- ftell ;;
        let block_address := to_int32 position in
        pack_mapbuf 0 32 block_address ;;;
        pack_mapbuf 32 24 out_size ;;;
        fseek (map_address lat lon) SEEK_SET ;;;
        fwrite_mapbuf ;;;
        fseek block_address SEEK_SET ;;;
        fwrite OutBuf out_buf out_size 1
  end.

(** The body of the loop over the longitudes. *)
Definition cell (resolution num_threads lat lon : Z) : M unit :=
  let (file_check, file_ext) := find_shp lat lon in
  if negb file_check
  then cell_without_file lat lon
  else cell_with_file resolution num_threads lat lon file_ext.

(** The two loops over the cells. *)
Definition cells (resolution num_threads : Z) : M unit :=
  for_loopM (-90) 90
    (fun lat _ =>
       for_loopM (-180) 180 (fun lon _ => cell resolution num_threads lat lon) tt)
    tt.

Definition fprintf (s : string) : M unit :=
  fwrite Text (bytes_of_string s) 1 (Z.of_nat (String.length s)).

(** The header, padded with zeros to its size. *)
Definition write_header (resolution : Z) : M unit :=
  fprintf ("[HEADER SIZE] = " ++ decimal SWBD_MASK_HEADER_SIZE ++ newline) ;;;
  fprintf ("[VERSION] = " ++ VERSION E ++ newline) ;;;
  fprintf ("[ZLIB VERSION] = " ++ zlibVersion E ++ newline) ;;;
  fprintf ("[CREATION DATE] = " ++ asctime_now E) ;;;
  fprintf ("[RESOLUTION] = " ++ decimal resolution ++ newline) ;;;
  fprintf ("[END OF HEADER]" ++ newline) ;;;
  position <- ftell ;;
  let j := to_int32 position in
  for_loopM j SWBD_MASK_HEADER_SIZE (fun _ _ => fwrite Zero [0] 1 1) tt.

(** The map with every address at 0 (undefined). *)
Definition write_empty_map : M unit :=
  memset_mapbuf ;;;
  for_loopM (-90) 90
    (fun _ _ => for_loopM (-180) 180 (fun _ _ => fwrite_mapbuf) tt)
    tt.

(** [main] from the opening of the output file to [return (0)]. *)
Definition build (resolution num_threads : Z) : M Z :=
  write_header resolution ;;;
  write_empty_map ;;;
  cells resolution num_threads ;;;
  ret 0.

Definition initial_world : world :=
  {| ofp := fopen_wb; mapbuf := repeat 0 7%nat; log := [] |}.

Definition main (argv : list string) : outcome Z :=
  match configure E argv with
  | inl d => Exited d initial_world
  | inr (resolution, num_threads) =>
      if ofile_fopen E then build resolution num_threads initial_world
      else Exited DiagPerrorOfile initial_world
  end.

End Main.

(** ** The notions of the statements *)

(** The worker whose tile holds row [i] and column [j]. *)
Definition owner (r nt i j : Z) : Z :=
  (i / pass_point_count r nt) * block_count nt + j / pass_point_count r nt.

(** The indices [0 .. n - 1]. *)
Definition indices (n : Z) : list Z := map Z.of_nat (seq 0 (Z.to_nat n)).

(** The rings of [p] that the polygon test finds the point in. *)
Definition rings_containing (E : externals) (p : polygons) (slon slat : Q) : list Z :=
  filter (fun k => negb (inside_polygon2 E (aget [] (poly_x p) k) (aget [] (poly_y p) k)
                           (aget 0 (poly_count p) k) slon slat =? 0))
    (indices (num_poly p)).

(** The block and the completion flags of a cell when its threads have
    run, one after the other. *)
Definition rasterize (E : externals) (resolution : Z) (p : polygons)
    (lat lon num_threads : Z) : list Z * list Z :=
  for_loop 0 num_threads
    (fun i st => run E (fst st) resolution (num_poly p) (poly_count p) (poly_y p)
                   (poly_x p) lat lon (snd st) num_threads i)
    (calloc (point_count resolution * point_count resolution), calloc num_threads).

(** The flag of the sample of row [i] and column [j] of a cell, from the
    parity of the number of rings that hold the centre of its bin. *)
Definition sample_flag (E : externals) (p : polygons) (lat lon pc i j : Z) : Z :=
  if Z.odd (Z.of_nat (length (rings_containing E p (bin_centre lon j pc)
                                (bin_centre lat i pc))))
  then NVFalse
  else NVTrue.

(** The directory record of a cell in the file. *)
Definition record_at (f : FILE) (lat lon : Z) : list Z :=
  file_read f (map_address lat lon) 7.

(** The two fields of a record: the code, or the address of the block, in 32
    bits, and the size of the block in 24 bits. *)
Definition record_code (record : list Z) : Z := bit_unpack record 0 32.

Definition record_size (record : list Z) : Z := bit_unpack record 32 24.

(** The end of the map: the header and the 64800 records. *)
Definition MAP_END : Z := SWBD_MASK_HEADER_SIZE + 64800 * 7.

(** The size field of the directory record holds 24 bits. *)
Definition MAX_BLOCK_SIZE : Z := 16777215.

(** The packed bits of a cell. *)
Definition cell_bits (E : externals) (resolution num_threads lat lon : Z)
    (p : polygons) : list Z :=
  bit_block (fst (rasterize E resolution p lat lon num_threads)) (point_count resolution).

(** The answer of [compress2] on the packed bits of a cell. *)
Definition cell_compress (E : externals) (resolution num_threads lat lon : Z)
    (p : polygons) : Z * Z * list Z :=
  compress2 E (out_capacity (bit_block_size (point_count resolution)))
    (cell_bits E resolution num_threads lat lon p)
    (bit_block_size (point_count resolution)) 9.

(** What zlib promises of [compress2]: when it returns [Z_OK] the output
    is not empty and fits the buffer that it was given. *)
Definition zlib_contract (E : externals) : Prop :=
  forall capacity source sourceLen level n out_size out_buf,
    compress2 E capacity source sourceLen level = (n, out_size, out_buf) ->
    n = 0 -> 0 < out_size <= capacity.

(** The calls of [fwrite] of a log, the earliest first. *)
Definition writes (l : list event) : list (buffer * Z * Z) :=
  flat_map (fun e => match e with
                     | EvFwrite b position n => [(b, position, n)]
                     | _ => []
                     end)
    (rev l).

(** The calls [mask_thread[i].mask (...)] for [i] from [a], [n] of them. *)
Definition mask_events (a : Z) (n : nat) : list event :=
  map (fun k => EvMask (a + Z.of_nat k)) (seq 0 n).

(** The positions of the writes of [mapbuf] among the writes [ws]. *)
Definition map_positions (ws : list (buffer * Z * Z)) : list Z :=
  flat_map (fun e => match e with
                     | (Mapbuf, position, _) => [position]
                     | _ => []
                     end) ws.

(** The positions at which a log writes records, the earliest first. *)
Definition record_writes (l : list event) : list Z := map_positions (writes l).

(** The file with the stream at [position]. *)
Definition at_position (f : FILE) (position : Z) : FILE :=
  {| fdata := fdata f; fsize := fsize f; fpos := position |}.

(** The bytes that [fwrite (buf, n, 1, ofp)] stores. *)
Definition stored_bytes (buf : list Z) (n : Z) : list Z :=
  map (fun k => aget 0 buf (Z.of_nat k)) (seq 0 (Z.to_nat n)).

(** The world after a cell without a shape file, whose record is [record]
    and whose calls were [calls]. *)
Definition after_cell_without_file (w : world) (lat lon : Z) (record : list Z)
    (calls : list event) : world :=
  {| ofp := file_write (at_position (ofp w) (map_address lat lon)) record (7 * 1);
     mapbuf := record;
     log := EvFwrite Mapbuf (map_address lat lon) (7 * 1) :: calls ++ log w |}.

(** The record of a cell whose block of [out_size] bytes goes to the end
    [eof] of the file. *)
Definition block_record (buf : list Z) (eof out_size : Z) : list Z :=
  bit_pack (bit_pack buf 0 32 (to_int32 eof)) 32 24 out_size.

(** The world after a cell with the shape file of data set [file_ext],
    when [compress2] gave [out_size] bytes in [out_buf]. *)
Definition after_cell_with_file (w : world) (resolution num_threads lat lon file_ext : Z)
    (out_size : Z) (out_buf : list Z) : world :=
  let f0 := snd (file_seek (ofp w) 0 SEEK_END) in
  let eof := fpos f0 in
  let record := block_record (mapbuf w) eof out_size in
  let f1 := file_write (at_position f0 (map_address lat lon)) record (7 * 1) in
  let f2 := snd (file_seek f1 (to_int32 eof) SEEK_SET) in
  {| ofp := file_write f2 out_buf (out_size * 1);
     mapbuf := record;
     log := EvFwrite OutBuf (fpos f2) (out_size * 1)
            :: EvFwrite Mapbuf (map_address lat lon) (7 * 1)
            :: EvCompress2 (bit_block_size (point_count resolution))
            :: rev (mask_events 0 (Z.to_nat num_threads))
            ++ EvSHPOpen lat lon file_ext :: log w |}.

(** The code of a cell without boundary data. *)
Definition sentinel (E : externals) (lat lon : Z) : Z :=
  if (lat <? -57) || (lat >? 59) then 0
  else if read_srtm_mask_min_res E (inject_Z lat + (1 # 2))%Q (inject_Z lon + (1 # 2))%Q 3
          =? 0
       then 2
       else 1.

(** The world of an outcome. *)
Definition world_of {A : Type} (o : outcome A) : world :=
  match o with
  | Normal _ w => w
  | Exited _ w => w
  end.

(** The runs that return 0. *)
Definition returns (o : outcome Z) : bool :=
  match o with
  | Normal status _ => status =? 0
  | Exited _ _ => false
  end.

(** The runs that return 0 and leave a file that does not exceed what
    [int32_t] holds. *)
Definition run_fits (o : outcome Z) : bool :=
  match o with
  | Normal status w => (status =? 0) && (fsize (ofp w) <=? INT32_MAX)
  | Exited _ _ => false
  end.

(** The text of the header is not longer than the header. *)
Definition header_fits (E : externals) (resolution : Z) : bool :=
  fsize (ofp (world_of (write_header E resolution initial_world)))
  =? SWBD_MASK_HEADER_SIZE.

(** The cells before the cell at [lat], [lon] in the order of the loops. *)
Definition before (lat lon : Z) : Z -> Z -> Prop :=
  fun la lo => la < lat \/ (la = lat /\ lo < lon).

(** The integers [a], [a + 1], ... , [n] of them. *)
Definition range (a : Z) (n : nat) : list Z := map (fun k => a + Z.of_nat k) (seq 0 n).

(** The cells from south to north and, at each latitude, from west to
    east. *)
Definition cell_order : list (Z * Z) :=
  flat_map (fun lat => map (fun lon => (lat, lon)) (range (-180) 360)) (range (-90) 180).

(** The cell of index [k] in the order of the loops. *)
Definition cell_of_index (k : Z) : Z * Z := (k / 360 - 90, k mod 360 - 180).

(** The record of a cell in a file, when the cell has been processed.
    With boundary data the record gives the place of the block that
    [compress2] returned for the cell; without, it is the sentinel. *)
Definition cell_recorded (E : externals) (r nt : Z) (f : FILE) (lat lon : Z) : Prop :=
  let code := record_code (record_at f lat lon) in
  let size := record_size (record_at f lat lon) in
  if fst (find_shp E lat lon)
  then exists shapes p,
         SHPOpen E lat lon (snd (find_shp E lat lon)) = Some shapes /\
         load_polygons shapes = Some p /\
         fst (fst (cell_compress E r nt lat lon p)) = 0 /\
         size = snd (fst (cell_compress E r nt lat lon p)) /\
         0 < size <= MAX_BLOCK_SIZE /\
         MAP_END <= code /\ code + size <= fsize f /\
         file_read f code size = stored_bytes (snd (cell_compress E r nt lat lon p)) size
  else size = 0 /\ code = sentinel E lat lon.

(** The blocks of two cells do not overlap. *)
Definition blocks_apart (E : externals) (f : FILE) (lat lon lat' lon' : Z) : Prop :=
  fst (find_shp E lat lon) = true -> fst (find_shp E lat' lon') = true ->
  record_code (record_at f lat lon) + record_size (record_at f lat lon)
    <= record_code (record_at f lat' lon') \/
  record_code (record_at f lat' lon') + record_size (record_at f lat' lon')
    <= record_code (record_at f lat lon).

(** The file [f'] holds what [f] held, but for the record of a cell. *)
Definition kept_outside (f f' : FILE) (lat lon : Z) : Prop :=
  fsize f <= fsize f' /\
  forall off m,
    off + m <= map_address lat lon \/ map_address lat lon + 7 <= off ->
    off + m <= fsize f ->
    file_read f' off m = file_read f off m.

(** The state of the file when the cells of [done] have been processed. *)
Definition map_invariant (E : externals) (r nt : Z) (done : Z -> Z -> Prop)
    (w : world) : Prop :=
  length (mapbuf w) = 7%nat /\
  MAP_END <= fsize (ofp w) /\
  (forall lat lon, -90 <= lat < 90 -> -180 <= lon < 180 -> done lat lon ->
                   cell_recorded E r nt (ofp w) lat lon) /\
  (forall lat lon lat' lon',
     -90 <= lat < 90 -> -180 <= lon < 180 -> done lat lon ->
     -90 <= lat' < 90 -> -180 <= lon' < 180 -> done lat' lon' ->
     (lat, lon) <> (lat', lon') ->
     blocks_apart E (ofp w) lat lon lat' lon').

(** The invariant of the run: it holds as long as the file does not
    exceed what [int32_t] holds. *)
Definition run_invariant (E : externals) (r nt : Z) (done : Z -> Z -> Prop)
    (w : world) : Prop :=
  INT32_MAX < fsize (ofp w) \/ map_invariant E r nt done w.

(** The record of a cell in a file, when the cell has been processed,
    whatever the size of the file: with boundary data the record holds the
    size that [compress2] returned for the cell and the end of the file
    when the cell was processed; without, it is the sentinel. *)
Definition cell_marked (E : externals) (r nt : Z) (f : FILE) (lat lon : Z) : Prop :=
  let code := record_code (record_at f lat lon) in
  let size := record_size (record_at f lat lon) in
  if fst (find_shp E lat lon)
  then exists shapes p,
         SHPOpen E lat lon (snd (find_shp E lat lon)) = Some shapes /\
         load_polygons shapes = Some p /\
         fst (fst (cell_compress E r nt lat lon p)) = 0 /\
         size = snd (fst (cell_compress E r nt lat lon p)) /\
         0 < size <= MAX_BLOCK_SIZE /\
         MAP_END <= code < 2 ^ 32
  else size = 0 /\ code = sentinel E lat lon.

(** The state of the file when the loops are at the cell at [lat], [lon],
    whatever the size of the file: the cells before are marked. *)
Definition marks_invariant (E : externals) (r nt lat lon : Z) (w : world) : Prop :=
  length (mapbuf w) = 7%nat /\
  MAP_END <= fsize (ofp w) <= INT32_MAX + MAX_BLOCK_SIZE /\
  forall la lo, -90 <= la < 90 -> -180 <= lo < 180 -> before lat lon la lo ->
                cell_marked E r nt (ofp w) la lo.

(** The vertices of a shape from index [a] to index [b - 1]. *)
Definition slice (coords : list Q) (a b : Z) : list Q :=
  map (aget 0%Q coords) (range a (Z.to_nat (b - a))).

(** The vertex after the last one of part [k] of a shape: the start of
    the next part, or the number of the vertices. *)
Definition part_end (shape : SHPObject) (k : Z) : Z :=
  if k + 1 <? nParts shape then aget 0 (panPartStart shape) (k + 1)
  else nVertices shape.

(** The parts of a shape that [main] reads, as lists of coordinates. *)
Definition parts_of (coords : SHPObject -> list Q) (shape : SHPObject)
  : list (list Q) :=
  if 2 <=? nVertices shape
  then map (fun k => slice (coords shape) (aget 0 (panPartStart shape) k)
                       (part_end shape k))
         (indices (nParts shape))
  else [].

(** The parts of a shape are in order: there is a part, the first part
    starts at vertex 0, and every part starts before its end, which is
    among the vertices. *)
Definition parts_in_order (shape : SHPObject) : bool :=
  (0 <? nParts shape) && (aget 0 (panPartStart shape) 0 =? 0)
  && forallb (fun k => (aget 0 (panPartStart shape) k <? part_end shape k)
                       && (part_end shape k <=? nVertices shape))
       (indices (nParts shape)).

(** The polygons that hold the rings [rx], [ry]. *)
Definition polygons_of (last : Z) (rx ry : list (list Q)) : polygons :=
  {| num_poly := Z.of_nat (length rx) + last;
     poly_count := map (fun ring => Z.of_nat (length ring)) rx;
     poly_x := rx;
     poly_y := ry |}.

(** ** A worked example *)

(** A file that holds a header and a map of zeros, with its stream at the
    end. *)
Definition empty_map_file : FILE :=
  {| fdata := fun _ => 0; fsize := MAP_END; fpos := MAP_END |}.

(** A world with this file, before the first cell. *)
Definition empty_map_world : world :=
  {| ofp := empty_map_file; mapbuf := repeat 0 7%nat; log := [] |}.

(** A stand-in for [compress2] that stores the source after one byte, and
    reports [Z_BUF_ERROR] when the output buffer is too small. *)
Definition stored_compress2 (capacity : Z) (source : list Z) (sourceLen level : Z)
  : Z * Z * list Z :=
  if (0 <=? sourceLen) && (sourceLen + 1 <=? capacity)
  then (0, sourceLen + 1, 120 :: firstn (Z.to_nat sourceLen) source)
  else (-5, capacity, []).

(** The square from (10.0, 10.0) to (10.5, 10.5). *)
Definition square_ring : SHPObject :=
  {| nVertices := 5; nParts := 1; panPartStart := [0];
     padfX := [10 # 1; 21 # 2; 21 # 2; 10 # 1; 10 # 1]%Q;
     padfY := [10 # 1; 10 # 1; 21 # 2; 21 # 2; 10 # 1]%Q |}.

(** A shape of one vertex, which gives no ring. *)
Definition lone_vertex : SHPObject :=
  {| nVertices := 1; nParts := 1; panPartStart := [0];
     padfX := [11 # 1]%Q; padfY := [10 # 1]%Q |}.

(** The rings of the shape file of the square. *)
Definition square_polygons : polygons :=
  match load_polygons [square_ring] with
  | Some p => p
  | None => no_polygons
  end.

(** An environment with two shape files: the square in the cell at 10N
    10E, and a shape of one vertex in the cell at 10N 11E. The reference
    mask is land in the northern hemisphere. *)
Definition sample_externals : externals :=
  {| getenv_ABE_DATA := Some "/data"%string;
     check_srtm_mask := fun _ => 0;
     VERSION := "swbd_mask"%string;
     zlibVersion := "1.2.8"%string;
     asctime_now := ("Thu Oct 10 10:10:10 2013" ++ newline)%string;
     ofile_fopen := true;
     swbd_fopen := fun lat lon ds =>
       ((lat =? 10) && (lon =? 10) && (ds =? 2))
       || ((lat =? 10) && (lon =? 11) && (ds =? 0));
     SHPOpen := fun lat lon ds =>
       if lon =? 10 then Some [square_ring] else Some [lone_vertex];
     read_srtm_mask_min_res := fun slat slon res => if Qle_bool 0 slat then 1 else 0;
     inside_polygon2 := crossing_number;
     compress2 := stored_compress2 |}.




(** A run at the resolution of one arc-minute, with the 4 threads of the
    default. *)
Definition sample_argv : list string := ["swbd_mask"; "60"]%string.

(** ** A run beyond what [int32_t] holds *)

(** A mixing of the bits of a sample number, on 32 bits; the samples of a
    cell with an odd result are the water of the noisy cells. *)
Definition noise (k : Z) : Z :=
  let x := (k * 2654435761) mod 2 ^ 32 in
  let x := Z.lxor x (Z.shiftr x 15) in
  let x := (x * 2246822519) mod 2 ^ 32 in
  let x := Z.lxor x (Z.shiftr x 13) in
  let x := (x * 3266489917) mod 2 ^ 32 in
  Z.lxor x (Z.shiftr x 16).

(** A square ring around the centre of the bin of row [i] and column [j]
    of the cell at [lat], [lon], at one arc-second: its side is half the
    side of the bin. *)
Definition noise_ring (lat lon i j : Z) : SHPObject :=
  let cx := bin_centre lon j 3600 in
  let cy := bin_centre lat i 3600 in
  let h := (1 # 14400)%Q in
  {| nVertices := 5; nParts := 1; panPartStart := [0];
     padfX := [cx - h; cx + h; cx + h; cx - h; cx - h]%Q;
     padfY := [cy - h; cy - h; cy + h; cy + h; cy - h]%Q |}.

(** The shape file of a noisy cell: a ring for every sample of water. *)
Definition noise_shapes (lat lon : Z) : list SHPObject :=
  flat_map (fun k => if Z.odd (noise k)
                     then [noise_ring lat lon (k / 3600) (k mod 3600)]
                     else [])
    (indices (3600 * 3600)).

(** An answer of [compress2] of [size] bytes, or [Z_BUF_ERROR] when the
    output buffer is smaller; the bytes stand for the deflate stream. *)
Definition deflated (size : Z) (capacity : Z) (source : list Z) (sourceLen level : Z)
  : Z * Z * list Z :=
  if (0 <? size) && (size <=? capacity) then (0, size, calloc size)
  else (-5, capacity, []).

(** An environment in which every cell has the shape file of a noisy
    cell, and the deflate stream of a block takes [size] bytes. *)
Definition noisy_externals (size : Z) : externals :=
  {| getenv_ABE_DATA := Some "/data"%string;
     check_srtm_mask := fun _ => 0;
     VERSION := "swbd_mask"%string;
     zlibVersion := "1.2.13"%string;
     asctime_now := ("Thu Oct 10 10:10:10 2013" ++ newline)%string;
     ofile_fopen := true;
     swbd_fopen := fun lat lon ds => ds =? 0;
     SHPOpen := fun lat lon ds => Some (noise_shapes lat lon);
     read_srtm_mask_min_res := fun slat slon res => 1;
     inside_polygon2 := crossing_number;
     compress2 := deflated size |}.

(** A run at the resolution of one arc-second. *)
Definition noisy_argv : list string := ["swbd_mask"; "1"]%string.

(** The cells of the noisy run that are done when its file first exceeds
    what [int32_t] holds, and the end of its file when [k] cells are
    done. *)
Definition noisy_cells (size : Z) : Z := (INT32_MAX - MAP_END) / size + 1.

Definition noisy_size (size k : Z) : Z := MAP_END + Z.min k (noisy_cells size) * size.

(** The state of the noisy run when [k] cells are done: past the cell
    that takes the file beyond what [int32_t] holds, the file stops growing
    and the record of the latest cell holds the end of the file. *)
Definition noisy_state (size k : Z) (w : world) : Prop :=
  length (mapbuf w) = 7%nat /\
  fsize (ofp w) = noisy_size size k /\
  (noisy_cells size < k ->
   record_code (record_at (ofp w) (fst (cell_of_index (k - 1))) (snd (cell_of_index (k - 1))))
   = noisy_size size k /\
   record_size (record_at (ofp w) (fst (cell_of_index (k - 1))) (snd (cell_of_index (k - 1))))
   = size).

(** ** main.cpp: the names of the files *)

(** [dataset]: the letters of the data sets. *)
Definition dataset : list ascii := ["a"; "e"; "f"; "i"; "n"; "s"; "x"]%char.

Definition lathem (lat : Z) : ascii := if lat <? 0 then "s"%char else "n"%char.

Definition lonhem (lon : Z) : ascii := if lon <? 0 then "w"%char else "e"%char.

(** The conversion ["%0Nd"] of [sprintf] for the width N: the decimal
    digits, after the zeros that fill the width and after the sign of a
    negative number. *)
Definition format_0d (width : nat) (v : Z) : string :=
  let digits := decimal (Z.abs v) in
  let sign := if v <? 0 then "-"%string else ""%string in
  (sign ++ string_of_list_ascii
             (repeat "0"%char (width - String.length sign - String.length digits))
        ++ digits)%string.

(** [sprintf (shpname, "%s%1cSWBD%1c%1c%03d%1c%02d%1c.shp", dirname,
    SEPARATOR, SEPARATOR, lonhem, ln, lathem, lt, dataset[ds])], with
    [lt = abs (lat)] and [ln = abs (lon)]. *)
Definition shpname (dirname : string) (SEPARATOR : ascii) (lat lon ds : Z) : string :=
  let lt := Z.abs lat in
  let ln := Z.abs lon in
  (dirname ++ String SEPARATOR
     ("SWBD" ++ String SEPARATOR
        (String (lonhem lon)
           (format_0d 3 ln ++ String (lathem lat)
              (format_0d 2 lt ++ String (aget " "%char dataset ds) ".shp")))))%string.

(** [sprintf (ofile, "%s%1cland_mask%1cswbd_mask_%02d_second.clm", dirname,
    SEPARATOR, SEPARATOR, resolution)] *)
Definition ofile (dirname : string) (SEPARATOR : ascii) (resolution : Z) : string :=
  (dirname ++ String SEPARATOR
     ("land_mask" ++ String SEPARATOR
        ("swbd_mask_" ++ format_0d 2 resolution ++ "_second.clm")))%string.

(** ** More notions of the statements *)

(** The character of a decimal digit. *)
Definition digit_char (d : Z) : ascii := ascii_of_N (Z.to_N (48 + d)).

Definition three_digits (v : Z) : string :=
  String (digit_char (v / 100))
    (String (digit_char (v / 10 mod 10)) (String (digit_char (v mod 10)) EmptyString)).

Definition two_digits (v : Z) : string :=
  String (digit_char (v / 10)) (String (digit_char (v mod 10)) EmptyString).



(** The text of the header, and the bytes of the header with its
    padding. *)
Definition header_text (E : externals) (resolution : Z) : string :=
  (("[HEADER SIZE] = " ++ decimal SWBD_MASK_HEADER_SIZE ++ newline)
   ++ ("[VERSION] = " ++ VERSION E ++ newline)
   ++ ("[ZLIB VERSION] = " ++ zlibVersion E ++ newline)
   ++ ("[CREATION DATE] = " ++ asctime_now E)
   ++ ("[RESOLUTION] = " ++ decimal resolution ++ newline)
   ++ ("[END OF HEADER]" ++ newline))%string.

Definition header_bytes (E : externals) (resolution : Z) : list Z :=
  bytes_of_string (header_text E resolution)
  ++ repeat 0 (Z.to_nat SWBD_MASK_HEADER_SIZE - String.length (header_text E resolution)).

(** The bytes of a file. *)
Definition contents (f : FILE) : list Z := file_read f 0 (fsize f).


(** The workers of a cell run in the order of the list [order]. *)
Definition rasterize_in_order (E : externals) (resolution : Z) (p : polygons)
    (lat lon num_threads : Z) (order : list Z) : list Z * list Z :=
  fold_left
    (fun st pass => run E (fst st) resolution (num_poly p) (poly_count p) (poly_y p)
                      (poly_x p) lat lon (snd st) num_threads pass)
    order
    (calloc (point_count resolution * point_count resolution), calloc num_threads).

(** The first [n] cells of the row at [lat], and the cells that the loops
    process before the cell at [lat], [lon]. *)
Definition row_cells (lat : Z) (n : nat) : list (Z * Z) :=
  map (fun lon => (lat, lon)) (range (-180) n).

Definition cells_before (lat lon : Z) : list (Z * Z) :=
  flat_map (fun la => row_cells la 360) (range (-90) (Z.to_nat (lat + 90)))
  ++ row_cells lat (Z.to_nat (lon + 180)).

(** The sum of the sizes that the records of the cells [cs] hold. *)
Definition recorded_size (f : FILE) (cs : list (Z * Z)) : Z :=
  fold_right Z.add 0 (map (fun c => record_size (record_at f (fst c) (snd c))) cs).

(** The first shape of at least two vertices has no part. *)
Fixpoint starts_without_part (shapes : list SHPObject) : bool :=
  match shapes with
  | [] => false
  | shape :: rest =>
      if 2 <=? nVertices shape then nParts shape <=? 0
      else starts_without_part rest
  end.

(** ** More worked examples *)



(** A shape of two vertices and no part, as a shape of the type MultiPoint
    has them. *)
Definition two_points : SHPObject :=
  {| nVertices := 2; nParts := 0; panPartStart := [];
     padfX := [30 # 1; 31 # 1]%Q; padfY := [40 # 1; 41 # 1]%Q |}.

(** * Properties *)

(** ** Loops and arrays *)

Section Loops.

Context {S : Type}.

Lemma for_up_inv (P : Z -> S -> Prop) (body : Z -> S -> S) (n : nat) (a : Z) (s : S) :
  P a s ->
  (forall i t, a <= i < a + Z.of_nat n -> P i t -> P (i + 1) (body i t)) ->
  P (a + Z.of_nat n) (for_up n a body s).
Proof.
  revert a s. induction n as [|n IH]; intros a s H0 Hstep.
  - simpl. now replace (a + 0) with a by lia.
  - cbn [for_up].
    replace (a + Z.of_nat (Datatypes.S n)) with ((a + 1) + Z.of_nat n) by lia.
    apply IH.
    + apply Hstep; [lia | exact H0].
    + intros i t Hi. apply Hstep. lia.
Qed.

(** The invariant rule of [for (i = a ; i < b ; i++)]. *)
Lemma for_loop_inv (P : Z -> S -> Prop) (body : Z -> S -> S) (a b : Z) (s : S) :
  a <= b ->
  P a s ->
  (forall i t, a <= i < b -> P i t -> P (i + 1) (body i t)) ->
  P b (for_loop a b body s).
Proof.
  intros Hab H0 Hstep. unfold for_loop.
  replace b with (a + Z.of_nat (Z.to_nat (b - a))) at 1 by lia.
  apply for_up_inv; [exact H0 |].
  intros i t Hi. apply Hstep. lia.
Qed.

Lemma for_up_ext (f g : Z -> S -> S) (n : nat) (a : Z) (s : S) :
  (forall i t, a <= i < a + Z.of_nat n -> f i t = g i t) ->
  for_up n a f s = for_up n a g s.
Proof.
  revert a s. induction n as [|n IH]; intros a s H; [reflexivity |].
  cbn [for_up]. rewrite H by lia. apply IH. intros i t Hi. apply H. lia.
Qed.

Lemma for_loop_ext (f g : Z -> S -> S) (a b : Z) (s : S) :
  (forall i t, a <= i < b -> f i t = g i t) ->
  for_loop a b f s = for_loop a b g s.
Proof.
  intros H. unfold for_loop. apply for_up_ext. intros i t Hi. apply H. lia.
Qed.

Lemma for_loop_empty (body : Z -> S -> S) (a b : Z) (s : S) :
  b <= a -> for_loop a b body s = s.
Proof.
  intros H. unfold for_loop. now replace (Z.to_nat (b - a)) with O by lia.
Qed.

Lemma for_loop_fixed (body : Z -> S -> S) (a b : Z) (s : S) :
  (forall i, a <= i < b -> body i s = s) -> for_loop a b body s = s.
Proof.
  intros H. destruct (Z_le_gt_dec a b) as [Hab|Hab].
  - apply (for_loop_inv (fun _ t => t = s)); [exact Hab | reflexivity |].
    intros i t Hi ->. now apply H.
  - apply for_loop_empty. lia.
Qed.

Lemma for_upM_inv (P : Z -> S -> world -> Prop) (body : Z -> S -> M S)
    (n : nat) (a : Z) (s : S) (w : world) :
  P a s w ->
  (forall i t u t' u', a <= i < a + Z.of_nat n -> P i t u ->
                       body i t u = Normal t' u' -> P (i + 1) t' u') ->
  forall s' w', for_upM n a body s w = Normal s' w' -> P (a + Z.of_nat n) s' w'.
Proof.
  revert a s w. induction n as [|n IH]; intros a s w H0 Hstep s' w' Hrun.
  - cbn in Hrun. injection Hrun as <- <-. now replace (a + Z.of_nat 0) with a by lia.
  - cbn [for_upM] in Hrun. unfold bind in Hrun.
    destruct (body a s w) as [t u|d u] eqn:Hb; [|discriminate].
    replace (a + Z.of_nat (Datatypes.S n)) with ((a + 1) + Z.of_nat n) by lia.
    apply IH with (s := t) (w := u); [| |exact Hrun].
    + apply Hstep with (i := a) (t := s) (u := w); [lia | exact H0 | exact Hb].
    + intros i t0 u0 t' u' Hi. apply Hstep. lia.
Qed.

(** The invariant rule of a loop whose body may leave the program. *)
Lemma for_loopM_inv (P : Z -> S -> world -> Prop) (body : Z -> S -> M S)
    (a b : Z) (s : S) (w : world) :
  a <= b ->
  P a s w ->
  (forall i t u t' u', a <= i < b -> P i t u ->
                       body i t u = Normal t' u' -> P (i + 1) t' u') ->
  forall s' w', for_loopM a b body s w = Normal s' w' -> P b s' w'.
Proof.
  intros Hab H0 Hstep s' w' Hrun. unfold for_loopM in Hrun.
  replace b with (a + Z.of_nat (Z.to_nat (b - a))) by lia.
  apply (for_upM_inv P body _ a s w); [exact H0 | | exact Hrun].
  intros i t u t' u' Hi. apply Hstep. lia.
Qed.

(** A loop whose body never leaves the program ends normally. *)
Lemma for_upM_total (body : Z -> S -> M S) (n : nat) (a : Z) (s : S) (w : world) :
  (forall i t u, exists t' u', body i t u = Normal t' u') ->
  exists s' w', for_upM n a body s w = Normal s' w'.
Proof.
  intros Hb. revert a s w. induction n as [|n IH]; intros a s w.
  - now exists s, w.
  - cbn [for_upM]. unfold bind.
    destruct (Hb a s w) as (t & u & ->). apply IH.
Qed.

End Loops.

Section Arrays.

Context {A : Type}.

Lemma length_upd (a : list A) (n : nat) (v : A) : length (upd a n v) = length a.
Proof.
  revert n. induction a as [|h t IH]; intros [|n]; simpl; auto.
Qed.

Lemma nth_upd_same (a : list A) (n : nat) (v d : A) :
  (n < length a)%nat -> nth n (upd a n v) d = v.
Proof.
  revert n. induction a as [|h t IH]; intros [|n]; simpl; intros H;
    try lia; auto. apply IH. lia.
Qed.

Lemma nth_upd_other (a : list A) (n m : nat) (v d : A) :
  n <> m -> nth m (upd a n v) d = nth m a d.
Proof.
  revert n m. induction a as [|h t IH]; intros [|n] [|m]; simpl; intros H;
    try congruence; auto.
Qed.

Lemma length_aset (a : list A) (i : Z) (v : A) : length (aset a i v) = length a.
Proof.
  unfold aset. destruct (i <? 0); [reflexivity | apply length_upd].
Qed.

Lemma aget_aset_same (d : A) (a : list A) (i : Z) (v : A) :
  0 <= i < Z.of_nat (length a) -> aget d (aset a i v) i = v.
Proof.
  intros H. unfold aget, aset.
  destruct (Z.ltb_spec i 0); [lia |]. apply nth_upd_same. lia.
Qed.

Lemma aget_aset_other (d : A) (a : list A) (i j : Z) (v : A) :
  i <> j -> aget d (aset a i v) j = aget d a j.
Proof.
  intros H. unfold aget, aset.
  destruct (Z.ltb_spec j 0); [reflexivity |].
  destruct (Z.ltb_spec i 0); [reflexivity |].
  apply nth_upd_other. lia.
Qed.

Lemma aget_outside (d : A) (a : list A) (i : Z) :
  Z.of_nat (length a) <= i -> aget d a i = d.
Proof.
  intros H. unfold aget. destruct (Z.ltb_spec i 0); [reflexivity |].
  apply nth_overflow. lia.
Qed.

End Arrays.

Lemma length_calloc (n : Z) : Z.of_nat (length (calloc n)) = Z.max 0 n.
Proof. unfold calloc. rewrite repeat_length. lia. Qed.

Lemma aget_calloc (n i : Z) : aget 0 (calloc n) i = 0.
Proof.
  unfold aget, calloc. destruct (i <? 0); [reflexivity |].
  destruct (Nat.lt_ge_cases (Z.to_nat i) (Z.to_nat n)) as [H|H].
  - now apply nth_repeat_lt.
  - apply nth_overflow. now rewrite repeat_length.
Qed.

(** ** The tiles of the workers *)

Lemma valid_resolution_cases (r : Z) :
  valid_resolution r = true -> r = 1 \/ r = 3 \/ r = 10 \/ r = 30 \/ r = 60.
Proof.
  unfold valid_resolution.
  destruct (Z.eqb_spec r 1), (Z.eqb_spec r 3), (Z.eqb_spec r 10),
    (Z.eqb_spec r 30), (Z.eqb_spec r 60); simpl; intros H; try discriminate; lia.
Qed.

Lemma valid_num_threads_cases (n : Z) :
  valid_num_threads n = true -> n = 4 \/ n = 16.
Proof.
  unfold valid_num_threads.
  destruct (Z.eqb_spec n 4), (Z.eqb_spec n 16); simpl; intros H;
    try discriminate; lia.
Qed.

(** The side of the arrangement and the side of a tile, for the arguments
    that [main] accepts. *)
Lemma tile_sides (r nt : Z) :
  valid_resolution r = true -> valid_num_threads nt = true ->
  exists bc side,
    block_count nt = bc /\ pass_point_count r nt = side /\
    0 < bc /\ 0 < side /\ bc * bc = nt /\ bc * side = point_count r.
Proof.
  intros Hr Hn.
  destruct (valid_resolution_cases r Hr) as [->|[->|[->|[->| ->]]]];
    destruct (valid_num_threads_cases nt Hn) as [->| ->];
    eexists; eexists; (split; [reflexivity |]); (split; [reflexivity |]);
    vm_compute; repeat split; reflexivity.
Qed.

Ltac tile_cases Hr Hn :=
  let r := match type of Hr with valid_resolution ?r = true => r end in
  let nt := match type of Hn with valid_num_threads ?n = true => n end in
  destruct (valid_resolution_cases r Hr) as [->|[->|[->|[->| ->]]]];
  destruct (valid_num_threads_cases nt Hn) as [->| ->];
  clear Hr Hn.

Ltac tile_unfold :=
  unfold in_tile, end_y, end_x, start_y, start_x, pass_point_count, point_count,
    block_count, NINT_sqrt in *;
  repeat match goal with
         | |- context [Z.sqrt ?n] =>
             let v := eval vm_compute in (Z.sqrt n) in change (Z.sqrt n) with v
         | H : context [Z.sqrt ?n] |- _ =>
             let v := eval vm_compute in (Z.sqrt n) in change (Z.sqrt n) with v in H
         end;
  cbn [Z.mul Z.add Pos.mul Pos.add Pos.succ Z.ltb Z.compare Pos.compare
       Pos.compare_cont Z.pos_sub] in *;
  repeat match goal with
         | |- context [Z.quot (Zpos ?a) (Zpos ?b)] =>
             let v := eval vm_compute in (Z.quot (Zpos a) (Zpos b)) in
             change (Z.quot (Zpos a) (Zpos b)) with v
         | H : context [Z.quot (Zpos ?a) (Zpos ?b)] |- _ =>
             let v := eval vm_compute in (Z.quot (Zpos a) (Zpos b)) in
             change (Z.quot (Zpos a) (Zpos b)) with v in H
         end.

Lemma in_tile_bounds (r nt p i j : Z) :
  in_tile r nt p i j = true <->
  (start_y r nt p <= i < end_y r nt p /\ start_x r nt p <= j < end_x r nt p).
Proof.
  unfold in_tile. rewrite !andb_true_iff, !Z.leb_le, !Z.ltb_lt. lia.
Qed.

(** The bounds of tile [p], with the quotient and the remainder of C
    written as [/] and [mod]. *)
Lemma tile_bounds (r nt p : Z) :
  valid_resolution r = true -> valid_num_threads nt = true -> 0 <= p < nt ->
  start_y r nt p = (p / block_count nt) * pass_point_count r nt /\
  end_y r nt p = (p / block_count nt + 1) * pass_point_count r nt /\
  start_x r nt p = (p mod block_count nt) * pass_point_count r nt /\
  end_x r nt p = (p mod block_count nt + 1) * pass_point_count r nt.
Proof.
  intros Hr Hn Hp.
  destruct (tile_sides r nt Hr Hn) as (bc & side & Hbc & Hside & Hb & Hs & _).
  unfold end_y, end_x, start_y, start_x. rewrite Hbc, Hside.
  rewrite Z.quot_div_nonneg, Z.rem_mod_nonneg by lia. lia.
Qed.

Lemma tile_inside_grid (r nt p i j : Z) :
  valid_resolution r = true -> valid_num_threads nt = true -> 0 <= p < nt ->
  in_tile r nt p i j = true ->
  0 <= i < point_count r /\ 0 <= j < point_count r.
Proof.
  intros Hr Hn Hp Hin. apply in_tile_bounds in Hin.
  tile_cases Hr Hn; tile_unfold;
    rewrite Z.quot_div_nonneg, Z.rem_mod_nonneg in Hin by lia;
    Z.to_euclidean_division_equations; lia.
Qed.

Lemma owner_range (r nt i j : Z) :
  valid_resolution r = true -> valid_num_threads nt = true ->
  0 <= i < point_count r -> 0 <= j < point_count r ->
  0 <= owner r nt i j < nt.
Proof.
  intros Hr Hn Hi Hj. unfold owner.
  tile_cases Hr Hn; tile_unfold; Z.to_euclidean_division_equations; lia.
Qed.

Lemma owner_in_tile (r nt i j : Z) :
  valid_resolution r = true -> valid_num_threads nt = true ->
  0 <= i < point_count r -> 0 <= j < point_count r ->
  in_tile r nt (owner r nt i j) i j = true.
Proof.
  intros Hr Hn Hi Hj. apply in_tile_bounds.
  pose proof (owner_range r nt i j Hr Hn Hi Hj) as Ho.
  destruct (tile_bounds r nt (owner r nt i j) Hr Hn Ho) as (-> & -> & -> & ->).
  unfold owner in *.
  tile_cases Hr Hn; tile_unfold; Z.to_euclidean_division_equations; lia.
Qed.

Lemma in_tile_owner (r nt p i j : Z) :
  valid_resolution r = true -> valid_num_threads nt = true -> 0 <= p < nt ->
  in_tile r nt p i j = true -> p = owner r nt i j.
Proof.
  intros Hr Hn Hp Hin. apply in_tile_bounds in Hin.
  destruct (tile_bounds r nt p Hr Hn Hp) as (Ha & Hb & Hc & Hd).
  rewrite Ha, Hb, Hc, Hd in Hin. clear Ha Hb Hc Hd. unfold owner.
  tile_cases Hr Hn; tile_unfold; Z.to_euclidean_division_equations; lia.
Qed.

(** C6. For the worker counts 4 and 16 and the point count of every
    resolution, the tiles are squares of side [pointCount / sqrt N]: worker
    [p] owns the rows from [(p div sqrt N) * side] and the columns from
    [(p mod sqrt N) * side]; the tiles lie inside the grid, and every
    position of the grid belongs to the tile of exactly one worker, so that
    the tiles are pairwise disjoint and cover the grid. *)
Theorem tiles_partition_grid (resolution num_threads : Z) :
  valid_resolution resolution = true ->
  valid_num_threads num_threads = true ->
  let pc := point_count resolution in
  let root := block_count num_threads in
  let side := pass_point_count resolution num_threads in
  root * root = num_threads /\
  root * side = pc /\
  (forall p, 0 <= p < num_threads ->
     start_y resolution num_threads p = (p / root) * side /\
     end_y resolution num_threads p = (p / root + 1) * side /\
     start_x resolution num_threads p = (p mod root) * side /\
     end_x resolution num_threads p = (p mod root + 1) * side /\
     forall i j, in_tile resolution num_threads p i j = true ->
                 0 <= i < pc /\ 0 <= j < pc) /\
  (forall i j, 0 <= i < pc -> 0 <= j < pc ->
     exists p, 0 <= p < num_threads /\
               in_tile resolution num_threads p i j = true /\
               forall q, 0 <= q < num_threads ->
                         in_tile resolution num_threads q i j = true -> q = p).
Proof.
  intros Hr Hn pc root side.
  destruct (tile_sides resolution num_threads Hr Hn)
    as (bc & sd & Hbc & Hside & _ & _ & Hsq & Hcover).
  subst pc root side. rewrite Hbc, Hside.
  split; [exact Hsq |]. split; [exact Hcover |]. split.
  - intros p Hp.
    destruct (tile_bounds resolution num_threads p Hr Hn Hp) as (Ha & Hb & Hc & Hd).
    rewrite Hbc, Hside in Ha, Hb, Hc, Hd.
    repeat (split; [assumption |]).
    intros i j. now apply tile_inside_grid.
  - intros i j Hi Hj. exists (owner resolution num_threads i j).
    split; [now apply owner_range |].
    split; [now apply owner_in_tile |].
    intros q Hq Hin. now apply in_tile_owner.
Qed.

Lemma tiles_partition_grid_witness :
  valid_resolution 60 = true /\ valid_num_threads 16 = true /\
  block_count 16 * pass_point_count 60 16 = point_count 60.
Proof.
  split; [reflexivity |]. split; [reflexivity |].
  exact (proj1 (proj2 (tiles_partition_grid 60 16 eq_refl eq_refl))).
Defined.

(** ** The bit packer *)

Lemma length_set_bit (buffer : list Z) (p : Z) (b : bool) :
  length (set_bit buffer p b) = length buffer.
Proof. unfold set_bit. apply length_aset. Qed.

Lemma get_set_bit_same (buffer : list Z) (p : Z) (b : bool) :
  0 <= p < 8 * Z.of_nat (length buffer) ->
  get_bit (set_bit buffer p b) p = b.
Proof.
  intros Hp. unfold get_bit, set_bit, byte_bit.
  assert (Hm : 0 <= p mod 8 < 8) by (apply Z.mod_pos_bound; lia).
  rewrite aget_aset_same by (Z.to_euclidean_division_equations; lia).
  destruct b.
  - apply Z.setbit_eq. lia.
  - apply Z.clearbit_eq.
Qed.

Lemma get_set_bit_other (buffer : list Z) (p q : Z) (b : bool) :
  0 <= p -> 0 <= q -> p <> q ->
  get_bit (set_bit buffer p b) q = get_bit buffer q.
Proof.
  intros Hp Hq Hne. unfold get_bit, set_bit, byte_bit.
  assert (Hpm : 0 <= p mod 8 < 8) by (apply Z.mod_pos_bound; lia).
  assert (Hqm : 0 <= q mod 8 < 8) by (apply Z.mod_pos_bound; lia).
  destruct (Z.eq_dec (p / 8) (q / 8)) as [Heq|Hd].
  - assert (Hmod : p mod 8 <> q mod 8).
    { intros Hm. apply Hne.
      rewrite (Z.div_mod p 8), (Z.div_mod q 8) by lia. congruence. }
    rewrite <- Heq.
    destruct (Z_lt_ge_dec (p / 8) (Z.of_nat (length buffer))) as [Hin|Hout].
    + rewrite aget_aset_same
        by (split; [apply Z.div_pos; lia | exact Hin]).
      destruct b.
      * apply Z.setbit_neq; lia.
      * apply Z.clearbit_neq; lia.
    + rewrite !aget_outside; [reflexivity | lia |].
      rewrite length_aset. lia.
  - now rewrite aget_aset_other.
Qed.

(** The bits of a buffer after [bit_pack]: the field holds the low
    [numbits] bits of the value, the most significant first, and the other
    bits are kept. *)
Lemma bit_pack_spec (buffer : list Z) (start numbits value : Z) :
  0 <= start -> 0 <= numbits ->
  start + numbits <= 8 * Z.of_nat (length buffer) ->
  length (bit_pack buffer start numbits value) = length buffer /\
  forall q, 0 <= q ->
    get_bit (bit_pack buffer start numbits value) q =
    if (start <=? q) && (q <? start + numbits)
    then Z.testbit value (start + numbits - 1 - q)
    else get_bit buffer q.
Proof.
  intros Hs Hn Hfit. unfold bit_pack.
  apply (for_loop_inv
           (fun k buf =>
              length buf = length buffer /\
              forall q, 0 <= q ->
                get_bit buf q =
                if (start <=? q) && (q <? start + k)
                then Z.testbit value (start + numbits - 1 - q)
                else get_bit buffer q)); [exact Hn | |].
  - split; [reflexivity |]. intros q Hq.
    destruct (Z.leb_spec start q), (Z.ltb_spec q (start + 0)); simpl;
      try reflexivity; lia.
  - intros k buf Hk (Hlen & Hbits). split.
    + now rewrite length_set_bit.
    + intros q Hq. destruct (Z.eq_dec q (start + k)) as [->|Hne].
      * rewrite get_set_bit_same by (rewrite Hlen; lia).
        destruct (Z.leb_spec start (start + k)),
          (Z.ltb_spec (start + k) (start + (k + 1))); simpl; try lia.
        f_equal. lia.
      * rewrite get_set_bit_other by lia. rewrite Hbits by exact Hq.
        destruct (Z.leb_spec start q), (Z.ltb_spec q (start + k)),
          (Z.ltb_spec q (start + (k + 1))); simpl; try reflexivity; lia.
Qed.

Lemma unpack_step (v m k : Z) :
  0 < m -> 0 <= k ->
  (v / 2 ^ (m - 1)) mod 2 ^ (k + 1) =
  2 * ((v / 2 ^ m) mod 2 ^ k) + (if Z.testbit v (m - 1) then 1 else 0).
Proof.
  intros Hm Hk.
  replace (2 ^ (k + 1)) with (2 * 2 ^ k)
    by (rewrite Z.pow_add_r, Z.pow_1_r by lia; lia).
  rewrite Z.rem_mul_r by lia.
  replace (v / 2 ^ m) with (v / 2 ^ (m - 1) / 2).
  - pose proof (Z.testbit_spec' v (m - 1) ltac:(lia)) as Hbit.
    destruct (Z.testbit v (m - 1)); cbn [Z.b2z] in Hbit; lia.
  - rewrite Z.div_div by lia.
    replace (2 ^ (m - 1) * 2) with (2 ^ m); [reflexivity |].
    replace m with (m - 1 + 1) at 1 by lia.
    rewrite Z.pow_add_r, Z.pow_1_r by lia. reflexivity.
Qed.

(** A field whose bits are the low bits of [v] unpacks to [v] modulo its
    width. *)
Lemma bit_unpack_spec (buffer : list Z) (start numbits v : Z) :
  0 <= numbits ->
  (forall k, 0 <= k < numbits ->
             get_bit buffer (start + k) = Z.testbit v (numbits - 1 - k)) ->
  bit_unpack buffer start numbits = v mod 2 ^ numbits.
Proof.
  intros Hn Hbits. unfold bit_unpack.
  assert (H : for_loop 0 numbits
                (fun k acc => 2 * acc + (if get_bit buffer (start + k) then 1 else 0))
                0
              = (v / 2 ^ (numbits - numbits)) mod 2 ^ numbits).
  { apply (for_loop_inv (fun k acc => acc = (v / 2 ^ (numbits - k)) mod 2 ^ k));
      [exact Hn | |].
    - rewrite Z.pow_0_r. now rewrite Z.mod_1_r.
    - intros k acc Hk ->. rewrite Hbits by exact Hk.
      replace (numbits - (k + 1)) with (numbits - k - 1) by lia.
      replace (numbits - 1 - k) with (numbits - k - 1) by lia.
      symmetry. apply unpack_step; lia. }
  rewrite H. now rewrite Z.sub_diag, Z.pow_0_r, Z.div_1_r.
Qed.

Lemma bit_unpack_pack (buffer : list Z) (start numbits value : Z) :
  0 <= start -> 0 <= numbits ->
  start + numbits <= 8 * Z.of_nat (length buffer) ->
  bit_unpack (bit_pack buffer start numbits value) start numbits
  = value mod 2 ^ numbits.
Proof.
  intros Hs Hn Hfit. apply bit_unpack_spec; [exact Hn |].
  intros k Hk.
  destruct (bit_pack_spec buffer start numbits value Hs Hn Hfit) as (_ & Hbits).
  rewrite Hbits by lia.
  destruct (Z.leb_spec start (start + k)), (Z.ltb_spec (start + k) (start + numbits));
    simpl; try lia.
  f_equal. lia.
Qed.

Lemma bit_unpack_ext (b1 b2 : list Z) (start numbits : Z) :
  (forall k, 0 <= k < numbits -> get_bit b1 (start + k) = get_bit b2 (start + k)) ->
  bit_unpack b1 start numbits = bit_unpack b2 start numbits.
Proof.
  intros H. unfold bit_unpack. apply for_loop_ext.
  intros k acc Hk. now rewrite H.
Qed.

(** A field is kept by [bit_pack] on a field that does not overlap it. *)
Lemma bit_unpack_pack_other (buffer : list Z) (start numbits value s n : Z) :
  0 <= start -> 0 <= numbits ->
  start + numbits <= 8 * Z.of_nat (length buffer) ->
  0 <= s -> s + n <= start \/ start + numbits <= s ->
  bit_unpack (bit_pack buffer start numbits value) s n = bit_unpack buffer s n.
Proof.
  intros Hs Hn Hfit Hs' Hdisj. apply bit_unpack_ext. intros k Hk.
  destruct (bit_pack_spec buffer start numbits value Hs Hn Hfit) as (_ & Hbits).
  rewrite Hbits by lia.
  destruct (Z.leb_spec start (s + k)), (Z.ltb_spec (s + k) (start + numbits));
    simpl; try reflexivity; lia.
Qed.

(** ** The packed bits of a cell *)

Lemma bit_block_size_ceil (pc : Z) : bit_block_size pc = (pc * pc + 7) / 8.
Proof.
  unfold bit_block_size.
  assert (H : 0 <= pc * pc) by nia.
  rewrite Z.quot_div_nonneg, Z.rem_mod_nonneg by lia.
  destruct (Z.eqb_spec ((pc * pc) mod 8) 0); simpl;
    Z.to_euclidean_division_equations; lia.
Qed.

Lemma get_bit_calloc (n q : Z) : get_bit (calloc n) q = false.
Proof.
  unfold get_bit, byte_bit. rewrite aget_calloc. apply Z.testbit_0_l.
Qed.

Lemma bit_block_spec (block : list Z) (pc : Z) :
  Z.of_nat (length (bit_block block pc)) = bit_block_size pc /\
  forall i, 0 <= i < pc * pc ->
            get_bit (bit_block block pc) i = negb (aget 0 block i =? 0).
Proof.
  assert (Hsq : 0 <= pc * pc) by nia.
  assert (Hsize : pc * pc <= 8 * bit_block_size pc).
  { rewrite bit_block_size_ceil. Z.to_euclidean_division_equations; lia. }
  assert (Hpos : 0 <= bit_block_size pc).
  { rewrite bit_block_size_ceil. Z.to_euclidean_division_equations; lia. }
  unfold bit_block.
  assert (H : Z.of_nat (length
                (for_loop 0 (pc * pc)
                   (fun pos bb =>
                      if negb (aget 0 block pos =? 0)
                      then bit_pack bb pos 1 1 else bit_pack bb pos 1 0)
                   (calloc (bit_block_size pc)))) = bit_block_size pc /\
              forall q, 0 <= q ->
                get_bit (for_loop 0 (pc * pc)
                           (fun pos bb =>
                              if negb (aget 0 block pos =? 0)
                              then bit_pack bb pos 1 1 else bit_pack bb pos 1 0)
                           (calloc (bit_block_size pc))) q =
                if q <? pc * pc then negb (aget 0 block q =? 0) else false).
  { apply (for_loop_inv
             (fun pos bb =>
                Z.of_nat (length bb) = bit_block_size pc /\
                forall q, 0 <= q ->
                  get_bit bb q =
                  if q <? pos then negb (aget 0 block q =? 0) else false));
      [exact Hsq | |].
    - split; [rewrite length_calloc; lia |].
      intros q Hq. rewrite get_bit_calloc.
      destruct (Z.ltb_spec q 0); [lia | reflexivity].
    - intros pos bb Hp (Hlen & Hbits).
      assert (Hstep : forall v,
                 Z.of_nat (length (bit_pack bb pos 1 v)) = bit_block_size pc /\
                 forall q, 0 <= q ->
                   get_bit (bit_pack bb pos 1 v) q =
                   if q =? pos then Z.testbit v 0
                   else if q <? pos then negb (aget 0 block q =? 0) else false).
      { intros v.
        destruct (bit_pack_spec bb pos 1 v) as (Hl & Hb); [lia | lia | lia |].
        split; [now rewrite Hl |].
        intros q Hq. rewrite Hb by exact Hq.
        destruct (Z.eqb_spec q pos) as [->|Hne].
        - replace (pos + 1 - 1 - pos) with 0 by lia.
          destruct (Z.leb_spec pos pos), (Z.ltb_spec pos (pos + 1)); cbn [andb];
            try lia; reflexivity.
        - rewrite Hbits by exact Hq.
          destruct (Z.leb_spec pos q), (Z.ltb_spec q (pos + 1)), (Z.ltb_spec q pos);
            cbn [andb]; try reflexivity; lia. }
      assert (Hnext : forall q, 0 <= q ->
                 (if q =? pos then negb (aget 0 block pos =? 0)
                  else if q <? pos then negb (aget 0 block q =? 0) else false) =
                 (if q <? pos + 1 then negb (aget 0 block q =? 0) else false)).
      { intros q Hq. destruct (Z.eqb_spec q pos) as [->|Hne].
        - destruct (Z.ltb_spec pos (pos + 1)); [reflexivity | lia].
        - destruct (Z.ltb_spec q pos), (Z.ltb_spec q (pos + 1));
            try reflexivity; lia. }
      destruct (negb (aget 0 block pos =? 0)) eqn:Hflag;
        [destruct (Hstep 1) as (Hl & Hb) | destruct (Hstep 0) as (Hl & Hb)];
        (split; [exact Hl |]); intros q Hq; rewrite Hb by exact Hq;
        rewrite <- Hnext by exact Hq; reflexivity. }
  destruct H as (Hl & Hb). split; [exact Hl |].
  intros i Hi. rewrite Hb by lia.
  destruct (Z.ltb_spec i (pc * pc)); [reflexivity | lia].
Qed.

(** C7. For every resolution the packed bits of a cell have
    [ceil (pointCount * pointCount / 8)] bytes, with
    [pointCount = 3600 / resolution], and the flag at index [i] of the
    flattened grid is the bit at position [i mod 8] of byte [i div 8]. *)
Theorem packed_bits_layout (resolution : Z) (block : list Z) :
  valid_resolution resolution = true ->
  let pc := point_count resolution in
  let bits := bit_block block pc in
  pc = 3600 / resolution /\
  Z.of_nat (length bits) = (pc * pc + 7) / 8 /\
  forall i, 0 <= i < pc * pc ->
            byte_bit (aget 0 bits (i / 8)) (i mod 8) = negb (aget 0 block i =? 0).
Proof.
  intros Hr pc bits. split.
  - subst pc. unfold point_count.
    destruct (valid_resolution_cases resolution Hr) as [->|[->|[->|[->| ->]]]];
      reflexivity.
  - destruct (bit_block_spec block pc) as (Hlen & Hbits). split.
    + subst bits. rewrite Hlen. apply bit_block_size_ceil.
    + intros i Hi. apply (Hbits i Hi).
Qed.

Lemma packed_bits_layout_witness :
  valid_resolution 60 = true /\
  Z.of_nat (length (bit_block (repeat NVTrue 3600) (point_count 60))) = 450.
Proof.
  split; [reflexivity |].
  exact (proj1 (proj2 (packed_bits_layout 60 (repeat NVTrue 3600) eq_refl))).
Defined.

(** ** The worker *)

Lemma row_major_lt (pc i j i' j' : Z) :
  0 <= j < pc -> 0 <= j' < pc -> i < i' -> i * pc + j < i' * pc + j'.
Proof. intros Hj Hj' Hi. nia. Qed.

Lemma row_major_inj (pc i j i' j' : Z) :
  0 <= j < pc -> 0 <= j' < pc -> i * pc + j = i' * pc + j' -> i = i' /\ j = j'.
Proof.
  intros Hj Hj' Heq.
  destruct (Z.lt_total i i') as [H|[H|H]].
  - pose proof (row_major_lt pc i j i' j' Hj Hj' H). lia.
  - subst. lia.
  - pose proof (row_major_lt pc i' j' i j Hj' Hj H). lia.
Qed.

(** A loop that stores [v j] at [base + j]. *)
Lemma fill_row (v : Z -> Z) (base a b : Z) (blk : list Z) :
  0 <= base + a -> a <= b -> base + b <= Z.of_nat (length blk) ->
  length (for_loop a b (fun j t => aset t (base + j) (v j)) blk) = length blk /\
  forall pos,
    aget 0 (for_loop a b (fun j t => aset t (base + j) (v j)) blk) pos =
    if (base + a <=? pos) && (pos <? base + b) then v (pos - base) else aget 0 blk pos.
Proof.
  intros Ha Hab Hb.
  apply (for_loop_inv
           (fun j t =>
              length t = length blk /\
              forall pos,
                aget 0 t pos =
                if (base + a <=? pos) && (pos <? base + j)
                then v (pos - base) else aget 0 blk pos)); [exact Hab | |].
  - split; [reflexivity |]. intros pos.
    destruct (Z.leb_spec (base + a) pos), (Z.ltb_spec pos (base + a));
      cbn [andb]; try reflexivity; lia.
  - intros j t Hj (Hlen & Hget). split; [now rewrite length_aset |].
    intros pos. destruct (Z.eq_dec pos (base + j)) as [->|Hne].
    + rewrite aget_aset_same by lia.
      destruct (Z.leb_spec (base + a) (base + j)),
        (Z.ltb_spec (base + j) (base + (j + 1))); cbn [andb]; try lia.
      f_equal. lia.
    + rewrite aget_aset_other by lia. rewrite Hget.
      destruct (Z.leb_spec (base + a) pos), (Z.ltb_spec pos (base + j)),
        (Z.ltb_spec pos (base + (j + 1))); cbn [andb]; try reflexivity; lia.
Qed.

Section WorkerProperties.

Variable E : externals.

Lemma indices_succ (n : Z) : 0 <= n -> indices (n + 1) = indices n ++ [n].
Proof.
  intros Hn. unfold indices.
  replace (Z.to_nat (n + 1)) with (Z.to_nat n + 1)%nat by lia.
  rewrite seq_app, map_app. cbn. f_equal. f_equal. lia.
Qed.

(** The count of the loop over the polygons is the number of rings that
    hold the point. *)
Lemma inside_count_spec (p : polygons) (slon slat : Q) :
  inside_count E (num_poly p) (poly_count p) (poly_y p) (poly_x p) slon slat
  = Z.of_nat (length (rings_containing E p slon slat)).
Proof.
  unfold inside_count, rings_containing.
  destruct (Z_le_gt_dec 0 (num_poly p)) as [Hn|Hn].
  - apply (for_loop_inv
             (fun k count =>
                count =
                Z.of_nat (length
                  (filter (fun k => negb (inside_polygon2 E (aget [] (poly_x p) k)
                                            (aget [] (poly_y p) k)
                                            (aget 0 (poly_count p) k) slon slat =? 0))
                     (indices k))))); [exact Hn | reflexivity |].
    intros k count Hk ->. rewrite indices_succ by lia.
    rewrite filter_app, length_app. cbn [filter].
    destruct (negb _); cbn [length]; lia.
  - rewrite for_loop_empty by lia. unfold indices.
    now replace (Z.to_nat (num_poly p)) with O by lia.
Qed.

(** The flag that the worker stores for a count. *)
Lemma parity_flag (count : Z) :
  0 <= count ->
  negb (Z.rem count 2 =? 0) = Z.odd count.
Proof.
  intros H. rewrite Z.rem_mod_nonneg by lia. rewrite Zmod_odd.
  now destruct (Z.odd count).
Qed.

Lemma tile_range (r nt pass : Z) :
  valid_resolution r = true -> valid_num_threads nt = true -> 0 <= pass < nt ->
  0 <= start_y r nt pass <= end_y r nt pass /\ end_y r nt pass <= point_count r /\
  0 <= start_x r nt pass <= end_x r nt pass /\ end_x r nt pass <= point_count r.
Proof.
  intros Hr Hn Hp.
  destruct (tile_bounds r nt pass Hr Hn Hp) as (-> & -> & -> & ->).
  tile_cases Hr Hn; tile_unfold; Z.to_euclidean_division_equations; lia.
Qed.

(** The block after the run of worker [pass]: the flags of its tile are
    stored and the rest of the block is kept. *)
Lemma run_block (block complete : list Z) (r : Z) (p : polygons)
    (lat lon nt pass : Z) :
  valid_resolution r = true -> valid_num_threads nt = true -> 0 <= pass < nt ->
  Z.of_nat (length block) = point_count r * point_count r ->
  let block' := fst (run E block r (num_poly p) (poly_count p) (poly_y p)
                       (poly_x p) lat lon complete nt pass) in
  length block' = length block /\
  forall i j, 0 <= i < point_count r -> 0 <= j < point_count r ->
    aget 0 block' (i * point_count r + j) =
    if in_tile r nt pass i j
    then sample_flag E p lat lon (point_count r) i j
    else aget 0 block (i * point_count r + j).
Proof.
  intros Hr Hn Hp Hlen block'. subst block'. unfold run. cbn [fst].
  destruct (tile_range r nt pass Hr Hn Hp) as (Hy & Hey & Hx & Hex).
  set (pc := point_count r) in *.
  set (sy := start_y r nt pass) in *. set (ey := end_y r nt pass) in *.
  set (sx := start_x r nt pass) in *. set (ex := end_x r nt pass) in *.
  assert (Hbody : forall i t,
             for_loop sx ex
               (fun j blk =>
                  if negb (Z.rem (inside_count E (num_poly p) (poly_count p) (poly_y p)
                                    (poly_x p) (bin_centre lon j pc)
                                    (bin_centre lat i pc)) 2 =? 0)
                  then aset blk (i * pc + j) NVFalse
                  else aset blk (i * pc + j) NVTrue) t =
             for_loop sx ex
               (fun j blk => aset blk (i * pc + j) (sample_flag E p lat lon pc i j)) t).
  { intros i t. apply for_loop_ext. intros j blk _. unfold sample_flag.
    rewrite inside_count_spec, parity_flag by lia.
    now destruct (Z.odd _). }
  rewrite (for_loop_ext _ _ _ _ _ (fun i t _ => Hbody i t)).
  assert (Htile : forall i j, in_tile r nt pass i j =
                              (sy <=? i) && (i <? ey) && (sx <=? j) && (j <? ex))
    by reflexivity.
  apply (for_loop_inv
           (fun row t =>
              length t = length block /\
              forall i j, 0 <= i < pc -> 0 <= j < pc ->
                aget 0 t (i * pc + j) =
                if (sy <=? i) && (i <? row) && (sx <=? j) && (j <? ex)
                then sample_flag E p lat lon pc i j
                else aget 0 block (i * pc + j))); [lia | |].
  - split; [reflexivity |]. intros i j Hi Hj.
    destruct (Z.leb_spec sy i), (Z.ltb_spec i sy); cbn [andb]; try reflexivity; lia.
  - intros row t Hrow (Hl & Hget).
    destruct (fill_row (fun j => sample_flag E p lat lon pc row j) (row * pc) sx ex t)
      as (Hl' & Hget'); [nia | lia | rewrite Hl; nia |].
    split; [now rewrite Hl' |].
    intros i j Hi Hj. rewrite Hget'.
    destruct (Z.eq_dec i row) as [->|Hne].
    + replace (row * pc + j - row * pc) with j by lia. rewrite Hget by lia.
      destruct (Z.leb_spec (row * pc + sx) (row * pc + j)),
        (Z.ltb_spec (row * pc + j) (row * pc + ex)),
        (Z.leb_spec sy row), (Z.ltb_spec row row), (Z.ltb_spec row (row + 1)),
        (Z.leb_spec sx j), (Z.ltb_spec j ex); cbn [andb]; try reflexivity; lia.
    + assert (Hout : (row * pc + sx <=? i * pc + j) && (i * pc + j <? row * pc + ex)
                     = false).
      { apply andb_false_iff.
        destruct (Z.lt_total i row) as [H|[H|H]]; [| contradiction |].
        - left. apply Z.leb_gt.
          assert (pc <= (row - i) * pc) by nia. lia.
        - right. apply Z.ltb_ge.
          assert (pc <= (i - row) * pc) by nia. lia. }
      rewrite Hout, Hget by lia.
      destruct (Z.leb_spec sy i), (Z.ltb_spec i row), (Z.ltb_spec i (row + 1));
        cbn [andb]; try reflexivity; lia.
Qed.

End WorkerProperties.

Section Rasterization.

Variable E : externals.

(** When all the workers have run, every sample of the grid holds its
    flag. *)
Lemma rasterize_block (r : Z) (p : polygons) (lat lon nt : Z) :
  valid_resolution r = true -> valid_num_threads nt = true ->
  Z.of_nat (length (fst (rasterize E r p lat lon nt)))
  = point_count r * point_count r /\
  forall i j, 0 <= i < point_count r -> 0 <= j < point_count r ->
    aget 0 (fst (rasterize E r p lat lon nt)) (i * point_count r + j)
    = sample_flag E p lat lon (point_count r) i j.
Proof.
  intros Hr Hn. unfold rasterize.
  set (pc := point_count r).
  assert (Hnt : 0 <= nt) by (destruct (valid_num_threads_cases nt Hn); lia).
  assert (H : Z.of_nat (length (fst
                (for_loop 0 nt
                   (fun i st => run E (fst st) r (num_poly p) (poly_count p)
                                  (poly_y p) (poly_x p) lat lon (snd st) nt i)
                   (calloc (pc * pc), calloc nt)))) = pc * pc /\
              forall i j, 0 <= i < pc -> 0 <= j < pc -> owner r nt i j < nt ->
                aget 0 (fst
                  (for_loop 0 nt
                     (fun i st => run E (fst st) r (num_poly p) (poly_count p)
                                    (poly_y p) (poly_x p) lat lon (snd st) nt i)
                     (calloc (pc * pc), calloc nt))) (i * pc + j)
                = sample_flag E p lat lon pc i j).
  { apply (for_loop_inv
             (fun q (st : list Z * list Z) =>
                Z.of_nat (length (fst st)) = pc * pc /\
                forall i j, 0 <= i < pc -> 0 <= j < pc -> owner r nt i j < q ->
                  aget 0 (fst st) (i * pc + j) = sample_flag E p lat lon pc i j));
      [exact Hnt | |].
    - cbn [fst]. split; [rewrite length_calloc; nia |].
      intros i j Hi Hj Ho.
      pose proof (owner_range r nt i j Hr Hn Hi Hj). lia.
    - intros q st Hq (Hlen & Hdone).
      destruct (run_block E (fst st) (snd st) r p lat lon nt q Hr Hn Hq Hlen)
        as (Hl & Hget).
      split; [fold pc in Hl; rewrite Hl; exact Hlen |].
      intros i j Hi Hj Ho. fold pc in Hget. rewrite Hget by assumption.
      destruct (in_tile r nt q i j) eqn:Hin; [reflexivity |].
      apply Hdone; try assumption.
      assert (owner r nt i j <> q); [| lia].
      intros <-. rewrite owner_in_tile in Hin by assumption. discriminate. }
  destruct H as (Hlen & Hall). split; [exact Hlen |].
  intros i j Hi Hj. apply Hall; try assumption.
  apply (owner_range r nt i j Hr Hn Hi Hj).
Qed.

End Rasterization.

(** C1. For every sample of a cell with boundary data the worker counts
    the rings that hold the centre of the bin, each ring being tested on
    its own by the polygon test, and the flag that the cell's block holds
    for the sample is water ([NVFalse]) for an odd count and land
    ([NVTrue]) for an even count, zero included. *)
Theorem flag_by_parity_of_containment (E : externals) (resolution num_threads : Z)
    (p : polygons) (lat lon i j : Z) :
  valid_resolution resolution = true ->
  valid_num_threads num_threads = true ->
  0 <= i < point_count resolution ->
  0 <= j < point_count resolution ->
  let pc := point_count resolution in
  let slat := bin_centre lat i pc in
  let slon := bin_centre lon j pc in
  let count := Z.of_nat (length (rings_containing E p slon slat)) in
  inside_count E (num_poly p) (poly_count p) (poly_y p) (poly_x p) slon slat = count /\
  aget 0 (fst (rasterize E resolution p lat lon num_threads)) (i * pc + j)
  = (if Z.odd count then NVFalse else NVTrue).
Proof.
  intros Hr Hn Hi Hj pc slat slon count. split.
  - apply inside_count_spec.
  - destruct (rasterize_block E resolution p lat lon num_threads Hr Hn) as (_ & Hall).
    apply (Hall i j Hi Hj).
Qed.

Lemma flag_by_parity_of_containment_witness :
  valid_resolution 60 = true /\ valid_num_threads 4 = true /\
  0 <= 5 < point_count 60 /\ 0 <= 7 < point_count 60 /\
  aget 0 (fst (rasterize sample_externals 60 square_polygons 10 10 4)) (5 * 60 + 7)
  = NVFalse.
Proof.
  assert (Hi : 0 <= 5 < point_count 60) by (change (point_count 60) with 60; lia).
  assert (Hj : 0 <= 7 < point_count 60) by (change (point_count 60) with 60; lia).
  split; [reflexivity |]. split; [reflexivity |].
  split; [exact Hi |]. split; [exact Hj |].
  exact (proj2 (flag_by_parity_of_containment sample_externals 60 4 square_polygons
                  10 10 5 7 eq_refl eq_refl Hi Hj)).
Defined.

(** ** The arguments *)

(** C9. With the resolution as the only argument the number of threads
    keeps its default, 4, which passes the check of [main]: the program
    does not leave with the usage message of the number of threads, and
    with a valid resolution and its environment in place it goes on with
    four threads. *)
Theorem default_num_threads (E : externals) (argv : list string) :
  argc_of argv = 2 ->
  arg_num_threads argv = 4 /\
  valid_num_threads (arg_num_threads argv) = true /\
  (getenv_ABE_DATA E <> None -> check_srtm_mask E 3 = 0 ->
   valid_resolution (arg_resolution argv) = true ->
   configure E argv = inr (arg_resolution argv, 4)).
Proof.
  intros Hargc.
  assert (Hnt : arg_num_threads argv = 4).
  { unfold arg_num_threads. now rewrite Hargc. }
  split; [exact Hnt |]. split; [now rewrite Hnt |].
  intros Henv Hsrtm Hres. unfold configure.
  rewrite Hargc, Hnt, Hres, Hsrtm. cbn.
  destruct (getenv_ABE_DATA E); [reflexivity | contradiction].
Qed.

Lemma default_num_threads_witness :
  argc_of sample_argv = 2 /\ configure sample_externals sample_argv = inr (60, 4).
Proof.
  split; [reflexivity |].
  apply (default_num_threads sample_externals sample_argv eq_refl);
    [discriminate | reflexivity | reflexivity].
Defined.

(** ** The output file *)

Lemma length_file_read (f : FILE) (off n : Z) :
  length (file_read f off n) = Z.to_nat n.
Proof. unfold file_read. now rewrite length_map, length_seq. Qed.


Lemma file_read_ext (f g : FILE) (off n : Z) :
  (forall k, off <= k < off + n -> fdata f k = fdata g k) ->
  file_read f off n = file_read g off n.
Proof.
  intros H. unfold file_read. apply map_ext_in. intros k Hk.
  apply in_seq in Hk. apply H. lia.
Qed.

Lemma fsize_file_write (f : FILE) (buf : list Z) (n : Z) :
  fsize (file_write f buf n) = if n <=? 0 then fsize f else Z.max (fsize f) (fpos f + n).
Proof. unfold file_write. now destruct (n <=? 0). Qed.

Lemma fdata_file_write (f : FILE) (buf : list Z) (n k : Z) :
  fdata (file_write f buf n) k =
  if (fpos f <=? k) && (k <? fpos f + n) then aget 0 buf (k - fpos f) else fdata f k.
Proof.
  unfold file_write. destruct (Z.leb_spec n 0); [|reflexivity].
  destruct (Z.leb_spec (fpos f) k), (Z.ltb_spec k (fpos f + n)); cbn [andb];
    try reflexivity; lia.
Qed.

Lemma file_seek_set (f : FILE) (offset : Z) :
  0 <= offset ->
  file_seek f offset SEEK_SET
  = (0, {| fdata := fdata f; fsize := fsize f; fpos := offset |}).
Proof.
  intros H. unfold file_seek. destruct (Z.ltb_spec offset 0); [lia | reflexivity].
Qed.

(** The bytes that a write leaves where it wrote. *)
Lemma file_read_written (f : FILE) (buf : list Z) (n : Z) :
  file_read (file_write f buf n) (fpos f) n = stored_bytes buf n.
Proof.
  unfold file_read, stored_bytes. apply map_ext_in. intros k Hk.
  apply in_seq in Hk. rewrite fdata_file_write.
  destruct (Z.leb_spec (fpos f) (fpos f + Z.of_nat k)),
    (Z.ltb_spec (fpos f + Z.of_nat k) (fpos f + n)); cbn [andb]; try lia.
  f_equal. lia.
Qed.

Lemma stored_bytes_all (buf : list Z) (n : Z) :
  Z.of_nat (length buf) = n -> stored_bytes buf n = buf.
Proof.
  intros Hlen. apply nth_ext with (d := 0) (d' := 0).
  - unfold stored_bytes. rewrite length_map, length_seq. lia.
  - unfold stored_bytes. rewrite length_map, length_seq. intros k Hk.
    rewrite nth_indep with (d' := (fun i => aget 0 buf (Z.of_nat i)) O)
      by (rewrite length_map, length_seq; lia).
    rewrite map_nth with (f := fun i => aget 0 buf (Z.of_nat i)).
    rewrite seq_nth by lia. unfold aget.
    destruct (Z.ltb_spec (Z.of_nat (0 + k)) 0); [lia |].
    now rewrite Nat2Z.id.
Qed.

(** The bytes that a write leaves elsewhere. *)
Lemma file_read_kept (f : FILE) (buf : list Z) (n off m : Z) :
  off + m <= fpos f \/ fpos f + n <= off ->
  file_read (file_write f buf n) off m = file_read f off m.
Proof.
  intros H. apply file_read_ext. intros k Hk. rewrite fdata_file_write.
  destruct (Z.leb_spec (fpos f) k), (Z.ltb_spec k (fpos f + n)); cbn [andb];
    try reflexivity; lia.
Qed.

(** ** The steps of the cell loop *)

Lemma map_address_nonneg (lat lon : Z) : 0 <= map_address lat lon.
Proof. unfold map_address, to_uint32. apply Z.mod_pos_bound. reflexivity. Qed.

Lemma map_address_in_map (lat lon : Z) :
  -90 <= lat < 90 -> -180 <= lon < 180 ->
  map_address lat lon = 16384 + ((lat + 90) * 360 + (lon + 180)) * 7 /\
  SWBD_MASK_HEADER_SIZE <= map_address lat lon /\
  map_address lat lon + 7 <= MAP_END.
Proof.
  intros Hlat Hlon. unfold map_address, to_uint32, MAP_END, SWBD_MASK_HEADER_SIZE.
  rewrite Z.mod_small by (change (2 ^ 32) with 4294967296; lia). lia.
Qed.

Lemma map_address_inj (lat lon lat' lon' : Z) :
  -90 <= lat < 90 -> -180 <= lon < 180 ->
  -90 <= lat' < 90 -> -180 <= lon' < 180 ->
  (lat, lon) <> (lat', lon') ->
  map_address lat lon + 7 <= map_address lat' lon' \/
  map_address lat' lon' + 7 <= map_address lat lon.
Proof.
  intros H1 H2 H3 H4 Hne.
  destruct (map_address_in_map lat lon H1 H2) as (-> & _).
  destruct (map_address_in_map lat' lon' H3 H4) as (-> & _).
  assert (lat <> lat' \/ lon <> lon') as [H|H]
      by (destruct (Z.eq_dec lat lat'), (Z.eq_dec lon lon'); subst;
          try (now left); try (now right); contradiction).
  - lia.
  - lia.
Qed.

Section CellSteps.

Variable E : externals.

Lemma fseek_set (offset : Z) (w : world) :
  0 <= offset ->
  fseek offset SEEK_SET w
  = Normal 0 {| ofp := at_position (ofp w) offset; mapbuf := mapbuf w; log := log w |}.
Proof.
  intros H. unfold fseek. now rewrite file_seek_set.
Qed.

(** The cell without a shape file, outside the band of the reference
    mask. *)
Lemma cell_without_file_undefined (lat lon : Z) (w : world) :
  (lat <? -57) || (lat >? 59) = true ->
  cell_without_file E lat lon w
  = Normal tt (after_cell_without_file w lat lon (repeat 0 7%nat) []).
Proof.
  intros Hband. unfold cell_without_file. rewrite Hband.
  unfold bind, memset_mapbuf, set_mapbuf, fwrite_mapbuf, bind, get_mapbuf, fwrite.
  rewrite fseek_set by apply map_address_nonneg. reflexivity.
Qed.

(** The cell without a shape file, inside the band. *)
Lemma cell_without_file_sampled (lat lon : Z) (w : world) :
  (lat <? -57) || (lat >? 59) = false ->
  let slat := (inject_Z lat + (1 # 2))%Q in
  let slon := (inject_Z lon + (1 # 2))%Q in
  let lnd := read_srtm_mask_min_res E slat slon 3 in
  cell_without_file E lat lon w
  = Normal tt (after_cell_without_file w lat lon
                 (bit_pack (repeat 0 7%nat) 0 32 (if lnd =? 0 then 2 else 1))
                 [EvSrtm slat slon 3]).
Proof.
  intros Hband slat slon lnd. unfold cell_without_file. rewrite Hband.
  unfold read_srtm, bind, emit, ret. fold slat slon lnd.
  destruct (lnd =? 0);
    unfold pack_mapbuf, memset_mapbuf, set_mapbuf, fwrite_mapbuf, bind,
      get_mapbuf, fwrite;
    rewrite fseek_set by apply map_address_nonneg; reflexivity.
Qed.

Lemma mask_loop (r : Z) (p : polygons) (lat lon nt : Z) (n : nat) (a : Z)
    (st : list Z * list Z) (w : world) :
  for_upM n a (mask E r p lat lon nt) st w
  = Normal (for_up n a
              (fun i st => run E (fst st) r (num_poly p) (poly_count p) (poly_y p)
                             (poly_x p) lat lon (snd st) nt i) st)
      {| ofp := ofp w; mapbuf := mapbuf w; log := rev (mask_events a n) ++ log w |}.
Proof.
  revert a st w. induction n as [|n IH]; intros a st w.
  - cbn. now destruct w.
  - cbn [for_upM for_up]. unfold bind at 1. unfold mask at 1.
    unfold bind, emit, ret. rewrite IH. cbn [ofp mapbuf log]. f_equal. f_equal.
    unfold mask_events. cbn [seq map rev]. rewrite <- seq_shift, map_map.
    rewrite <- app_assoc. cbn [app]. rewrite Z.add_0_r. f_equal. f_equal.
    apply map_ext. intros k. f_equal. lia.
Qed.

(** The cell with a shape file that is opened, loaded and compressed. *)
Lemma cell_with_file_stored (r nt lat lon ext : Z) (w : world)
    (shapes : list SHPObject) (p : polygons) (out_size : Z) (out_buf : list Z) :
  SHPOpen E lat lon ext = Some shapes ->
  load_polygons shapes = Some p ->
  cell_compress E r nt lat lon p = (0, out_size, out_buf) ->
  cell_with_file E r nt lat lon ext w
  = Normal tt (after_cell_with_file w r nt lat lon ext out_size out_buf).
Proof.
  intros Hopen Hload Hcomp. unfold cell_with_file, shp_open.
  unfold bind at 1. unfold bind at 1. unfold emit at 1. rewrite Hopen.
  unfold ret at 1. rewrite Hload.
  unfold bind at 1. unfold for_loopM. rewrite mask_loop.
  change (for_up (Z.to_nat (nt - 0)) 0
            (fun i st => run E (fst st) r (num_poly p) (poly_count p) (poly_y p)
                           (poly_x p) lat lon (snd st) nt i)
            (calloc (point_count r * point_count r), calloc nt))
    with (rasterize E r p lat lon nt).
  unfold bind at 1. unfold call_compress2, bind, emit, ret.
  unfold cell_compress, cell_bits in Hcomp. rewrite Hcomp. cbn [negb Z.eqb].
  unfold fseek at 1. cbn [ofp mapbuf log].
  unfold after_cell_with_file.
  destruct (file_seek (ofp w) 0 SEEK_END) as [status0 f0]. cbn [snd].
  unfold ftell. cbn [ofp fpos].
  unfold pack_mapbuf, bind, get_mapbuf, set_mapbuf. cbn [ofp mapbuf log].
  rewrite fseek_set by apply map_address_nonneg. cbn [ofp mapbuf log].
  unfold fwrite_mapbuf, bind, get_mapbuf, fwrite. cbn [ofp mapbuf log].
  unfold fseek. cbn [ofp mapbuf log].
  unfold block_record, at_position. cbn [fdata fsize fpos].
  rewrite Z.sub_0_r.
  destruct (file_seek _ (to_int32 (fpos f0)) SEEK_SET) as [status f2].
  reflexivity.
Qed.

End CellSteps.

Section Compression.

Variable E : externals.

Lemma cell_with_file_not_opened (r nt lat lon ext : Z) (w : world) :
  SHPOpen E lat lon ext = None ->
  exists w', cell_with_file E r nt lat lon ext w
             = Exited (DiagPerrorShp lat lon ext) w'.
Proof.
  intros Hopen. unfold cell_with_file, shp_open, bind, emit, exit.
  rewrite Hopen. eexists. reflexivity.
Qed.

Lemma cell_with_file_not_loaded (r nt lat lon ext : Z) (w : world)
    (shapes : list SHPObject) :
  SHPOpen E lat lon ext = Some shapes ->
  load_polygons shapes = None ->
  exists w', cell_with_file E r nt lat lon ext w = Exited DiagSegv w'.
Proof.
  intros Hopen Hload. unfold cell_with_file, shp_open, bind, emit, exit, ret.
  rewrite Hopen, Hload. eexists. reflexivity.
Qed.

(** A status of [compress2] other than [Z_OK] ends the program. *)
Lemma cell_with_file_not_compressed (r nt lat lon ext : Z) (w : world)
    (shapes : list SHPObject) (p : polygons) :
  SHPOpen E lat lon ext = Some shapes ->
  load_polygons shapes = Some p ->
  fst (fst (cell_compress E r nt lat lon p)) <> 0 ->
  exists w', cell_with_file E r nt lat lon ext w
             = Exited (DiagCompress (fst (fst (cell_compress E r nt lat lon p)))) w'.
Proof.
  intros Hopen Hload Hn. unfold cell_with_file, shp_open.
  unfold bind at 1. unfold bind at 1. unfold emit at 1. rewrite Hopen.
  unfold ret at 1. rewrite Hload.
  unfold bind at 1. unfold for_loopM. rewrite mask_loop.
  change (for_up (Z.to_nat (nt - 0)) 0
            (fun i st => run E (fst st) r (num_poly p) (poly_count p) (poly_y p)
                           (poly_x p) lat lon (snd st) nt i)
            (calloc (point_count r * point_count r), calloc nt))
    with (rasterize E r p lat lon nt).
  unfold bind at 1. unfold call_compress2, bind, emit, ret.
  unfold cell_compress, cell_bits in *.
  destruct (compress2 E _ _ _ _) as [[n out_size] out_buf]. cbn [fst] in Hn |- *.
  destruct (Z.eqb_spec n 0); [contradiction |]. cbn [negb]. unfold exit.
  eexists. reflexivity.
Qed.

(** The ways of the cell with a shape file. *)
Lemma cell_with_file_cases (r nt lat lon ext : Z) (w : world) :
  match SHPOpen E lat lon ext with
  | None => exists w', cell_with_file E r nt lat lon ext w
                       = Exited (DiagPerrorShp lat lon ext) w'
  | Some shapes =>
      match load_polygons shapes with
      | None => exists w', cell_with_file E r nt lat lon ext w = Exited DiagSegv w'
      | Some p =>
          let c := cell_compress E r nt lat lon p in
          if fst (fst c) =? 0
          then cell_with_file E r nt lat lon ext w
               = Normal tt (after_cell_with_file w r nt lat lon ext (snd (fst c)) (snd c))
          else exists w', cell_with_file E r nt lat lon ext w
                          = Exited (DiagCompress (fst (fst c))) w'
      end
  end.
Proof.
  destruct (SHPOpen E lat lon ext) as [shapes|] eqn:Hopen;
    [| now apply cell_with_file_not_opened].
  destruct (load_polygons shapes) as [p|] eqn:Hload;
    [| now apply cell_with_file_not_loaded with (shapes := shapes)].
  cbv zeta. destruct (Z.eqb_spec (fst (fst (cell_compress E r nt lat lon p))) 0)
    as [Hz|Hnz].
  - apply cell_with_file_stored with (shapes := shapes) (p := p); try assumption.
    destruct (cell_compress E r nt lat lon p) as [[n sz] buf].
    cbn [fst snd] in *. now subst.
  - now apply cell_with_file_not_compressed with (shapes := shapes).
Qed.

Lemma out_capacity_fits (r : Z) :
  valid_resolution r = true ->
  out_capacity (bit_block_size (point_count r)) <= MAX_BLOCK_SIZE.
Proof.
  intros Hr.
  destruct (valid_resolution_cases r Hr) as [->|[->|[->|[->| ->]]]];
    vm_compute; discriminate.
Qed.

(** The size field of the record of a block. *)
Lemma block_record_size (buf : list Z) (eof out_size : Z) :
  length buf = 7%nat ->
  record_size (block_record buf eof out_size) = out_size mod 2 ^ 24.
Proof.
  intros Hlen. unfold record_size, block_record.
  destruct (bit_pack_spec buf 0 32 (to_int32 eof)) as (Hl & _);
    [lia | lia | rewrite Hlen; lia |].
  apply bit_unpack_pack; rewrite ?Hl, ?Hlen; lia.
Qed.

(** The code field of the record of a block. *)
Lemma block_record_code (buf : list Z) (eof out_size : Z) :
  length buf = 7%nat ->
  record_code (block_record buf eof out_size) = to_int32 eof mod 2 ^ 32.
Proof.
  intros Hlen. unfold record_code, block_record.
  destruct (bit_pack_spec buf 0 32 (to_int32 eof)) as (Hl & _);
    [lia | lia | rewrite Hlen; lia |].
  rewrite bit_unpack_pack_other by (rewrite ?Hl, ?Hlen; lia).
  apply bit_unpack_pack; rewrite ?Hlen; lia.
Qed.

Lemma length_block_record (buf : list Z) (eof out_size : Z) :
  length buf = 7%nat -> length (block_record buf eof out_size) = 7%nat.
Proof.
  intros Hlen. unfold block_record.
  destruct (bit_pack_spec buf 0 32 (to_int32 eof)) as (Hl & _);
    [lia | lia | rewrite Hlen; lia |].
  destruct (bit_pack_spec (bit_pack buf 0 32 (to_int32 eof)) 32 24 out_size)
    as (Hl' & _); [lia | lia | rewrite Hl, Hlen; lia |].
  now rewrite Hl', Hl.
Qed.

End Compression.

Lemma cell_compress_ok (E : externals) (r nt lat lon : Z) (p : polygons) :
  fst (fst (cell_compress E r nt lat lon p)) = 0 ->
  cell_compress E r nt lat lon p
  = (0, snd (fst (cell_compress E r nt lat lon p)), snd (cell_compress E r nt lat lon p)).
Proof.
  destruct (cell_compress E r nt lat lon p) as [[n sz] buf]. cbn [fst snd].
  now intros ->.
Qed.

Lemma cell_compress_size (E : externals) (r nt lat lon : Z) (p : polygons) :
  zlib_contract E -> valid_resolution r = true ->
  fst (fst (cell_compress E r nt lat lon p)) = 0 ->
  0 < snd (fst (cell_compress E r nt lat lon p)) <= MAX_BLOCK_SIZE.
Proof.
  intros Hzlib Hr Hn. pose proof (out_capacity_fits r Hr) as Hcap.
  pose proof (cell_compress_ok E r nt lat lon p Hn) as Hc.
  unfold cell_compress at 1 in Hc.
  pose proof (Hzlib _ _ _ _ _ _ _ Hc eq_refl). lia.
Qed.


Lemma sample_externals_contract : zlib_contract sample_externals.
Proof.
  intros capacity source sourceLen level n out_size out_buf H Hn.
  cbn [compress2 sample_externals] in H. unfold stored_compress2 in H.
  destruct (Z.leb_spec 0 sourceLen), (Z.leb_spec (sourceLen + 1) capacity);
    cbn [andb] in H; injection H as <- <- <-; first [lia | discriminate].
Qed.

Lemma square_polygons_loaded : load_polygons [square_ring] = Some square_polygons.
Proof. vm_compute. reflexivity. Qed.



(** ** The file after a cell *)

Lemma writes_cons (e : event) (l : list event) :
  writes (e :: l) = writes l ++ match e with
                                | EvFwrite b position n => [(b, position, n)]
                                | _ => []
                                end.
Proof.
  unfold writes. cbn [rev]. rewrite flat_map_app. cbn [flat_map].
  now rewrite app_nil_r.
Qed.

Lemma writes_app (l1 l2 : list event) : writes (l1 ++ l2) = writes l2 ++ writes l1.
Proof.
  unfold writes. now rewrite rev_app_distr, flat_map_app.
Qed.

Lemma writes_mask_events (a : Z) (n : nat) : writes (rev (mask_events a n)) = [].
Proof.
  unfold writes, mask_events. rewrite rev_involutive.
  induction (seq 0 n) as [|k l IH]; [reflexivity | exact IH].
Qed.

Lemma seek_end (f : FILE) :
  0 <= fsize f -> snd (file_seek f 0 SEEK_END) = at_position f (fsize f).
Proof.
  intros H. unfold file_seek. rewrite Z.add_0_r.
  destruct (Z.ltb_spec (fsize f) 0); [lia | reflexivity].
Qed.

Lemma to_int32_small (v : Z) : 0 <= v <= INT32_MAX -> to_int32 v = v.
Proof.
  unfold INT32_MAX, to_int32. intros H.
  change (2 ^ 31) with 2147483648. change (2 ^ 32) with 4294967296.
  rewrite Z.mod_small by lia. lia.
Qed.

Lemma map_address_before (lat lon la lo : Z) :
  -90 <= lat < 90 -> -180 <= lon < 180 ->
  -90 <= la < 90 -> -180 <= lo < 180 ->
  before lat lon la lo -> map_address la lo + 7 <= map_address lat lon.
Proof.
  intros H1 H2 H3 H4 Hb.
  destruct (map_address_in_map lat lon H1 H2) as (-> & _).
  destruct (map_address_in_map la lo H3 H4) as (-> & _).
  unfold before in Hb. lia.
Qed.

Lemma to_int32_code (v : Z) : 0 <= v < 2 ^ 32 -> to_int32 v mod 2 ^ 32 = v.
Proof.
  unfold to_int32. change (2 ^ 31) with 2147483648.
  change (2 ^ 32) with 4294967296. intros H.
  Z.to_euclidean_division_equations; lia.
Qed.

Section AfterCell.

Variables (lat lon : Z).
Hypothesis Hlat : -90 <= lat < 90.
Hypothesis Hlon : -180 <= lon < 180.

(** The file after the record of a cell without a shape file is
    written: the record is in its place, and the other records, the
    blocks and the size of the file are as they were. *)
Lemma after_cell_without_file_file (w : world) (record : list Z) (calls : list event) :
  length record = 7%nat ->
  MAP_END <= fsize (ofp w) ->
  let f' := ofp (after_cell_without_file w lat lon record calls) in
  fsize f' = fsize (ofp w) /\
  record_at f' lat lon = record /\
  (forall off m, off + m <= map_address lat lon \/ map_address lat lon + 7 <= off ->
                 file_read f' off m = file_read (ofp w) off m).
Proof.
  intros Hrec Hsize f'. subst f'. unfold after_cell_without_file. cbn [ofp].
  change (7 * 1) with 7.
  destruct (map_address_in_map lat lon Hlat Hlon) as (_ & Hlo & Hhi).
  split; [| split].
  - rewrite fsize_file_write. cbn [Z.leb Z.compare at_position fsize fpos]. lia.
  - unfold record_at.
    replace (map_address lat lon)
      with (fpos (at_position (ofp w) (map_address lat lon))) at 2 by reflexivity.
    rewrite file_read_written. apply stored_bytes_all. rewrite Hrec. reflexivity.
  - intros off m Hoff. rewrite file_read_kept by (cbn [at_position fpos]; lia).
    reflexivity.
Qed.

(** The file after the record and the block of a cell with a shape file
    are written, when the file did not exceed what [int32_t] holds. *)
Lemma after_cell_with_file_file (w : world) (r nt ext out_size : Z) (out_buf : list Z) :
  length (mapbuf w) = 7%nat ->
  MAP_END <= fsize (ofp w) <= INT32_MAX ->
  0 < out_size ->
  let w' := after_cell_with_file w r nt lat lon ext out_size out_buf in
  let eof := fsize (ofp w) in
  fsize (ofp w') = eof + out_size /\
  mapbuf w' = block_record (mapbuf w) eof out_size /\
  record_at (ofp w') lat lon = block_record (mapbuf w) eof out_size /\
  file_read (ofp w') eof out_size = stored_bytes out_buf out_size /\
  writes (log w') = writes (log w) ++ [(Mapbuf, map_address lat lon, 7);
                                       (OutBuf, eof, out_size)] /\
  (forall off m, (off + m <= map_address lat lon \/ map_address lat lon + 7 <= off) ->
                 off + m <= eof ->
                 file_read (ofp w') off m = file_read (ofp w) off m).
Proof.
  intros Hbuf Hsize Hout w' eof. subst w'. unfold after_cell_with_file.
  assert (HME : MAP_END = 469984) by reflexivity.
  rewrite seek_end by lia. unfold at_position. cbn [fpos fdata fsize]. fold eof.
  change (7 * 1) with 7. rewrite Z.mul_1_r.
  rewrite to_int32_small by (subst eof; lia).
  rewrite file_seek_set by (subst eof; lia). cbn [snd ofp mapbuf log fpos].
  destruct (map_address_in_map lat lon Hlat Hlon) as (_ & Hlo & Hhi).
  set (record := block_record (mapbuf w) eof out_size).
  assert (Hrec : length record = 7%nat) by now apply length_block_record.
  set (f0 := {| fdata := fdata (ofp w); fsize := eof; fpos := map_address lat lon |}).
  set (f1 := file_write f0 record 7).
  assert (Hf1 : fsize f1 = eof).
  { subst f1. rewrite fsize_file_write. cbn [Z.leb Z.compare].
    change (fsize f0) with eof. change (fpos f0) with (map_address lat lon). lia. }
  set (f2 := {| fdata := fdata f1; fsize := fsize f1; fpos := eof |}).
  split; [| split; [| split; [| split; [| split]]]].
  - rewrite fsize_file_write.
    change (fsize f2) with (fsize f1). change (fpos f2) with eof.
    destruct (Z.leb_spec out_size 0); lia.
  - reflexivity.
  - unfold record_at.
    rewrite file_read_kept by (change (fpos f2) with eof; lia).
    assert (Hread : file_read f2 (map_address lat lon) 7
                    = file_read f1 (map_address lat lon) 7)
      by (apply file_read_ext; reflexivity).
    rewrite Hread. subst f1.
    replace (map_address lat lon) with (fpos f0) at 1 by reflexivity.
    rewrite file_read_written. apply stored_bytes_all. now rewrite Hrec.
  - replace eof with (fpos f2) at 1 by reflexivity. apply file_read_written.
  - rewrite !writes_cons, writes_app, writes_cons, writes_mask_events.
    cbn [app]. rewrite !app_nil_r, <- !app_assoc. reflexivity.
  - intros off m Hoff Hend.
    rewrite file_read_kept by (change (fpos f2) with eof; lia).
    assert (Hread : file_read f2 off m = file_read f1 off m)
      by (apply file_read_ext; reflexivity).
    rewrite Hread. subst f1.
    rewrite file_read_kept by (change (fpos f0) with (map_address lat lon); lia).
    apply file_read_ext. reflexivity.
Qed.

Lemma to_int32_large (v : Z) : INT32_MAX < v < 2 ^ 32 -> to_int32 v = v - 2 ^ 32.
Proof.
  unfold INT32_MAX, to_int32. change (2 ^ 31) with 2147483648.
  change (2 ^ 32) with 4294967296. intros H.
  Z.to_euclidean_division_equations; lia.
Qed.

(** The file after the record and the block of a cell with a shape file
    are written, when the end of the file is beyond what [int32_t] holds:
    the address of the block is negative, the seek to it is refused, and
    the block goes where the stream is, after the record of the cell. *)
Lemma after_cell_with_file_beyond (w : world) (r nt ext out_size : Z)
    (out_buf : list Z) :
  length (mapbuf w) = 7%nat ->
  INT32_MAX < fsize (ofp w) < 2 ^ 32 ->
  0 < out_size ->
  map_address lat lon + 7 + out_size <= fsize (ofp w) ->
  let w' := after_cell_with_file w r nt lat lon ext out_size out_buf in
  let eof := fsize (ofp w) in
  fsize (ofp w') = eof /\
  mapbuf w' = block_record (mapbuf w) eof out_size /\
  record_at (ofp w') lat lon = block_record (mapbuf w) eof out_size /\
  writes (log w') = writes (log w) ++ [(Mapbuf, map_address lat lon, 7);
                                       (OutBuf, map_address lat lon + 7, out_size)] /\
  (forall off m, off + m <= map_address lat lon ->
                 file_read (ofp w') off m = file_read (ofp w) off m).
Proof.
  intros Hbuf Hsize Hout Hroom w' eof. subst w'. unfold after_cell_with_file.
  assert (HMAX : INT32_MAX = 2147483647) by reflexivity.
  rewrite seek_end by lia. unfold at_position. cbn [fpos fdata fsize]. fold eof.
  change (7 * 1) with 7. rewrite Z.mul_1_r.
  rewrite to_int32_large by (subst eof; lia).
  destruct (map_address_in_map lat lon Hlat Hlon) as (_ & Hlo & Hhi).
  set (record := block_record (mapbuf w) eof out_size).
  assert (Hrec : length record = 7%nat) by now apply length_block_record.
  set (f0 := {| fdata := fdata (ofp w); fsize := eof; fpos := map_address lat lon |}).
  set (f1 := file_write f0 record 7).
  assert (Hf1 : fsize f1 = eof /\ fpos f1 = map_address lat lon + 7).
  { subst f1. unfold file_write. cbn [Z.leb Z.compare fsize fpos f0].
    change (fsize f0) with eof. change (fpos f0) with (map_address lat lon).
    unfold SWBD_MASK_HEADER_SIZE in Hlo. lia. }
  destruct Hf1 as (Hf1s & Hf1p).
  assert (Hseek : file_seek f1 (eof - 2 ^ 32) SEEK_SET = (-1, f1)).
  { unfold file_seek. destruct (Z.ltb_spec (eof - 2 ^ 32) 0); [reflexivity |].
    subst eof. lia. }
  rewrite Hseek. cbn [snd ofp mapbuf log]. rewrite Hf1p.
  split; [| split; [| split; [| split]]].
  - rewrite fsize_file_write, Hf1s, Hf1p.
    destruct (Z.leb_spec out_size 0); subst eof; lia.
  - reflexivity.
  - unfold record_at.
    rewrite file_read_kept by (rewrite Hf1p; lia).
    subst f1. replace (map_address lat lon) with (fpos f0) at 1 by reflexivity.
    rewrite file_read_written. apply stored_bytes_all. now rewrite Hrec.
  - rewrite !writes_cons, writes_app, writes_cons, writes_mask_events.
    cbn [app]. rewrite !app_nil_r, <- !app_assoc. reflexivity.
  - intros off m Hoff.
    rewrite file_read_kept by (rewrite Hf1p; lia).
    subst f1. rewrite file_read_kept by (change (fpos f0) with (map_address lat lon); lia).
    apply file_read_ext. reflexivity.
Qed.

End AfterCell.

(** ** Cells without boundary data *)

Lemma record_at_written (w : world) (lat lon : Z) (record : list Z) (calls : list event) :
  length record = 7%nat ->
  record_at (ofp (after_cell_without_file w lat lon record calls)) lat lon = record.
Proof.
  intros Hrec. unfold after_cell_without_file, record_at. cbn [ofp].
  change (7 * 1) with 7.
  replace (map_address lat lon)
    with (fpos (at_position (ofp w) (map_address lat lon))) at 2 by reflexivity.
  rewrite file_read_written. apply stored_bytes_all. now rewrite Hrec.
Qed.

Lemma length_sentinel_record (code : Z) :
  length (bit_pack (repeat 0 7%nat) 0 32 code) = 7%nat.
Proof.
  destruct (bit_pack_spec (repeat 0 7%nat) 0 32 code) as (Hl & _);
    [lia | lia | cbn; lia | exact Hl].
Qed.

Lemma sentinel_record_code (code : Z) :
  0 <= code < 2 ^ 32 ->
  record_code (bit_pack (repeat 0 7%nat) 0 32 code) = code.
Proof.
  intros H. unfold record_code.
  rewrite bit_unpack_pack by (cbn [length repeat]; lia).
  now apply Z.mod_small.
Qed.

Lemma sentinel_record_size (code : Z) :
  record_size (bit_pack (repeat 0 7%nat) 0 32 code) = 0.
Proof.
  unfold record_size.
  rewrite bit_unpack_pack_other by (cbn [length repeat]; lia).
  reflexivity.
Qed.

(** C2. A cell without boundary data: when its latitude is below -57 or
    above 59 its record is written with the code 0 and the size 0, and the
    reference mask is not read; otherwise the reference mask is read once,
    at (latitude + 0.5, longitude + 0.5), and the record is written with
    the code 1 when the sample is land and 2 when it is water (the sample
    0), and the size 0. In both cases the write of the record is the only
    other call: no thread is started and nothing is compressed. *)
Theorem cell_without_boundary_data (E : externals) (resolution num_threads lat lon : Z)
    (w : world) :
  fst (find_shp E lat lon) = false ->
  let slat := (inject_Z lat + (1 # 2))%Q in
  let slon := (inject_Z lon + (1 # 2))%Q in
  let sample := read_srtm_mask_min_res E slat slon 3 in
  exists w',
    cell E resolution num_threads lat lon w = Normal tt w' /\
    record_size (record_at (ofp w') lat lon) = 0 /\
    (if (lat <? -57) || (lat >? 59)
     then record_code (record_at (ofp w') lat lon) = 0 /\
          log w' = EvFwrite Mapbuf (map_address lat lon) 7 :: log w
     else record_code (record_at (ofp w') lat lon) = (if sample =? 0 then 2 else 1) /\
          log w' = EvFwrite Mapbuf (map_address lat lon) 7
                   :: EvSrtm slat slon 3 :: log w).
Proof.
  intros Hfile slat slon sample. unfold cell.
  destruct (find_shp E lat lon) as [file_check file_ext]. cbn [fst] in Hfile.
  subst file_check. cbn [negb].
  destruct ((lat <? -57) || (lat >? 59)) eqn:Hband.
  - rewrite cell_without_file_undefined by exact Hband.
    eexists. split; [reflexivity |].
    rewrite record_at_written by reflexivity.
    split; [reflexivity |]. split; reflexivity.
  - rewrite cell_without_file_sampled by exact Hband.
    fold slat slon sample.
    eexists. split; [reflexivity |].
    rewrite record_at_written by apply length_sentinel_record.
    split; [apply sentinel_record_size |]. split; [| reflexivity].
    apply sentinel_record_code. destruct (sample =? 0); cbn; lia.
Qed.

Lemma cell_without_boundary_data_witness :
  fst (find_shp sample_externals 0 0) = false /\
  exists w',
    cell sample_externals 60 4 0 0 empty_map_world = Normal tt w' /\
    record_size (record_at (ofp w') 0 0) = 0 /\
    record_code (record_at (ofp w') 0 0) = 1.
Proof.
  split; [reflexivity |].
  destruct (cell_without_boundary_data sample_externals 60 4 0 0 empty_map_world eq_refl)
    as (w' & Hrun & Hsize & Hcode & _).
  exists w'. split; [exact Hrun |]. split; [exact Hsize | exact Hcode].
Defined.

(** ** Cells with boundary data *)

Lemma cell_found (E : externals) (r nt lat lon ext : Z) (w : world) :
  find_shp E lat lon = (true, ext) ->
  cell E r nt lat lon w = cell_with_file E r nt lat lon ext w.
Proof. intros H. unfold cell. now rewrite H. Qed.

Lemma block_record_fields (buf : list Z) (eof out_size : Z) :
  length buf = 7%nat -> 0 <= eof <= INT32_MAX -> 0 <= out_size <= MAX_BLOCK_SIZE ->
  record_code (block_record buf eof out_size) = eof /\
  record_size (block_record buf eof out_size) = out_size.
Proof.
  unfold INT32_MAX, MAX_BLOCK_SIZE. intros Hbuf Heof Hsize. split.
  - rewrite block_record_code by exact Hbuf.
    rewrite to_int32_small by (unfold INT32_MAX; lia).
    apply Z.mod_small. change (2 ^ 32) with 4294967296. lia.
  - rewrite block_record_size by exact Hbuf.
    apply Z.mod_small. change (2 ^ 24) with 16777216. lia.
Qed.

(** C4, as the code has it. For a cell with boundary data whose shape
    file is opened, loaded and compressed, in a file that does not exceed
    what [int32_t] holds: the end of the file is taken as the address of
    the block, the record of 7 bytes with this address as its code and the
    compressed length as its size is written first, at the slot of the
    cell in the map, and the block is written after it, at the address,
    which is the end of the file. *)
Theorem record_written_then_block_appended (E : externals)
    (resolution num_threads lat lon file_ext : Z) (w : world)
    (shapes : list SHPObject) (p : polygons) :
  zlib_contract E ->
  valid_resolution resolution = true ->
  -90 <= lat < 90 -> -180 <= lon < 180 ->
  length (mapbuf w) = 7%nat ->
  MAP_END <= fsize (ofp w) <= INT32_MAX ->
  find_shp E lat lon = (true, file_ext) ->
  SHPOpen E lat lon file_ext = Some shapes ->
  load_polygons shapes = Some p ->
  fst (fst (cell_compress E resolution num_threads lat lon p)) = 0 ->
  let out_size := snd (fst (cell_compress E resolution num_threads lat lon p)) in
  let out_buf := snd (cell_compress E resolution num_threads lat lon p) in
  let eof := fsize (ofp w) in
  exists w',
    cell E resolution num_threads lat lon w = Normal tt w' /\
    writes (log w') = writes (log w) ++ [(Mapbuf, map_address lat lon, 7);
                                         (OutBuf, eof, out_size)] /\
    map_address lat lon = 16384 + ((lat + 90) * 360 + (lon + 180)) * 7 /\
    record_code (record_at (ofp w') lat lon) = eof /\
    record_size (record_at (ofp w') lat lon) = out_size /\
    file_read (ofp w') eof out_size = stored_bytes out_buf out_size /\
    fsize (ofp w') = eof + out_size.
Proof.
  intros Hzlib Hr Hlat Hlon Hbuf Hsize Hfind Hopen Hload Hn out_size out_buf eof.
  pose proof (cell_compress_size E resolution num_threads lat lon p Hzlib Hr Hn) as Hout.
  fold out_size in Hout.
  exists (after_cell_with_file w resolution num_threads lat lon file_ext out_size out_buf).
  destruct (after_cell_with_file_file lat lon Hlat Hlon w resolution num_threads file_ext
              out_size out_buf Hbuf Hsize ltac:(lia))
    as (Hfs & _ & Hrec & Hblock & Hwrites & _).
  assert (HME : MAP_END = 469984) by reflexivity.
  destruct (block_record_fields (mapbuf w) eof out_size Hbuf ltac:(subst eof; lia)
              ltac:(lia)) as (Hcode & Hrsize).
  split.
  - rewrite (cell_found E _ _ _ _ file_ext) by exact Hfind.
    apply cell_with_file_stored with (shapes := shapes) (p := p); try assumption.
    now apply cell_compress_ok.
  - split; [exact Hwrites |].
    split; [apply (map_address_in_map lat lon Hlat Hlon) |].
    rewrite Hrec. split; [exact Hcode |]. split; [exact Hrsize |].
    split; [exact Hblock | exact Hfs].
Qed.

Lemma square_cell_compressed :
  fst (fst (cell_compress sample_externals 60 4 10 10 square_polygons)) = 0 /\
  snd (fst (cell_compress sample_externals 60 4 10 10 square_polygons)) = 451.
Proof. vm_compute. split; reflexivity. Qed.

Lemma record_written_then_block_appended_witness :
  zlib_contract sample_externals /\
  valid_resolution 60 = true /\
  length (mapbuf empty_map_world) = 7%nat /\
  MAP_END <= fsize (ofp empty_map_world) <= INT32_MAX /\
  find_shp sample_externals 10 10 = (true, 2) /\
  exists w',
    cell sample_externals 60 4 10 10 empty_map_world = Normal tt w' /\
    writes (log w') = [(Mapbuf, 269714, 7); (OutBuf, 469984, 451)] /\
    record_code (record_at (ofp w') 10 10) = 469984 /\
    record_size (record_at (ofp w') 10 10) = 451.
Proof.
  assert (Hsize : MAP_END <= fsize (ofp empty_map_world) <= INT32_MAX)
    by (vm_compute; split; discriminate).
  split; [exact sample_externals_contract |].
  split; [reflexivity |]. split; [reflexivity |]. split; [exact Hsize |].
  split; [reflexivity |].
  destruct (record_written_then_block_appended sample_externals 60 4 10 10 2
              empty_map_world [square_ring] square_polygons
              sample_externals_contract eq_refl ltac:(lia) ltac:(lia) eq_refl Hsize
              eq_refl eq_refl square_polygons_loaded (proj1 square_cell_compressed))
    as (w' & Hrun & Hwrites & _ & Hcode & Hrsize & _).
  rewrite (proj2 square_cell_compressed) in Hwrites, Hrsize.
  exists w'. split; [exact Hrun |]. split; [exact Hwrites |].
  split; [exact Hcode | exact Hrsize].
Defined.

(** C4, as the claim has it, fails on the cell of the square: the claim
    puts the append of the block before the write of the record, and the
    program writes the record first. *)
Lemma block_append_follows_record_write :
  ~ (forall w',
       cell sample_externals 60 4 10 10 empty_map_world = Normal tt w' ->
       exists eof n,
         writes (log w') = [(OutBuf, eof, n); (Mapbuf, map_address 10 10, 7)]).
Proof.
  intros Hclaim.
  assert (Hsize : MAP_END <= fsize (ofp empty_map_world) <= INT32_MAX)
    by (vm_compute; split; discriminate).
  pose proof (cell_compress_ok sample_externals 60 4 10 10 square_polygons
                (proj1 square_cell_compressed)) as Hc.
  rewrite (proj2 square_cell_compressed) in Hc.
  pose proof (cell_with_file_stored sample_externals 60 4 10 10 2 empty_map_world
                [square_ring] square_polygons 451 _ eq_refl square_polygons_loaded Hc)
    as Hrun.
  rewrite <- (cell_found sample_externals 60 4 10 10 2 empty_map_world eq_refl) in Hrun.
  destruct (Hclaim _ Hrun) as (eof & n & Hwrites).
  destruct (after_cell_with_file_file 10 10 ltac:(lia) ltac:(lia) empty_map_world
              60 4 2 451 (snd (cell_compress sample_externals 60 4 10 10 square_polygons))
              eq_refl Hsize ltac:(lia))
    as (_ & _ & _ & _ & Horder & _).
  rewrite Horder in Hwrites. cbn [writes log empty_map_world rev flat_map app] in Hwrites.
  discriminate Hwrites.
Qed.

(** ** The map and the blocks during the run *)

Section MapInvariant.

Variables (E : externals) (r nt : Z).
Hypothesis Hzlib : zlib_contract E.
Hypothesis Hr : valid_resolution r = true.

Lemma record_kept (f f' : FILE) (lat lon lat' lon' : Z) :
  kept_outside f f' lat lon -> MAP_END <= fsize f ->
  -90 <= lat < 90 -> -180 <= lon < 180 ->
  -90 <= lat' < 90 -> -180 <= lon' < 180 ->
  (lat, lon) <> (lat', lon') ->
  record_at f' lat' lon' = record_at f lat' lon'.
Proof.
  intros (_ & Hkept) Hsize Hlat Hlon Hlat' Hlon' Hne. unfold record_at.
  destruct (map_address_in_map lat' lon' Hlat' Hlon') as (_ & _ & Hhi).
  apply Hkept; [| lia].
  destruct (map_address_inj lat lon lat' lon' Hlat Hlon Hlat' Hlon' Hne); lia.
Qed.

Lemma recorded_kept (f f' : FILE) (lat lon lat' lon' : Z) :
  kept_outside f f' lat lon -> MAP_END <= fsize f ->
  -90 <= lat < 90 -> -180 <= lon < 180 ->
  -90 <= lat' < 90 -> -180 <= lon' < 180 ->
  (lat, lon) <> (lat', lon') ->
  cell_recorded E r nt f lat' lon' -> cell_recorded E r nt f' lat' lon'.
Proof.
  intros Hkept Hsize Hlat Hlon Hlat' Hlon' Hne Hrec.
  unfold cell_recorded in *.
  rewrite (record_kept f f' lat lon lat' lon') by assumption.
  destruct (fst (find_shp E lat' lon')); [| exact Hrec].
  destruct Hrec as (shapes & p & Hopen & Hload & Hn & Hsz & Hpos & Hcode & Hend & Hbytes).
  exists shapes, p. repeat (split; [assumption |]).
  destruct Hkept as (Hgrow & Hkept).
  destruct (map_address_in_map lat lon Hlat Hlon) as (_ & _ & Hhi).
  split; [lia |]. rewrite Hkept by lia. exact Hbytes.
Qed.

(** A step that writes the record of a cell, and a block at the end of
    the file when the cell has boundary data, keeps the invariant. *)
Lemma invariant_step (done : Z -> Z -> Prop) (w w' : world) (lat lon : Z) :
  -90 <= lat < 90 -> -180 <= lon < 180 ->
  map_invariant E r nt done w ->
  length (mapbuf w') = 7%nat ->
  kept_outside (ofp w) (ofp w') lat lon ->
  cell_recorded E r nt (ofp w') lat lon ->
  (fst (find_shp E lat lon) = true ->
   record_code (record_at (ofp w') lat lon) = fsize (ofp w)) ->
  map_invariant E r nt (fun la lo => done la lo \/ (la = lat /\ lo = lon)) w'.
Proof.
  intros Hlat Hlon (Hbuf & Hsize & Hrecs & Hapart) Hbuf' Hkept Hnew Hcode.
  assert (Hold : forall la lo, -90 <= la < 90 -> -180 <= lo < 180 -> done la lo ->
                               (la, lo) <> (lat, lon) ->
                               record_at (ofp w') la lo = record_at (ofp w) la lo).
  { intros la lo Hla Hlo _ Hne.
    apply (record_kept _ _ lat lon); try assumption. congruence. }
  assert (Hend : forall la lo, -90 <= la < 90 -> -180 <= lo < 180 -> done la lo ->
                               fst (find_shp E la lo) = true ->
                               record_code (record_at (ofp w) la lo)
                               + record_size (record_at (ofp w) la lo)
                               <= fsize (ofp w)).
  { intros la lo Hla Hlo Hd Hfile. specialize (Hrecs la lo Hla Hlo Hd).
    unfold cell_recorded in Hrecs. rewrite Hfile in Hrecs.
    destruct Hrecs as (? & ? & _ & _ & _ & _ & _ & _ & Hle & _). exact Hle. }
  assert (Hsz : 0 <= record_size (record_at (ofp w') lat lon)).
  { unfold cell_recorded in Hnew. destruct (fst (find_shp E lat lon)).
    - destruct Hnew as (? & ? & _ & _ & _ & _ & Hpos & _). lia.
    - destruct Hnew as (-> & _). lia. }
  assert (Hcase : forall la lo, done la lo \/ (la = lat /\ lo = lon) ->
                                (la = lat /\ lo = lon) \/
                                (done la lo /\ (la, lo) <> (lat, lon))).
  { intros la lo Hd.
    destruct (Z.eq_dec la lat) as [->|Hne1];
      [destruct (Z.eq_dec lo lon) as [->|Hne2]; [now left |] |];
      right; (destruct Hd as [Hd|[? ?]]; [| lia]);
      (split; [exact Hd | congruence]). }
  split; [exact Hbuf' |]. split; [destruct Hkept; lia |]. split.
  - intros la lo Hla Hlo Hd.
    destruct (Hcase la lo Hd) as [(-> & ->)|(Hd' & Hne)]; [exact Hnew |].
    apply (recorded_kept (ofp w) (ofp w') lat lon); try assumption;
      [congruence | now apply Hrecs].
  - intros la lo la' lo' Hla Hlo Hd Hla' Hlo' Hd' Hne Hfile Hfile'.
    destruct (Hcase la lo Hd) as [(-> & ->)|(Hd1 & Hne1)];
      destruct (Hcase la' lo' Hd') as [(-> & ->)|(Hd2 & Hne2)].
    + contradiction.
    + right. rewrite (Hold la' lo'), (Hcode Hfile) by assumption. now apply Hend.
    + left. rewrite (Hold la lo), (Hcode Hfile') by assumption. now apply Hend.
    + rewrite (Hold la lo), (Hold la' lo') by assumption.
      now apply Hapart.
Qed.

Lemma fsize_file_write_grows (f : FILE) (buf : list Z) (n : Z) :
  fsize f <= fsize (file_write f buf n).
Proof. rewrite fsize_file_write. destruct (n <=? 0); lia. Qed.

Lemma fsize_file_seek (f : FILE) (offset : Z) (wh : whence) :
  fsize (snd (file_seek f offset wh)) = fsize f.
Proof. unfold file_seek. now destruct (_ <? 0). Qed.

(** The file never shrinks. *)
Lemma cell_grows (lat lon : Z) (w w' : world) :
  cell E r nt lat lon w = Normal tt w' -> fsize (ofp w) <= fsize (ofp w').
Proof.
  intros Hrun. unfold cell in Hrun.
  destruct (find_shp E lat lon) as [[|] ext]; cbn [negb] in Hrun.
  - pose proof (cell_with_file_cases E r nt lat lon ext w) as Hcases.
    destruct (SHPOpen E lat lon ext) as [shapes|];
      [| destruct Hcases as (? & Hc); congruence].
    destruct (load_polygons shapes) as [p|];
      [| destruct Hcases as (? & Hc); congruence].
    cbv zeta in Hcases.
    destruct (fst (fst (cell_compress E r nt lat lon p)) =? 0);
      [| destruct Hcases as (? & Hc); congruence].
    rewrite Hcases in Hrun. injection Hrun as <-.
    unfold after_cell_with_file. cbn [ofp].
    eapply Z.le_trans; [| apply fsize_file_write_grows].
    rewrite fsize_file_seek.
    eapply Z.le_trans; [| apply fsize_file_write_grows].
    unfold at_position. cbn [fsize]. rewrite fsize_file_seek. lia.
  - destruct ((lat <? -57) || (lat >? 59)) eqn:Hband.
    + rewrite cell_without_file_undefined in Hrun by exact Hband.
      injection Hrun as <-. unfold after_cell_without_file. cbn [ofp].
      eapply Z.le_trans; [| apply fsize_file_write_grows]. reflexivity.
    + rewrite cell_without_file_sampled in Hrun by exact Hband.
      injection Hrun as <-. unfold after_cell_without_file. cbn [ofp].
      eapply Z.le_trans; [| apply fsize_file_write_grows]. reflexivity.
Qed.

(** A cell of the loop keeps the invariant and adds its own record. *)
Lemma cell_keeps_invariant (done : Z -> Z -> Prop) (lat lon : Z) (w w' : world) :
  -90 <= lat < 90 -> -180 <= lon < 180 ->
  map_invariant E r nt done w ->
  fsize (ofp w) <= INT32_MAX ->
  cell E r nt lat lon w = Normal tt w' ->
  map_invariant E r nt (fun la lo => done la lo \/ (la = lat /\ lo = lon)) w'.
Proof.
  intros Hlat Hlon Hinv Hmax Hrun.
  pose proof Hinv as (Hbuf & Hsize & _).
  unfold cell in Hrun.
  destruct (find_shp E lat lon) as [[|] ext] eqn:Hfind; cbn [negb] in Hrun.
  - pose proof (cell_with_file_cases E r nt lat lon ext w) as Hcases.
    destruct (SHPOpen E lat lon ext) as [shapes|] eqn:Hopen;
      [| destruct Hcases as (? & Hc); congruence].
    destruct (load_polygons shapes) as [p|] eqn:Hload;
      [| destruct Hcases as (? & Hc); congruence].
    cbv zeta in Hcases.
    destruct (Z.eqb_spec (fst (fst (cell_compress E r nt lat lon p))) 0) as [Hn|Hn];
      [| destruct Hcases as (? & Hc); congruence].
    rewrite Hcases in Hrun. injection Hrun as <-.
    pose proof (cell_compress_size E r nt lat lon p Hzlib Hr Hn) as Hout.
    set (out_size := snd (fst (cell_compress E r nt lat lon p))) in *.
    set (out_buf := snd (cell_compress E r nt lat lon p)) in *.
    destruct (after_cell_with_file_file lat lon Hlat Hlon w r nt ext out_size out_buf
                Hbuf ltac:(lia) ltac:(lia))
      as (Hfs & Hmb & Hrec & Hblock & _ & Hkept).
    assert (HME : MAP_END = 469984) by reflexivity.
    destruct (block_record_fields (mapbuf w) (fsize (ofp w)) out_size Hbuf
                ltac:(lia) ltac:(lia)) as (Hcode & Hrsize).
    apply (invariant_step done w); try assumption.
    + rewrite Hmb. now apply length_block_record.
    + split; [lia |]. intros off m Hoff Hend. now apply Hkept.
    + unfold cell_recorded. rewrite Hfind. cbn [fst snd].
      exists shapes, p. rewrite Hrec, Hcode, Hrsize.
      repeat (split; [first [assumption | reflexivity | lia] |]).
      exact Hblock.
    + intros _. now rewrite Hrec.
  - assert (Hdone : forall record calls,
               length record = 7%nat ->
               record_size record = 0 ->
               record_code record = sentinel E lat lon ->
               map_invariant E r nt (fun la lo => done la lo \/ (la = lat /\ lo = lon))
                 (after_cell_without_file w lat lon record calls)).
    { intros record calls Hlen Hrs Hrc.
      destruct (after_cell_without_file_file lat lon Hlat Hlon w record calls Hlen Hsize)
        as (Hfs & Hrec & Hkept).
      apply (invariant_step done w); try assumption.
      - split; [lia |]. intros off m Hoff _. now apply Hkept.
      - unfold cell_recorded. rewrite Hfind. cbn [fst]. rewrite Hrec. now split.
      - rewrite Hfind. discriminate. }
    destruct ((lat <? -57) || (lat >? 59)) eqn:Hband.
    + rewrite cell_without_file_undefined in Hrun by exact Hband.
      injection Hrun as <-. apply Hdone; [reflexivity | reflexivity |].
      unfold sentinel. now rewrite Hband.
    + rewrite cell_without_file_sampled in Hrun by exact Hband.
      injection Hrun as <-. apply Hdone.
      * apply length_sentinel_record.
      * apply sentinel_record_size.
      * unfold sentinel. rewrite Hband. apply sentinel_record_code.
        destruct (_ =? 0); cbn; lia.
Qed.

Lemma map_invariant_weaken (done done' : Z -> Z -> Prop) (w : world) :
  (forall la lo, -90 <= la < 90 -> -180 <= lo < 180 -> done' la lo -> done la lo) ->
  map_invariant E r nt done w -> map_invariant E r nt done' w.
Proof.
  intros Hsub (Hbuf & Hsize & Hrecs & Hapart).
  split; [exact Hbuf |]. split; [exact Hsize |]. split.
  - intros la lo Hla Hlo Hd. apply Hrecs; auto.
  - intros la lo la' lo' Hla Hlo Hd Hla' Hlo' Hd' Hne. apply Hapart; auto.
Qed.

Lemma cell_keeps_run_invariant (lat lon : Z) (w w' : world) :
  -90 <= lat < 90 -> -180 <= lon < 180 ->
  run_invariant E r nt (before lat lon) w ->
  cell E r nt lat lon w = Normal tt w' ->
  run_invariant E r nt (before lat (lon + 1)) w'.
Proof.
  intros Hlat Hlon [Hbig|Hinv] Hrun.
  - left. pose proof (cell_grows lat lon w w' Hrun). lia.
  - destruct (Z_lt_le_dec INT32_MAX (fsize (ofp w))) as [Hbig|Hfit].
    + left. pose proof (cell_grows lat lon w w' Hrun). lia.
    + right.
      apply (map_invariant_weaken
               (fun la lo => before lat lon la lo \/ (la = lat /\ lo = lon))).
      * unfold before. intros la lo _ _ Hb. lia.
      * now apply (cell_keeps_invariant (before lat lon) lat lon w).
Qed.

(** The loops over the cells keep the invariant of the run. *)
Lemma cells_keep_run_invariant (w w' : world) :
  run_invariant E r nt (fun _ _ => False) w ->
  cells E r nt w = Normal tt w' ->
  run_invariant E r nt (fun _ _ => True) w'.
Proof.
  intros Hinit Hrun. unfold cells in Hrun.
  assert (Hweak : forall (d d' : Z -> Z -> Prop) u,
             (forall la lo, -90 <= la < 90 -> -180 <= lo < 180 -> d' la lo -> d la lo) ->
             run_invariant E r nt d u -> run_invariant E r nt d' u).
  { intros d d' u Hsub [Hbig|Hinv]; [now left | right].
    now apply (map_invariant_weaken d). }
  apply (Hweak (before 90 (-180))); [unfold before; intros; lia |].
  apply (for_loopM_inv
           (fun lat (_ : unit) u => run_invariant E r nt (before lat (-180)) u))
    in Hrun; [exact Hrun | lia | |].
  - apply (Hweak (fun _ _ => False)); [unfold before; intros; lia | exact Hinit].
  - intros lat [] u [] u' Hlat Hu Hrow.
    apply (Hweak (before lat 180)); [unfold before; intros; lia |].
    apply (for_loopM_inv
             (fun lon (_ : unit) v => run_invariant E r nt (before lat lon) v))
      in Hrow; [exact Hrow | lia | exact Hu |].
    intros lon [] v [] v' Hlon Hv Hcell.
    now apply (cell_keeps_run_invariant lat lon v v').
Qed.

End MapInvariant.

(** ** The records of a run of any size *)

Section Marks.

Variables (E : externals) (r nt : Z).
Hypothesis Hzlib : zlib_contract E.
Hypothesis Hr : valid_resolution r = true.

(** A step that writes the record of a cell and nothing before it keeps
    the records of the cells before. *)
Lemma marks_step (w w' : world) (lat lon : Z) :
  -90 <= lat < 90 -> -180 <= lon < 180 ->
  marks_invariant E r nt lat lon w ->
  length (mapbuf w') = 7%nat ->
  MAP_END <= fsize (ofp w') <= INT32_MAX + MAX_BLOCK_SIZE ->
  (forall off m, off + m <= map_address lat lon ->
                 file_read (ofp w') off m = file_read (ofp w) off m) ->
  cell_marked E r nt (ofp w') lat lon ->
  marks_invariant E r nt lat (lon + 1) w'.
Proof.
  intros Hlat Hlon (Hbuf & Hsize & Hrecs) Hbuf' Hsize' Hkept Hnew.
  split; [exact Hbuf' |]. split; [exact Hsize' |].
  intros la lo Hla Hlo Hb.
  assert (Hcase : (la = lat /\ lo = lon) \/ before lat lon la lo)
    by (unfold before in *; lia).
  destruct Hcase as [(-> & ->)|Hold]; [exact Hnew |].
  specialize (Hrecs la lo Hla Hlo Hold).
  unfold cell_marked in *. unfold record_at in *.
  rewrite Hkept; [exact Hrecs |].
  now apply map_address_before.
Qed.

Lemma cell_keeps_marks (lat lon : Z) (w w' : world) :
  -90 <= lat < 90 -> -180 <= lon < 180 ->
  marks_invariant E r nt lat lon w ->
  cell E r nt lat lon w = Normal tt w' ->
  marks_invariant E r nt lat (lon + 1) w'.
Proof.
  intros Hlat Hlon Hinv Hrun.
  pose proof Hinv as (Hbuf & Hsize & _).
  assert (HME : MAP_END = 469984) by reflexivity.
  assert (HMAX : INT32_MAX = 2147483647) by reflexivity.
  assert (HMB : MAX_BLOCK_SIZE = 16777215) by reflexivity.
  destruct (map_address_in_map lat lon Hlat Hlon) as (_ & Hlo & Hhi).
  unfold cell in Hrun.
  destruct (find_shp E lat lon) as [[|] ext] eqn:Hfind; cbn [negb] in Hrun.
  - pose proof (cell_with_file_cases E r nt lat lon ext w) as Hcases.
    destruct (SHPOpen E lat lon ext) as [shapes|] eqn:Hopen;
      [| destruct Hcases as (? & Hc); congruence].
    destruct (load_polygons shapes) as [p|] eqn:Hload;
      [| destruct Hcases as (? & Hc); congruence].
    cbv zeta in Hcases.
    destruct (Z.eqb_spec (fst (fst (cell_compress E r nt lat lon p))) 0) as [Hn|Hn];
      [| destruct Hcases as (? & Hc); congruence].
    rewrite Hcases in Hrun. injection Hrun as <-.
    pose proof (cell_compress_size E r nt lat lon p Hzlib Hr Hn) as Hout.
    set (out_size := snd (fst (cell_compress E r nt lat lon p))) in *.
    set (out_buf := snd (cell_compress E r nt lat lon p)) in *.
    assert (Hfields :
              record_code (block_record (mapbuf w) (fsize (ofp w)) out_size)
              = fsize (ofp w) /\
              record_size (block_record (mapbuf w) (fsize (ofp w)) out_size)
              = out_size).
    { split.
      - rewrite block_record_code by exact Hbuf. apply to_int32_code.
        change (2 ^ 32) with 4294967296. lia.
      - rewrite block_record_size by exact Hbuf.
        apply Z.mod_small. change (2 ^ 24) with 16777216. lia. }
    destruct Hfields as (Hcode & Hrsize).
    assert (Hmark : forall f',
               record_at f' lat lon = block_record (mapbuf w) (fsize (ofp w)) out_size ->
               cell_marked E r nt f' lat lon).
    { intros f' Hrec. unfold cell_marked. rewrite Hfind. cbn [fst snd].
      exists shapes, p. rewrite Hrec, Hcode, Hrsize.
      repeat (split; [first [assumption | reflexivity | lia] |]).
      change (2 ^ 32) with 4294967296. lia. }
    destruct (Z_le_gt_dec (fsize (ofp w)) INT32_MAX) as [Hfit|Hbig].
    + destruct (after_cell_with_file_file lat lon Hlat Hlon w r nt ext out_size out_buf
                  Hbuf ltac:(lia) ltac:(lia))
        as (Hfs & Hmb & Hrec & _ & _ & Hkept).
      apply (marks_step w); try assumption.
      * rewrite Hmb. now apply length_block_record.
      * lia.
      * intros off m Hoff. apply Hkept; lia.
      * now apply Hmark.
    + destruct (after_cell_with_file_beyond lat lon Hlat Hlon w r nt ext out_size out_buf
                  Hbuf)
        as (Hfs & Hmb & Hrec & _ & Hkept).
      * change (2 ^ 32) with 4294967296. lia.
      * lia.
      * lia.
      * apply (marks_step w); try assumption.
        -- rewrite Hmb. now apply length_block_record.
        -- lia.
        -- now apply Hmark.
  - assert (Hdone : forall record calls,
               length record = 7%nat ->
               record_size record = 0 ->
               record_code record = sentinel E lat lon ->
               marks_invariant E r nt lat (lon + 1)
                 (after_cell_without_file w lat lon record calls)).
    { intros record calls Hlen Hrs Hrc.
      destruct (after_cell_without_file_file lat lon Hlat Hlon w record calls Hlen
                  ltac:(lia))
        as (Hfs & Hrec & Hkept).
      apply (marks_step w); try assumption.
      - lia.
      - intros off m Hoff. apply Hkept. now left.
      - unfold cell_marked. rewrite Hfind. cbn [fst]. rewrite Hrec. now split. }
    destruct ((lat <? -57) || (lat >? 59)) eqn:Hband.
    + rewrite cell_without_file_undefined in Hrun by exact Hband.
      injection Hrun as <-. apply Hdone; [reflexivity | reflexivity |].
      unfold sentinel. now rewrite Hband.
    + rewrite cell_without_file_sampled in Hrun by exact Hband.
      injection Hrun as <-. apply Hdone.
      * apply length_sentinel_record.
      * apply sentinel_record_size.
      * unfold sentinel. rewrite Hband. apply sentinel_record_code.
        destruct (_ =? 0); cbn; lia.
Qed.


End Marks.

(** ** The header and the empty map *)

Section Initialisation.

Variable E : externals.

Lemma for_loopM_runs {S : Type} (P : Z -> S -> world -> Prop) (body : Z -> S -> M S)
    (a b : Z) (s : S) (w : world) :
  a <= b ->
  (forall i t u, exists t' u', body i t u = Normal t' u') ->
  P a s w ->
  (forall i t u t' u', a <= i < b -> P i t u ->
                       body i t u = Normal t' u' -> P (i + 1) t' u') ->
  exists s' w', for_loopM a b body s w = Normal s' w' /\ P b s' w'.
Proof.
  intros Hab Htotal H0 Hstep.
  destruct (for_upM_total body (Z.to_nat (b - a)) a s w Htotal) as (s' & w' & Hrun).
  exists s', w'. split; [exact Hrun |].
  now apply (for_loopM_inv P body a b s w Hab H0 Hstep).
Qed.

(** A write at the end of the file. *)
Lemma fwrite_appends (from : buffer) (buf : list Z) (size nmemb : Z) (w : world) :
  0 <= size * nmemb ->
  fpos (ofp w) = fsize (ofp w) ->
  exists w',
    fwrite from buf size nmemb w = Normal tt w' /\
    mapbuf w' = mapbuf w /\
    fpos (ofp w') = fsize (ofp w') /\
    fsize (ofp w') = fsize (ofp w) + size * nmemb.
Proof.
  intros Hn Hend. eexists. split; [reflexivity |]. cbn [mapbuf ofp].
  split; [reflexivity |]. unfold file_write.
  destruct (Z.leb_spec (size * nmemb) 0); cbn [fpos fsize]; lia.
Qed.

Lemma fprintf_appends (s : string) (w : world) :
  fpos (ofp w) = fsize (ofp w) ->
  exists w',
    fprintf s w = Normal tt w' /\
    mapbuf w' = mapbuf w /\
    fpos (ofp w') = fsize (ofp w') /\
    fsize (ofp w) <= fsize (ofp w').
Proof.
  intros Hend. unfold fprintf.
  destruct (fwrite_appends Text (bytes_of_string s) 1 (Z.of_nat (String.length s)) w
              ltac:(lia) Hend) as (w' & Hrun & Hbuf & Hend' & Hsize).
  exists w'. repeat (split; [assumption |]). lia.
Qed.

(** The header fills the file to its size, at least. *)
Lemma write_header_runs (resolution : Z) (w : world) :
  fpos (ofp w) = fsize (ofp w) -> 0 <= fsize (ofp w) ->
  exists w',
    write_header E resolution w = Normal tt w' /\
    fpos (ofp w') = fsize (ofp w') /\
    SWBD_MASK_HEADER_SIZE <= fsize (ofp w').
Proof.
  intros Hend Hsize. unfold write_header.
  repeat match goal with
         | |- context [bind (fprintf ?s) _ ?u] =>
             let w1 := fresh "w" in
             let Hrun := fresh "Hrun" in
             let Hend1 := fresh "Hend" in
             let Hsize1 := fresh "Hsize" in
             unfold bind at 1;
             destruct (fprintf_appends s u ltac:(assumption))
               as (w1 & Hrun & _ & Hend1 & Hsize1);
             rewrite Hrun; clear Hrun
         end.
  unfold bind at 1. unfold ftell.
  match goal with
  | |- context [for_loopM ?j _ _ tt ?u] =>
      set (position := j); set (v := u) in *
  end.
  assert (Hv : 0 <= fsize (ofp v)) by lia.
  assert (Hpos : position = to_int32 (fsize (ofp v))) by (subst position; congruence).
  destruct (Z_le_gt_dec position SWBD_MASK_HEADER_SIZE) as [Hle|Hgt].
  - destruct (for_loopM_runs
                (fun i (_ : unit) u =>
                   fpos (ofp u) = fsize (ofp u) /\
                   fsize (ofp u) = fsize (ofp v) + (i - position))
                (fun _ _ => fwrite Zero [0] 1 1) position SWBD_MASK_HEADER_SIZE tt v Hle)
      as ([] & w' & Hrun & Hend' & Hsize').
    + intros i t u. eexists; eexists; reflexivity.
    + split; [assumption | lia].
    + intros i [] u [] u' Hi (He & Hs) Hb.
      destruct (fwrite_appends Zero [0] 1 1 u ltac:(lia) He)
        as (u'' & Hrun & _ & He' & Hs').
      rewrite Hrun in Hb. injection Hb as <-. split; [exact He' | lia].
    + exists w'. split; [exact Hrun |]. split; [exact Hend' |].
      destruct (Z_le_gt_dec (fsize (ofp v)) INT32_MAX) as [Hfit|Hbig].
      * rewrite to_int32_small in Hpos by lia. lia.
      * assert (position <= INT32_MAX); [| unfold INT32_MAX in *; lia].
        rewrite Hpos. unfold to_int32, INT32_MAX.
        change (2 ^ 31) with 2147483648. change (2 ^ 32) with 4294967296.
        Z.to_euclidean_division_equations; lia.
  - exists v. unfold for_loopM.
    replace (Z.to_nat (SWBD_MASK_HEADER_SIZE - position)) with O by lia.
    split; [reflexivity |]. split; [assumption |].
    destruct (Z_le_gt_dec (fsize (ofp v)) INT32_MAX) as [Hfit|Hbig].
    + rewrite to_int32_small in Hpos by lia. lia.
    + unfold INT32_MAX, SWBD_MASK_HEADER_SIZE in *. lia.
Qed.

(** The empty map takes 64800 records of 7 bytes after the header. *)
Lemma write_empty_map_runs (w : world) :
  fpos (ofp w) = fsize (ofp w) ->
  exists w',
    write_empty_map w = Normal tt w' /\
    length (mapbuf w') = 7%nat /\
    fsize (ofp w') = fsize (ofp w) + 64800 * 7.
Proof.
  intros Hend. unfold write_empty_map. unfold bind at 1.
  unfold memset_mapbuf, set_mapbuf.
  set (v := {| ofp := ofp w; mapbuf := repeat 0 7%nat; log := log w |}).
  assert (Hrow : forall (lat : Z) u,
             length (mapbuf u) = 7%nat -> fpos (ofp u) = fsize (ofp u) ->
             exists u',
               for_loopM (-180) 180 (fun _ _ => fwrite_mapbuf) tt u = Normal tt u' /\
               length (mapbuf u') = 7%nat /\
               fpos (ofp u') = fsize (ofp u') /\
               fsize (ofp u') = fsize (ofp u) + 360 * 7).
  { intros _ u Hbuf He.
    destruct (for_loopM_runs
                (fun lon (_ : unit) x =>
                   length (mapbuf x) = 7%nat /\
                   fpos (ofp x) = fsize (ofp x) /\
                   fsize (ofp x) = fsize (ofp u) + (lon + 180) * 7)
                (fun _ _ => fwrite_mapbuf) (-180) 180 tt u ltac:(lia))
      as ([] & u' & Hrun & Hb & He' & Hs).
    - intros i t x. eexists; eexists; reflexivity.
    - split; [assumption | split; [assumption | lia]].
    - intros lon [] x [] x' Hlon (Hb & He' & Hs) Hstep.
      unfold fwrite_mapbuf, bind, get_mapbuf in Hstep.
      destruct (fwrite_appends Mapbuf (mapbuf x) 7 1 x ltac:(lia) He')
        as (x'' & Hrun & Hb' & He'' & Hs').
      rewrite Hrun in Hstep. injection Hstep as <-.
      split; [congruence | split; [assumption | lia]].
    - exists u'. split; [assumption | split; [assumption | split; [assumption | lia]]]. }
  destruct (for_loopM_runs
              (fun lat (_ : unit) x =>
                 length (mapbuf x) = 7%nat /\
                 fpos (ofp x) = fsize (ofp x) /\
                 fsize (ofp x) = fsize (ofp w) + (lat + 90) * (360 * 7))
              (fun _ _ => for_loopM (-180) 180 (fun _ _ => fwrite_mapbuf) tt)
              (-90) 90 tt v ltac:(lia))
    as ([] & w' & Hrun & Hb & He' & Hs).
  - intros i [] x.
    destruct (for_upM_total (fun _ (_ : unit) => fwrite_mapbuf)
                (Z.to_nat (180 - -180)) (-180) tt x) as (t' & x' & Hx).
    + intros j t y. eexists; eexists; reflexivity.
    + exists t', x'. exact Hx.
  - split; [reflexivity | split; [exact Hend | cbn [v ofp]; lia]].
  - intros lat [] x [] x' Hlat (Hb & He' & Hs) Hstep.
    destruct (Hrow lat x Hb He') as (x'' & Hrun & Hb' & He'' & Hs').
    rewrite Hrun in Hstep. injection Hstep as <-.
    split; [assumption | split; [assumption | lia]].
  - exists w'. split; [assumption | split; [assumption | lia]].
Qed.

End Initialisation.

(** ** The whole run *)

Section WholeRun.

Variable E : externals.
Hypothesis Hzlib : zlib_contract E.

Lemma configure_valid (argv : list string) (r nt : Z) :
  configure E argv = inr (r, nt) ->
  r = arg_resolution argv /\ nt = arg_num_threads argv /\
  valid_resolution r = true /\ valid_num_threads nt = true.
Proof.
  unfold configure. intros H.
  destruct (argc_of argv <? 2); [discriminate |].
  destruct (getenv_ABE_DATA E); [| discriminate].
  destruct (negb (check_srtm_mask E 3 =? 0)); [discriminate |].
  destruct (valid_resolution (arg_resolution argv)) eqn:Hr; [| discriminate].
  destruct (valid_num_threads (arg_num_threads argv)) eqn:Hn; [| discriminate].
  cbn [negb] in H. injection H as <- <-. auto.
Qed.

Lemma build_steps (r nt : Z) (w : world) :
  build E r nt w =
  match write_header E r w with
  | Normal _ wh =>
      match write_empty_map wh with
      | Normal _ w1 =>
          match cells E r nt w1 with
          | Normal _ w2 => Normal 0 w2
          | Exited d w2 => Exited d w2
          end
      | Exited d w1 => Exited d w1
      end
  | Exited d wh => Exited d wh
  end.
Proof. reflexivity. Qed.

(** A run that returns has written the header and the empty map and has
    gone through the loops over the cells. *)
Lemma main_returns (argv : list string) (status : Z) (w : world) :
  main E argv = Normal status w ->
  let r := arg_resolution argv in
  let nt := arg_num_threads argv in
  status = 0 /\
  valid_resolution r = true /\ valid_num_threads nt = true /\
  exists w1,
    length (mapbuf w1) = 7%nat /\ MAP_END <= fsize (ofp w1) /\
    fsize (ofp w1)
    = fsize (ofp (world_of (write_header E r initial_world))) + 64800 * 7 /\
    cells E r nt w1 = Normal tt w.
Proof.
  intros Hmain r nt. unfold main in Hmain.
  destruct (configure E argv) as [d|[r' nt']] eqn:Hconf; [discriminate |].
  destruct (configure_valid argv r' nt' Hconf) as (Hr' & Hnt' & Hr & Hnt).
  fold r in Hr'. fold nt in Hnt'. subst r' nt'.
  destruct (ofile_fopen E); [| discriminate].
  rewrite build_steps in Hmain.
  assert (Hstart : fpos (ofp initial_world) = fsize (ofp initial_world))
    by reflexivity.
  assert (Hzero : 0 <= fsize (ofp initial_world)) by (cbn; lia).
  destruct (write_header_runs E r initial_world Hstart Hzero)
    as (wh & Hh & Hend & Hsize).
  rewrite Hh in Hmain.
  destruct (write_empty_map_runs wh Hend) as (w1 & Hm & Hbuf & Hsize1).
  rewrite Hm in Hmain.
  destruct (cells E r nt w1) as [[] w2|d w2] eqn:Hcells; [| discriminate].
  injection Hmain as <- <-.
  split; [reflexivity |]. split; [exact Hr |]. split; [exact Hnt |].
  exists w1. split; [exact Hbuf |].
  split; [unfold MAP_END, SWBD_MASK_HEADER_SIZE in *; lia |].
  split; [| exact Hcells].
  rewrite Hh. exact Hsize1.
Qed.

(** In the file of a run that returns, and that does not exceed what
    [int32_t] holds, every cell is recorded and the blocks are apart. *)
Lemma main_invariant (argv : list string) :
  run_fits (main E argv) = true ->
  valid_resolution (arg_resolution argv) = true /\
  valid_num_threads (arg_num_threads argv) = true /\
  map_invariant E (arg_resolution argv) (arg_num_threads argv) (fun _ _ => True)
    (world_of (main E argv)).
Proof.
  intros Hfits.
  destruct (main E argv) as [status w|d w] eqn:Hmain; [| discriminate].
  cbn [run_fits] in Hfits. apply andb_true_iff in Hfits as (_ & Hmax).
  apply Z.leb_le in Hmax. cbn [world_of].
  destruct (main_returns argv status w Hmain) as (_ & Hr & Hnt & w1 & Hbuf & Hsize & _ & Hcells).
  split; [exact Hr |]. split; [exact Hnt |].
  destruct (cells_keep_run_invariant E (arg_resolution argv) (arg_num_threads argv)
              Hzlib Hr w1 w) as [Hbig|Hinv];
    [| exact Hcells | lia | exact Hinv].
  right. split; [exact Hbuf |]. split; [exact Hsize |]. split.
  - intros la lo _ _ [].
  - intros la lo la' lo' _ _ [].
Qed.


Lemma sentinel_codes (lat lon : Z) :
  sentinel E lat lon = 0 \/ sentinel E lat lon = 1 \/ sentinel E lat lon = 2.
Proof.
  unfold sentinel. destruct ((lat <? -57) || (lat >? 59)); [now left |].
  destruct (_ =? 0); [now right; right | now right; left].
Qed.

End WholeRun.

(** The directory of a file that does not exceed 2^31 - 1 bytes. After
    a full run with such a file, every record of the map has a code among
    0, 1 and 2, with the size 0, or the offset of a block: the [size] bytes
    from [code] lie after the map and inside the file, and apart from the
    bytes of the block of every other cell. The bound is that of the
    [int32_t] in which the code holds the end of the file. *)
Theorem directory_invariant (E : externals) (argv : list string) :
  zlib_contract E ->
  run_fits (main E argv) = true ->
  let f := ofp (world_of (main E argv)) in
  forall lat lon, -90 <= lat < 90 -> -180 <= lon < 180 ->
    let code := record_code (record_at f lat lon) in
    let size := record_size (record_at f lat lon) in
    (size = 0 /\ (code = 0 \/ code = 1 \/ code = 2)) \/
    (MAP_END <= code /\ 0 < size /\ code + size <= fsize f /\
     forall lat' lon', -90 <= lat' < 90 -> -180 <= lon' < 180 ->
       (lat', lon') <> (lat, lon) ->
       let code' := record_code (record_at f lat' lon') in
       let size' := record_size (record_at f lat' lon') in
       (size' = 0 /\ (code' = 0 \/ code' = 1 \/ code' = 2)) \/
       code + size <= code' \/ code' + size' <= code).
Proof.
  intros Hzlib Hfits f lat lon Hlat Hlon code size.
  destruct (main_invariant E Hzlib argv Hfits) as (_ & _ & _ & _ & Hrecs & Hapart).
  fold f in Hrecs, Hapart.
  pose proof (Hrecs lat lon Hlat Hlon I) as Hrec.
  unfold cell_recorded in Hrec. fold code size in Hrec.
  destruct (fst (find_shp E lat lon)) eqn:Hfile.
  - right. destruct Hrec as (shapes & p & _ & _ & _ & _ & Hpos & Hcode & Hend & _).
    split; [exact Hcode |]. split; [lia |]. split; [exact Hend |].
    intros lat' lon' Hlat' Hlon' Hne code' size'.
    pose proof (Hrecs lat' lon' Hlat' Hlon' I) as Hrec'.
    unfold cell_recorded in Hrec'. fold code' size' in Hrec'.
    destruct (fst (find_shp E lat' lon')) eqn:Hfile'.
    + right. apply (Hapart lat lon lat' lon'); auto.
    + left. destruct Hrec' as (-> & ->). split; [reflexivity | apply sentinel_codes].
  - left. destruct Hrec as (-> & ->). split; [reflexivity | apply sentinel_codes].
Qed.

Lemma sample_run_fits : run_fits (main sample_externals sample_argv) = true.
Proof. vm_compute. reflexivity. Qed.

Lemma directory_invariant_witness :
  zlib_contract sample_externals /\
  run_fits (main sample_externals sample_argv) = true /\
  let f := ofp (world_of (main sample_externals sample_argv)) in
  (record_size (record_at f 10 10) = 0 /\
   (record_code (record_at f 10 10) = 0 \/ record_code (record_at f 10 10) = 1 \/
    record_code (record_at f 10 10) = 2)) \/
  (MAP_END <= record_code (record_at f 10 10) /\
   0 < record_size (record_at f 10 10) /\
   record_code (record_at f 10 10) + record_size (record_at f 10 10) <= fsize f).
Proof.
  split; [exact sample_externals_contract |]. split; [exact sample_run_fits |].
  intros f.
  destruct (directory_invariant sample_externals sample_argv sample_externals_contract
              sample_run_fits 10 10 ltac:(lia) ltac:(lia))
    as [Hsentinel|(Hcode & Hsize & Hend & _)].
  - left. exact Hsentinel.
  - right. split; [exact Hcode |]. split; [exact Hsize | exact Hend].
Defined.

(** ** Cells whose shapes have no ring *)




Lemma sample_header_fits : header_fits sample_externals (arg_resolution sample_argv) = true.
Proof. vm_compute. reflexivity. Qed.

Lemma sample_run_returns : returns (main sample_externals sample_argv) = true.
Proof.
  pose proof sample_run_fits as Hfits.
  destruct (main sample_externals sample_argv) as [status w|d w]; [| discriminate].
  cbn [run_fits] in Hfits. apply andb_true_iff in Hfits as (Hret & _). exact Hret.
Qed.


(** ** The order of the cells *)

Lemma range_cons (a : Z) (n : nat) : range a (Datatypes.S n) = a :: range (a + 1) n.
Proof.
  unfold range. cbn [seq map]. rewrite Z.add_0_r. f_equal.
  rewrite <- seq_shift, map_map. apply map_ext. intros k. lia.
Qed.

(** What a loop adds to an observation of the world, when each turn adds
    its own part or leaves the program with a part of it. *)
Lemma for_upM_trace {S X : Type} (obs : world -> list X) (x : Z -> list X)
    (body : Z -> S -> M S) (n : nat) (a : Z) (s : S) (w : world) :
  (forall i t u,
     match body i t u with
     | Normal _ u' => obs u' = obs u ++ x i
     | Exited _ u' => exists rest, obs u ++ x i = obs u' ++ rest
     end) ->
  match for_upM n a body s w with
  | Normal _ w' => obs w' = obs w ++ flat_map x (range a n)
  | Exited _ w' => exists rest, obs w ++ flat_map x (range a n) = obs w' ++ rest
  end.
Proof.
  intros Hbody. revert a s w. induction n as [|n IH]; intros a s w.
  - cbn. now rewrite app_nil_r.
  - cbn [for_upM]. unfold bind. rewrite range_cons. cbn [flat_map].
    pose proof (Hbody a s w) as Hb.
    destruct (body a s w) as [t u|d u].
    + pose proof (IH (a + 1) t u) as Hrest.
      destruct (for_upM n (a + 1) body t u) as [t' u'|d u'].
      * rewrite Hrest, Hb. now rewrite app_assoc.
      * destruct Hrest as (rest & Hrest). exists rest.
        rewrite <- Hrest, Hb. now rewrite app_assoc.
    + destruct Hb as (rest & Hb).
      exists (rest ++ flat_map x (range (a + 1) n)).
      now rewrite !app_assoc, Hb.
Qed.

Section CellOrder.

Variables (E : externals) (r nt : Z).

Lemma record_writes_step (l l' : list event) (ws : list (buffer * Z * Z)) :
  writes l' = writes l ++ ws ->
  record_writes l' = record_writes l ++ map_positions ws.
Proof.
  intros H. unfold record_writes, map_positions. rewrite H. apply flat_map_app.
Qed.

(** A cell that leaves the program has written nothing. *)
Lemma cell_with_file_exit_writes (lat lon ext : Z) (w w' : world) (d : diagnostic) :
  cell_with_file E r nt lat lon ext w = Exited d w' ->
  writes (log w') = writes (log w).
Proof.
  unfold cell_with_file, shp_open.
  unfold bind at 1. unfold bind at 1. unfold emit at 1.
  destruct (SHPOpen E lat lon ext) as [shapes|].
  - unfold ret at 1. destruct (load_polygons shapes) as [p|].
    + unfold bind at 1. unfold for_loopM. rewrite mask_loop.
      unfold bind at 1. unfold call_compress2, bind, emit, ret.
      cbn [ofp mapbuf log].
      destruct (compress2 E _ _ _ _) as [[n out_size] out_buf].
      destruct (negb (n =? 0)).
      * unfold exit. intros [= _ <-]. cbn [log].
        rewrite writes_cons, writes_app, writes_cons, writes_mask_events.
        cbn [app]. now rewrite !app_nil_r.
      * unfold fseek, ftell, pack_mapbuf, fwrite_mapbuf, fwrite, bind, get_mapbuf,
          set_mapbuf.
        cbn [ofp mapbuf log].
        repeat match goal with
               | |- context [file_seek ?f ?o ?wh] =>
                   destruct (file_seek f o wh) as [? ?]; cbn [ofp mapbuf log]
               end.
        discriminate.
    + unfold exit. intros [= _ <-]. cbn [log]. rewrite writes_cons.
      now rewrite app_nil_r.
  - unfold exit. intros [= _ <-]. cbn [log]. rewrite writes_cons.
    now rewrite app_nil_r.
Qed.

(** Every cell writes its record at its address in the map. *)
Lemma cell_record_write (lat lon : Z) (w : world) :
  match cell E r nt lat lon w with
  | Normal _ w' => record_writes (log w') = record_writes (log w) ++ [map_address lat lon]
  | Exited _ w' =>
      exists rest,
        record_writes (log w) ++ [map_address lat lon] = record_writes (log w') ++ rest
  end.
Proof.
  unfold cell.
  destruct (find_shp E lat lon) as [[|] ext]; cbn [negb].
  - destruct (cell_with_file E r nt lat lon ext w) as [[] w'|d w'] eqn:Hrun.
    + pose proof (cell_with_file_cases E r nt lat lon ext w) as Hcases.
      destruct (SHPOpen E lat lon ext) as [shapes|];
        [| destruct Hcases as (? & Hc); congruence].
      destruct (load_polygons shapes) as [p|];
        [| destruct Hcases as (? & Hc); congruence].
      cbv zeta in Hcases.
      destruct (fst (fst (cell_compress E r nt lat lon p)) =? 0);
        [| destruct Hcases as (? & Hc); congruence].
      rewrite Hcases in Hrun. injection Hrun as <-.
      apply record_writes_step with
        (ws := [(Mapbuf, map_address lat lon, 7 * 1);
                (OutBuf,
                 fpos (snd (file_seek
                              (file_write
                                 (at_position (snd (file_seek (ofp w) 0 SEEK_END))
                                    (map_address lat lon))
                                 (block_record (mapbuf w)
                                    (fpos (snd (file_seek (ofp w) 0 SEEK_END)))
                                    (snd (fst (cell_compress E r nt lat lon p))))
                                 (7 * 1))
                              (to_int32 (fpos (snd (file_seek (ofp w) 0 SEEK_END))))
                              SEEK_SET)),
                 snd (fst (cell_compress E r nt lat lon p)) * 1)]).
      unfold after_cell_with_file. cbn [log].
      rewrite !writes_cons, writes_app, writes_cons, writes_mask_events.
      cbn [app]. now rewrite !app_nil_r, <- !app_assoc.
    + exists [map_address lat lon]. unfold record_writes.
      now rewrite (cell_with_file_exit_writes lat lon ext w w' d Hrun).
  - destruct ((lat <? -57) || (lat >? 59)) eqn:Hband.
    + rewrite cell_without_file_undefined by exact Hband.
      apply record_writes_step with (ws := [(Mapbuf, map_address lat lon, 7 * 1)]).
      unfold after_cell_without_file. cbn [log app]. now rewrite writes_cons.
    + rewrite cell_without_file_sampled by exact Hband.
      apply record_writes_step with (ws := [(Mapbuf, map_address lat lon, 7 * 1)]).
      unfold after_cell_without_file. cbn [log app].
      rewrite !writes_cons. cbn [app]. now rewrite app_nil_r.
Qed.

(** The loops over the cells write the records in the order of the
    cells. *)
Lemma cells_record_writes (w : world) :
  match cells E r nt w with
  | Normal _ w' =>
      record_writes (log w')
      = record_writes (log w)
        ++ flat_map (fun lat => flat_map (fun lon => [map_address lat lon])
                                  (range (-180) 360))
             (range (-90) 180)
  | Exited _ w' =>
      exists rest,
        record_writes (log w)
        ++ flat_map (fun lat => flat_map (fun lon => [map_address lat lon])
                                  (range (-180) 360))
             (range (-90) 180)
        = record_writes (log w') ++ rest
  end.
Proof.
  unfold cells, for_loopM.
  apply (for_upM_trace (fun u => record_writes (log u))
           (fun lat => flat_map (fun lon => [map_address lat lon]) (range (-180) 360))).
  intros lat [] u.
  apply (for_upM_trace (fun u => record_writes (log u))
           (fun lon => [map_address lat lon])
           (fun lon (_ : unit) => cell E r nt lat lon) 360 (-180) tt u).
  intros lon [] v. apply cell_record_write.
Qed.

End CellOrder.

Lemma flat_map_singleton {A B : Type} (h : A -> B) (l : list A) :
  flat_map (fun x => [h x]) l = map h l.
Proof. induction l as [|x l IH]; cbn; [reflexivity | now rewrite IH]. Qed.

Lemma map_flat_map_rows {A B C : Type} (f : B -> C) (g : A -> list B) (l : list A) :
  map f (flat_map g l) = flat_map (fun x => map f (g x)) l.
Proof.
  induction l as [|x l IH]; cbn; [reflexivity |]. now rewrite map_app, IH.
Qed.

Lemma cell_order_addresses :
  flat_map (fun lat => flat_map (fun lon => [map_address lat lon]) (range (-180) 360))
    (range (-90) 180)
  = map (fun c => map_address (fst c) (snd c)) cell_order.
Proof.
  unfold cell_order. rewrite map_flat_map_rows. apply flat_map_ext. intros lat.
  rewrite flat_map_singleton, map_map. reflexivity.
Qed.

Lemma length_range (a : Z) (n : nat) : length (range a n) = n.
Proof. unfold range. now rewrite length_map, length_seq. Qed.

Lemma nth_range (a : Z) (n i : nat) (d : Z) :
  (i < n)%nat -> nth i (range a n) d = a + Z.of_nat i.
Proof.
  intros Hi. unfold range.
  rewrite nth_indep with (d' := (fun k => a + Z.of_nat k) O)
    by (rewrite length_map, length_seq; lia).
  rewrite map_nth with (f := fun k => a + Z.of_nat k). now rewrite seq_nth.
Qed.

(** The element of a list of rows of the same length. *)
Lemma nth_flat_map_rows {A B : Type} (g : A -> list B) (m : nat) (l : list A)
    (i j : nat) (d : B) (da : A) :
  (forall x, length (g x) = m) -> (j < m)%nat -> (i < length l)%nat ->
  nth (i * m + j) (flat_map g l) d = nth j (g (nth i l da)) d.
Proof.
  intros Hrow Hj. revert i. induction l as [|x l IH]; intros i Hi; [cbn in Hi; lia |].
  cbn [flat_map]. destruct i as [|i].
  - cbn [Nat.mul Nat.add nth]. apply app_nth1. now rewrite Hrow.
  - cbn [nth]. replace (Datatypes.S i * m + j)%nat with (length (g x) + (i * m + j))%nat
      by (rewrite Hrow; lia).
    rewrite app_nth2_plus. apply IH. cbn in Hi. lia.
Qed.

Lemma length_flat_map_rows {A B : Type} (g : A -> list B) (m : nat) (l : list A) :
  (forall x, length (g x) = m) -> length (flat_map g l) = (length l * m)%nat.
Proof.
  intros Hrow. induction l as [|x l IH]; [reflexivity |].
  cbn [flat_map length]. rewrite length_app, Hrow, IH. lia.
Qed.

(** The place of a cell in the order of the loops is its index in the
    map. *)
Lemma cell_order_index (lat lon : Z) :
  -90 <= lat < 90 -> -180 <= lon < 180 ->
  nth (Z.to_nat ((lat + 90) * 360 + (lon + 180))) cell_order (0, 0) = (lat, lon).
Proof.
  intros Hlat Hlon. unfold cell_order.
  replace (Z.to_nat ((lat + 90) * 360 + (lon + 180)))
    with (Z.to_nat (lat + 90) * 360 + Z.to_nat (lon + 180))%nat by lia.
  rewrite nth_flat_map_rows with (da := 0).
  - rewrite nth_range by lia.
    rewrite nth_indep with (d' := (fun lo => (-90 + Z.of_nat (Z.to_nat (lat + 90)), lo)) 0)
      by (rewrite length_map, length_range; lia).
    rewrite map_nth with (f := fun lo => (-90 + Z.of_nat (Z.to_nat (lat + 90)), lo)).
    rewrite nth_range by lia. f_equal; lia.
  - intros x. now rewrite length_map, length_range.
  - lia.
  - rewrite length_range. lia.
Qed.

Lemma length_cell_order : Z.of_nat (length cell_order) = 64800.
Proof.
  unfold cell_order.
  rewrite length_flat_map_rows with (m := 360%nat)
    by (intros x; now rewrite length_map, length_range).
  now rewrite length_range.
Qed.

(** C8. The cells are visited by latitude from south to north and, at each
    latitude, by longitude from west to east: the cell at latitude [lat]
    and longitude [lon] is the one of index [(lat + 90) * 360 + (lon + 180)]
    among the 64800 of this order. Each cell writes its record at the
    address [16384 + ((lat + 90) * 360 + (lon + 180)) * 7], so that the
    writes of records of the loops are, in this order, those of the cells
    at their addresses; a run that leaves the program has written the
    records of the first cells of the order. *)
Theorem cells_in_map_order (E : externals) (resolution num_threads : Z) (w : world) :
  Z.of_nat (length cell_order) = 64800 /\
  (forall lat lon, -90 <= lat < 90 -> -180 <= lon < 180 ->
     nth (Z.to_nat ((lat + 90) * 360 + (lon + 180))) cell_order (0, 0) = (lat, lon) /\
     map_address lat lon = 16384 + ((lat + 90) * 360 + (lon + 180)) * 7) /\
  match cells E resolution num_threads w with
  | Normal _ w' =>
      record_writes (log w')
      = record_writes (log w) ++ map (fun c => map_address (fst c) (snd c)) cell_order
  | Exited _ w' =>
      exists rest,
        record_writes (log w) ++ map (fun c => map_address (fst c) (snd c)) cell_order
        = record_writes (log w') ++ rest
  end.
Proof.
  split; [exact length_cell_order |]. split.
  - intros lat lon Hlat Hlon. split; [now apply cell_order_index |].
    apply (map_address_in_map lat lon Hlat Hlon).
  - rewrite <- cell_order_addresses. apply cells_record_writes.
Qed.

(** ** The rings of a shape file *)

Section ArrayAppend.

Context {A : Type}.

Lemma upd_last (l : list A) (a v : A) : upd (l ++ [a]) (length l) v = l ++ [v].
Proof. induction l as [|h t IH]; cbn; [reflexivity | now rewrite IH]. Qed.

Lemma aset_last (l : list A) (a v : A) (n : Z) :
  n = Z.of_nat (length l) -> aset (l ++ [a]) n v = l ++ [v].
Proof.
  intros ->. unfold aset. destruct (Z.ltb_spec (Z.of_nat (length l)) 0); [lia |].
  rewrite Nat2Z.id. apply upd_last.
Qed.

Lemma aget_last (d : A) (l : list A) (a : A) (n : Z) :
  n = Z.of_nat (length l) -> aget d (l ++ [a]) n = a.
Proof.
  intros ->. unfold aget. destruct (Z.ltb_spec (Z.of_nat (length l)) 0); [lia |].
  rewrite Nat2Z.id. rewrite app_nth2 by lia. now rewrite Nat.sub_diag.
Qed.

Lemma realloc_one_more (d : A) (l : list A) (n : Z) :
  n = Z.of_nat (length l) -> realloc d l (n + 1) = l ++ [d].
Proof.
  intros ->. unfold realloc.
  replace (Z.to_nat (Z.of_nat (length l) + 1)) with (Datatypes.S (length l)) by lia.
  rewrite firstn_all2 by lia.
  now replace (Datatypes.S (length l) - length l)%nat with 1%nat by lia.
Qed.

End ArrayAppend.

Section Rings.

Ltac array_side := rewrite ?length_map; lia.

Lemma start_ring (np : Z) (rx ry : list (list Q)) (x y : Q) :
  length ry = length rx ->
  np = Z.of_nat (length rx) ->
  let p := {| num_poly := np;
              poly_count := aset (realloc 0 (map (fun ring => Z.of_nat (length ring)) rx)
                                    (np + 1)) np 0;
              poly_x := aset (realloc [] rx (np + 1)) np [];
              poly_y := aset (realloc [] ry (np + 1)) np [] |} in
  let cnt := aget 0 (poly_count p) np in
  cnt = 0 /\
  aset (poly_count p) np (cnt + 1)
  = map (fun ring => Z.of_nat (length ring)) (rx ++ [[x]]) /\
  aset (poly_x p) np (aset (realloc 0%Q (aget [] (poly_x p) np) (cnt + 1)) cnt x)
  = rx ++ [[x]] /\
  aset (poly_y p) np (aset (realloc 0%Q (aget [] (poly_y p) np) (cnt + 1)) cnt y)
  = ry ++ [[y]].
Proof.
  intros Hlen Hnp p cnt. subst cnt p. cbn [poly_count poly_x poly_y].
  rewrite (realloc_one_more 0 _ np) by array_side.
  rewrite (realloc_one_more [] rx np) by array_side.
  rewrite (realloc_one_more [] ry np) by array_side.
  rewrite (aset_last _ 0 0 np) by array_side.
  rewrite (aset_last rx [] [] np) by array_side.
  rewrite (aset_last ry [] [] np) by array_side.
  rewrite (aget_last 0 _ 0 np) by array_side.
  rewrite (aget_last [] rx [] np) by array_side.
  rewrite (aget_last [] ry [] np) by array_side.
  change (realloc 0%Q [] (0 + 1)) with [0%Q]. change (aset [0%Q] 0 x) with [x].
  change (aset [0%Q] 0 y) with [y].
  rewrite (aset_last _ 0 (0 + 1) np) by array_side.
  rewrite (aset_last rx [] [x] np) by array_side.
  rewrite (aset_last ry [] [y] np) by array_side.
  split; [reflexivity |]. rewrite map_app. repeat split.
Qed.

Lemma grow_ring (np : Z) (rx ry : list (list Q)) (a b : list Q) (x y : Q) :
  length ry = length rx -> length b = length a ->
  np = Z.of_nat (length rx) ->
  let pc := map (fun ring => Z.of_nat (length ring)) (rx ++ [a]) in
  let cnt := aget 0 pc np in
  aset pc np (cnt + 1) = map (fun ring => Z.of_nat (length ring)) (rx ++ [a ++ [x]]) /\
  aset (rx ++ [a]) np (aset (realloc 0%Q (aget [] (rx ++ [a]) np) (cnt + 1)) cnt x)
  = rx ++ [a ++ [x]] /\
  aset (ry ++ [b]) np (aset (realloc 0%Q (aget [] (ry ++ [b]) np) (cnt + 1)) cnt y)
  = ry ++ [b ++ [y]].
Proof.
  intros Hlen Hab Hnp pc cnt. subst cnt pc. rewrite !map_app. cbn [map].
  rewrite (aget_last 0 _ _ np) by array_side.
  rewrite (aget_last [] rx a np) by array_side.
  rewrite (aget_last [] ry b np) by array_side.
  rewrite (realloc_one_more 0%Q a) by reflexivity.
  rewrite (realloc_one_more 0%Q b) by lia.
  rewrite (aset_last a 0%Q x) by reflexivity.
  rewrite (aset_last b 0%Q y) by lia.
  rewrite (aset_last _ _ _ np) by array_side.
  rewrite (aset_last rx _ _ np) by array_side.
  rewrite (aset_last ry _ _ np) by array_side.
  rewrite length_app. cbn [length].
  replace (Z.of_nat (length a + 1)) with (Z.of_nat (length a) + 1) by lia.
  repeat split.
Qed.

(** A vertex that starts a ring. *)
Lemma load_vertex_starts (shape : SHPObject) (j numParts : Z)
    (rx ry : list (list Q)) :
  let next := (numParts <? nParts shape)
              && (aget 0 (panPartStart shape) numParts =? j) in
  ((j =? 0) && (0 <? nParts shape)) || next = true ->
  length ry = length rx ->
  load_vertex shape j (Some (numParts, polygons_of (-1) rx ry))
  = Some (if next then numParts + 1 else numParts,
          polygons_of (-1) (rx ++ [[aget 0%Q (padfX shape) j]])
            (ry ++ [[aget 0%Q (padfY shape) j]])).
Proof.
  intros next Hstart Hlen. unfold load_vertex. fold next.
  assert (Hseg : (let '(start_segment, numParts0) :=
                    if next then (true, numParts + 1)
                    else ((j =? 0) && (0 <? nParts shape), numParts) in
                  (start_segment, numParts0))
                 = (true, if next then numParts + 1 else numParts)).
  { destruct next; [reflexivity |]. rewrite orb_false_r in Hstart. now rewrite Hstart. }
  destruct (if next then (true, numParts + 1)
            else ((j =? 0) && (0 <? nParts shape), numParts)) as [seg parts].
  injection Hseg as -> ->.
  unfold polygons_of. cbn [num_poly poly_count poly_x poly_y].
  replace (Z.of_nat (length rx) + -1 + 1) with (Z.of_nat (length rx)) by lia.
  destruct (Z.ltb_spec (Z.of_nat (length rx)) 0); [lia |].
  destruct (start_ring (Z.of_nat (length rx)) rx ry (aget 0%Q (padfX shape) j)
              (aget 0%Q (padfY shape) j) Hlen eq_refl) as (Hcnt & Hpc & Hx & Hy).
  cbn [poly_count poly_x poly_y] in Hcnt, Hpc, Hx, Hy.
  rewrite Hpc, Hx, Hy. f_equal. f_equal. f_equal.
  rewrite length_app. cbn [length]. lia.
Qed.

(** A vertex that goes on with the ring. *)
Lemma load_vertex_grows (shape : SHPObject) (j numParts : Z)
    (rx ry : list (list Q)) (a b : list Q) :
  (j =? 0) && (0 <? nParts shape) = false ->
  (numParts <? nParts shape) && (aget 0 (panPartStart shape) numParts =? j) = false ->
  length ry = length rx -> length b = length a ->
  load_vertex shape j (Some (numParts, polygons_of (-1) (rx ++ [a]) (ry ++ [b])))
  = Some (numParts,
          polygons_of (-1) (rx ++ [a ++ [aget 0%Q (padfX shape) j]])
            (ry ++ [b ++ [aget 0%Q (padfY shape) j]])).
Proof.
  intros Hfirst Hnext Hlen Hab. unfold load_vertex. rewrite Hfirst, Hnext.
  unfold polygons_of. cbn [num_poly poly_count poly_x poly_y].
  rewrite !length_app. cbn [length].
  replace (Z.of_nat (length rx + 1) + -1) with (Z.of_nat (length rx)) by lia.
  destruct (Z.ltb_spec (Z.of_nat (length rx)) 0); [lia |].
  destruct (grow_ring (Z.of_nat (length rx)) rx ry a b (aget 0%Q (padfX shape) j)
              (aget 0%Q (padfY shape) j) Hlen Hab eq_refl) as (Hpc & Hx & Hy).
  cbv zeta in Hpc, Hx, Hy. rewrite Hpc, Hx, Hy. reflexivity.
Qed.

End Rings.

Lemma range_snoc (a : Z) (n : nat) :
  range a (Datatypes.S n) = range a n ++ [a + Z.of_nat n].
Proof. unfold range. now rewrite seq_S, map_app. Qed.

Lemma slice_snoc (coords : list Q) (a j : Z) :
  a <= j -> slice coords a (j + 1) = slice coords a j ++ [aget 0%Q coords j].
Proof.
  intros H. unfold slice.
  replace (Z.to_nat (j + 1 - a)) with (Datatypes.S (Z.to_nat (j - a))) by lia.
  rewrite range_snoc, map_app. cbn [map]. do 3 f_equal. lia.
Qed.

Lemma slice_one (coords : list Q) (j : Z) :
  slice coords j (j + 1) = [aget 0%Q coords j].
Proof.
  unfold slice. replace (Z.to_nat (j + 1 - j)) with 1%nat by lia.
  cbn. now rewrite Z.add_0_r.
Qed.

Lemma length_slice (xs ys : list Q) (a b : Z) :
  length (slice ys a b) = length (slice xs a b).
Proof. unfold slice. now rewrite !length_map. Qed.

Lemma indices_snoc (k : Z) : 0 <= k -> indices (k + 1) = indices k ++ [k].
Proof.
  intros H. unfold indices.
  replace (Z.to_nat (k + 1)) with (Datatypes.S (Z.to_nat k)) by lia.
  rewrite seq_S, map_app. cbn [map Nat.add]. do 2 f_equal. lia.
Qed.

Lemma In_indices (n v : Z) : 0 <= v < n -> In v (indices n).
Proof.
  intros H. unfold indices. apply in_map_iff. exists (Z.to_nat v).
  split; [lia |]. apply in_seq. lia.
Qed.

Lemma parts_in_order_spec (shape : SHPObject) :
  parts_in_order shape = true ->
  0 < nParts shape /\ aget 0 (panPartStart shape) 0 = 0 /\
  forall k, 0 <= k < nParts shape ->
            aget 0 (panPartStart shape) k < part_end shape k <= nVertices shape.
Proof.
  unfold parts_in_order. intros H.
  apply andb_true_iff in H as (H & Hall). apply andb_true_iff in H as (Hn & H0).
  split; [lia |]. split; [lia |]. intros k Hk.
  rewrite forallb_forall in Hall. specialize (Hall k (In_indices _ _ Hk)).
  apply andb_true_iff in Hall. lia.
Qed.

Section ShapeRings.

Variable shape : SHPObject.
Hypothesis Hparts : parts_in_order shape = true.
Hypothesis Hvertices : 2 <= nVertices shape.

Variables rx0 ry0 : list (list Q).
Hypothesis Hlen0 : length ry0 = length rx0.

Local Notation "'start' k" := (aget 0 (panPartStart shape) k) (at level 10, k at level 9).

Let done_rings (coords : list Q) (m : Z) : list (list Q) :=
  map (fun k => slice coords (start k) (part_end shape k)) (indices (m - 1)).

(** The state of the loop over the vertices before vertex [j]: [m] parts
    are started, and the last one holds its vertices up to [j]. *)
Let loading (j : Z) (st : option (Z * polygons)) : Prop :=
  (j = 0 /\ st = Some (1, polygons_of (-1) rx0 ry0)) \/
  exists m,
    1 <= m <= nParts shape /\ 1 <= j /\ start (m - 1) < j /\
    (m < nParts shape -> j <= start m) /\
    st = Some (m, polygons_of (-1)
                    ((rx0 ++ done_rings (padfX shape) m)
                     ++ [slice (padfX shape) (start (m - 1)) j])
                    ((ry0 ++ done_rings (padfY shape) m)
                     ++ [slice (padfY shape) (start (m - 1)) j])).

Lemma length_done_rings (m : Z) :
  length (ry0 ++ done_rings (padfY shape) m) = length (rx0 ++ done_rings (padfX shape) m).
Proof. unfold done_rings. rewrite !length_app, !length_map. lia. Qed.

Lemma done_rings_next (coords : list Q) (m : Z) :
  1 <= m ->
  done_rings coords (m + 1)
  = done_rings coords m ++ [slice coords (start (m - 1)) (part_end shape (m - 1))].
Proof.
  intros Hm. unfold done_rings.
  replace (m + 1 - 1) with (m - 1 + 1) by lia.
  rewrite indices_snoc by lia. now rewrite map_app.
Qed.

Lemma loading_step (j : Z) (st : option (Z * polygons)) :
  0 <= j < nVertices shape -> loading j st -> loading (j + 1) (load_vertex shape j st).
Proof.
  intros Hj Hst.
  destruct (parts_in_order_spec shape Hparts) as (Hn & Hs0 & Hord).
  destruct Hst as [(-> & ->)|(m & Hm & Hj1 & Hlo & Hhi & ->)].
  - right. exists 1.
    assert (Hnext : (1 <? nParts shape) && (aget 0 (panPartStart shape) 1 =? 0) = false).
    { destruct (Z.ltb_spec 1 (nParts shape)) as [H1|H1]; [| reflexivity].
      pose proof (Hord 0 ltac:(lia)) as H0. unfold part_end in H0.
      destruct (Z.ltb_spec (0 + 1) (nParts shape)); [| lia].
      change (0 + 1) with 1 in H0.
      cbn [andb]. apply Z.eqb_neq. lia. }
    rewrite load_vertex_starts.
    2: { cbv zeta. rewrite Hnext. cbn [Z.eqb andb orb].
         destruct (Z.ltb_spec 0 (nParts shape)); [reflexivity | lia]. }
    2: exact Hlen0.
    cbv zeta. rewrite Hnext.
    split; [lia |]. split; [lia |]. change (1 - 1) with 0. rewrite Hs0.
    split; [lia |]. split.
    + intros H1. pose proof (Hord 0 ltac:(lia)) as H0. unfold part_end in H0.
      destruct (Z.ltb_spec (0 + 1) (nParts shape)); [| lia].
      change (0 + 1) with 1 in *. lia.
    + unfold done_rings. change (indices (1 - 1)) with (@nil Z). cbn [map].
      rewrite !app_nil_r. now rewrite !slice_one.
  - right.
    assert (Hfirst : (j =? 0) && (0 <? nParts shape) = false).
    { destruct (Z.eqb_spec j 0); [lia | reflexivity]. }
    destruct ((m <? nParts shape) && (aget 0 (panPartStart shape) m =? j)) eqn:Hnext.
    + apply andb_true_iff in Hnext as (Hmn & Heq).
      apply Z.ltb_lt in Hmn. apply Z.eqb_eq in Heq.
      exists (m + 1).
      rewrite load_vertex_starts.
      2: { cbv zeta. rewrite Heq, Z.eqb_refl.
           destruct (Z.ltb_spec m (nParts shape)); [| lia].
           now rewrite orb_true_r. }
      2: { rewrite (length_app (ry0 ++ _)), (length_app (rx0 ++ _)), length_done_rings.
           reflexivity. }
      cbv zeta. rewrite Heq, Z.eqb_refl.
      destruct (Z.ltb_spec m (nParts shape)); [| lia]. cbn [andb].
      replace (m + 1 - 1) with m by lia.
      split; [lia |]. split; [lia |]. split; [lia |]. split.
      * intros Hm1. pose proof (Hord m ltac:(lia)) as H0. unfold part_end in H0.
        destruct (Z.ltb_spec (m + 1) (nParts shape)); [| lia].
        lia.
      * rewrite !done_rings_next by lia.
        assert (Hend : part_end shape (m - 1) = j).
        { unfold part_end. replace (m - 1 + 1) with m by lia.
          destruct (Z.ltb_spec m (nParts shape)); [| lia]. exact Heq. }
        rewrite Hend, Heq, !slice_one. rewrite <- !app_assoc. reflexivity.
    + exists m.
      rewrite load_vertex_grows;
        [| exact Hfirst | exact Hnext | apply length_done_rings | apply length_slice].
      split; [lia |]. split; [lia |]. split; [lia |]. split.
      * intros Hmn. specialize (Hhi Hmn).
        apply andb_false_iff in Hnext as [Hnext|Hnext].
        -- apply Z.ltb_ge in Hnext. lia.
        -- apply Z.eqb_neq in Hnext. lia.
      * rewrite !slice_snoc by lia. reflexivity.
Qed.

(** The rings of the shape are added to those loaded before. *)
Lemma load_shape_rings :
  load_shape shape (Some (polygons_of (-1) rx0 ry0))
  = Some (polygons_of (-1) (rx0 ++ parts_of padfX shape) (ry0 ++ parts_of padfY shape)).
Proof.
  destruct (parts_in_order_spec shape Hparts) as (Hn & Hs0 & Hord).
  unfold load_shape. destruct (Z.leb_spec 2 (nVertices shape)); [| lia].
  cbn [option_map].
  assert (Hend : loading (nVertices shape)
                   (for_loop 0 (nVertices shape) (load_vertex shape)
                      (Some (1, polygons_of (-1) rx0 ry0)))).
  { apply (for_loop_inv loading); [lia | left; now split |].
    intros j st Hj Hst. now apply loading_step. }
  destruct Hend as [(H0 & _)|(m & Hm & _ & Hlo & Hhi & ->)]; [lia |].
  assert (m = nParts shape).
  { destruct (Z.eq_dec m (nParts shape)) as [|Hne]; [assumption |].
    pose proof (Hord m ltac:(lia)). specialize (Hhi ltac:(lia)). lia. }
  subst m. cbn [option_map snd]. unfold parts_of.
  destruct (Z.leb_spec 2 (nVertices shape)); [| lia].
  replace (indices (nParts shape)) with (indices (nParts shape - 1 + 1))
    by (f_equal; lia).
  rewrite indices_snoc by lia. rewrite !map_app. cbn [map].
  assert (Hlast : part_end shape (nParts shape - 1) = nVertices shape).
  { unfold part_end. destruct (Z.ltb_spec (nParts shape - 1 + 1) (nParts shape)); [lia |].
    reflexivity. }
  rewrite Hlast. unfold done_rings. rewrite <- !app_assoc. reflexivity.
Qed.

End ShapeRings.

Lemma load_shape_parts (shape : SHPObject) (rx ry : list (list Q)) :
  (nVertices shape <? 2) || parts_in_order shape = true ->
  length ry = length rx ->
  load_shape shape (Some (polygons_of (-1) rx ry))
  = Some (polygons_of (-1) (rx ++ parts_of padfX shape) (ry ++ parts_of padfY shape)).
Proof.
  intros Hshape Hlen.
  destruct (Z.ltb_spec (nVertices shape) 2) as [Hfew|Hmany].
  - unfold load_shape, parts_of.
    destruct (Z.leb_spec 2 (nVertices shape)); [lia |]. now rewrite !app_nil_r.
  - cbn [orb] in Hshape. now apply load_shape_rings.
Qed.

Lemma length_parts_of (shape : SHPObject) :
  length (parts_of padfY shape) = length (parts_of padfX shape).
Proof.
  unfold parts_of. destruct (2 <=? nVertices shape); [| reflexivity].
  now rewrite !length_map.
Qed.

Lemma firstn_snoc {A : Type} (d : A) (l : list A) (i : Z) :
  0 <= i < Z.of_nat (length l) ->
  firstn (Z.to_nat (i + 1)) l = firstn (Z.to_nat i) l ++ [aget d l i].
Proof.
  intros Hi. unfold aget. destruct (Z.ltb_spec i 0); [lia |].
  replace (Z.to_nat (i + 1)) with (Datatypes.S (Z.to_nat i)) by lia.
  assert (Hn : (Z.to_nat i < length l)%nat) by lia.
  revert Hn. generalize (Z.to_nat i) as n. clear.
  induction l as [|h t IH]; intros n Hn; [cbn in Hn; lia |].
  destruct n as [|n]; [reflexivity |].
  cbn [firstn nth app]. f_equal. apply IH. cbn in Hn. lia.
Qed.

(** The loop over the shapes of a file, when the parts of every shape are
    in order. *)
Lemma load_polygons_parts (shapes : list SHPObject) :
  forallb (fun shape => (nVertices shape <? 2) || parts_in_order shape) shapes = true ->
  load_polygons shapes
  = Some (polygons_of 0 (flat_map (parts_of padfX) shapes)
            (flat_map (parts_of padfY) shapes)).
Proof.
  intros Hall. rewrite forallb_forall in Hall. unfold load_polygons.
  assert (Hloop :
            for_loop 0 (Z.of_nat (length shapes))
              (fun i p => load_shape (aget no_shape shapes i) p) (Some no_polygons)
            = Some (polygons_of (-1) (flat_map (parts_of padfX) shapes)
                      (flat_map (parts_of padfY) shapes))).
  { set (rings := fun coords (i : Z) =>
                    flat_map (parts_of coords) (firstn (Z.to_nat i) shapes)).
    assert (Hinv : for_loop 0 (Z.of_nat (length shapes))
                     (fun i p => load_shape (aget no_shape shapes i) p)
                     (Some no_polygons)
                   = Some (polygons_of (-1) (rings padfX (Z.of_nat (length shapes)))
                             (rings padfY (Z.of_nat (length shapes))))
                   /\ length (rings padfY (Z.of_nat (length shapes)))
                      = length (rings padfX (Z.of_nat (length shapes)))).
    { apply (for_loop_inv
               (fun i st => st = Some (polygons_of (-1) (rings padfX i) (rings padfY i))
                            /\ length (rings padfY i) = length (rings padfX i)));
        [lia | split; reflexivity |].
      intros i st Hi (-> & Hlen).
      assert (Hin : In (aget no_shape shapes i) shapes).
      { unfold aget. destruct (Z.ltb_spec i 0); [lia |]. apply nth_In. lia. }
      rewrite load_shape_parts by (auto using Hall).
      unfold rings. rewrite (firstn_snoc no_shape) by lia.
      rewrite !flat_map_app. cbn [flat_map]. rewrite !app_nil_r.
      split; [reflexivity |].
      rewrite !length_app, length_parts_of. unfold rings in Hlen. now rewrite Hlen. }
    destruct Hinv as (Hinv & _). rewrite Hinv. unfold rings.
    rewrite Nat2Z.id, firstn_all. reflexivity. }
  rewrite Hloop. cbn [option_map]. unfold polygons_of.
  cbn [num_poly poly_count poly_x poly_y]. do 2 f_equal. lia.
Qed.

(** The rings that [main] loads from a shape file whose shapes have their
    parts in order are the parts of the shapes, one ring for each part, in
    the order of the file; a shape of fewer than two vertices gives no
    ring. *)
Theorem rings_are_parts (shapes : list SHPObject) :
  forallb (fun shape => (nVertices shape <? 2) || parts_in_order shape) shapes = true ->
  load_polygons shapes
  = Some (polygons_of 0 (flat_map (parts_of padfX) shapes)
            (flat_map (parts_of padfY) shapes)).
Proof. exact (load_polygons_parts shapes). Qed.

Lemma rings_are_parts_witness :
  forallb (fun shape => (nVertices shape <? 2) || parts_in_order shape)
    [square_ring; lone_vertex] = true /\
  load_polygons [square_ring; lone_vertex]
  = Some (polygons_of 0 [padfX square_ring] [padfY square_ring]).
Proof.
  split; [reflexivity |].
  exact (rings_are_parts [square_ring; lone_vertex] eq_refl).
Defined.

(** ** A run beyond what [int32_t] holds *)

Lemma cell_of_index_cell (lat lon : Z) :
  -90 <= lat < 90 -> -180 <= lon < 180 ->
  cell_of_index ((lat + 90) * 360 + (lon + 180)) = (lat, lon).
Proof.
  intros Hlat Hlon. unfold cell_of_index.
  f_equal; Z.to_euclidean_division_equations; lia.
Qed.

Lemma forallb_flat_map {A B : Type} (f : B -> bool) (g : A -> list B) (l : list A) :
  (forall x, forallb f (g x) = true) -> forallb f (flat_map g l) = true.
Proof.
  intros H. induction l as [|x l IH]; [reflexivity |].
  cbn [flat_map]. now rewrite forallb_app, H, IH.
Qed.

Lemma noise_shapes_in_order (lat lon : Z) :
  forallb (fun shape => (nVertices shape <? 2) || parts_in_order shape)
    (noise_shapes lat lon) = true.
Proof.
  unfold noise_shapes. apply forallb_flat_map. intros k.
  destruct (Z.odd (noise k)); reflexivity.
Qed.

Section NoisyRun.

Variable size : Z.
Hypothesis Hsize : 33135 <= size <= 1620506.

Let E : externals := noisy_externals size.

Lemma noisy_contract : zlib_contract E.
Proof.
  intros capacity source sourceLen level n out_size out_buf H Hn.
  cbn [compress2 E noisy_externals] in H. unfold deflated in H.
  destruct (Z.ltb_spec 0 size), (Z.leb_spec size capacity); cbn [andb] in H;
    injection H as <- <- <-; first [lia | discriminate].
Qed.

Lemma noisy_cell (lat lon : Z) (w : world) :
  cell E 1 4 lat lon w
  = Normal tt (after_cell_with_file w 1 4 lat lon 0 size (calloc size)).
Proof.
  rewrite (cell_found E 1 4 lat lon 0) by reflexivity.
  apply cell_with_file_stored
    with (shapes := noise_shapes lat lon)
         (p := polygons_of 0 (flat_map (parts_of padfX) (noise_shapes lat lon))
                 (flat_map (parts_of padfY) (noise_shapes lat lon)));
    [reflexivity | apply load_polygons_parts, noise_shapes_in_order |].
  unfold cell_compress. cbn [compress2 E noisy_externals]. unfold deflated.
  change (out_capacity (bit_block_size (point_count 1))) with 1782100.
  destruct (Z.ltb_spec 0 size); [| lia].
  destruct (Z.leb_spec size 1782100); [| lia]. reflexivity.
Qed.

Lemma noisy_cells_bounds :
  let K := noisy_cells size in
  1 <= K <= 64797 /\
  INT32_MAX < MAP_END + K * size < 2 ^ 32 /\
  forall k, 0 <= k < K -> MAP_END + k * size <= INT32_MAX.
Proof.
  unfold noisy_cells.
  assert (HME : MAP_END = 469984) by reflexivity.
  assert (HMAX : INT32_MAX = 2147483647) by reflexivity.
  rewrite HME, HMAX. change (2 ^ 32) with 4294967296.
  pose proof (Z.div_mod (2147483647 - 469984) size ltac:(lia)) as Hdiv.
  pose proof (Z.mod_pos_bound (2147483647 - 469984) size ltac:(lia)) as Hmod.
  set (q := (2147483647 - 469984) / size) in *.
  assert (Hq : 0 <= q <= 64796) by nia.
  split; [lia |]. split; [nia |]. intros k Hk. nia.
Qed.

Lemma noisy_step (lat lon : Z) (w : world) :
  -90 <= lat < 90 -> -180 <= lon < 180 ->
  noisy_state size ((lat + 90) * 360 + (lon + 180)) w ->
  noisy_state size ((lat + 90) * 360 + (lon + 180) + 1)
    (after_cell_with_file w 1 4 lat lon 0 size (calloc size)).
Proof.
  intros Hlat Hlon (Hbuf & Hfs & _).
  set (k := (lat + 90) * 360 + (lon + 180)) in *.
  assert (Hk : 0 <= k < 64800) by (subst k; lia).
  destruct noisy_cells_bounds as (HK & Hover & Hunder).
  assert (HME : MAP_END = 469984) by reflexivity.
  assert (HMAX : INT32_MAX = 2147483647) by reflexivity.
  change (2 ^ 32) with 4294967296 in Hover.
  assert (Hcell : cell_of_index (k + 1 - 1) = (lat, lon)).
  { replace (k + 1 - 1) with k by lia. subst k. now apply cell_of_index_cell. }
  unfold noisy_state. rewrite Hcell. cbn [fst snd]. unfold noisy_size in *.
  set (K := noisy_cells size) in *.
  destruct (Z_lt_le_dec k K) as [Hlow|Hhigh].
  - rewrite Z.min_l in Hfs by lia. specialize (Hunder k ltac:(lia)).
    destruct (after_cell_with_file_file lat lon Hlat Hlon w 1 4 0 size
                (calloc size) Hbuf)
      as (Hfs' & Hmb & _); [lia | lia |].
    split; [rewrite Hmb; now apply length_block_record |].
    split; [rewrite Z.min_l by lia; lia | lia].
  - rewrite Z.min_r in Hfs by lia.
    destruct (after_cell_with_file_beyond lat lon Hlat Hlon w 1 4 0 size
                (calloc size) Hbuf)
      as (Hfs' & Hmb & Hrec & _).
    + rewrite Hfs. change (2 ^ 32) with 4294967296. lia.
    + lia.
    + destruct (map_address_in_map lat lon Hlat Hlon) as (_ & _ & Hhi). lia.
    + split; [rewrite Hmb; now apply length_block_record |].
      rewrite Z.min_r by lia.
      split; [lia |]. intros _. rewrite Hrec. split.
      * rewrite block_record_code by exact Hbuf.
        rewrite to_int32_code by (rewrite Hfs; change (2 ^ 32) with 4294967296; lia).
        exact Hfs.
      * rewrite block_record_size by exact Hbuf.
        apply Z.mod_small. change (2 ^ 24) with 16777216. lia.
Qed.

Lemma noisy_loops (w : world) :
  noisy_state size 0 w ->
  exists w', cells E 1 4 w = Normal tt w' /\ noisy_state size 64800 w'.
Proof.
  intros Hstart. unfold cells.
  destruct (for_loopM_runs
              (fun lat (_ : unit) u => noisy_state size ((lat + 90) * 360) u)
              (fun lat (_ : unit) =>
                 for_loopM (-180) 180 (fun lon (_ : unit) => cell E 1 4 lat lon) tt)
              (-90) 90 tt w ltac:(lia))
    as ([] & w' & Hrun & Hend).
  - intros lat [] u. unfold for_loopM. apply for_upM_total.
    intros lon [] v. rewrite noisy_cell. eexists; eexists; reflexivity.
  - exact Hstart.
  - intros lat [] u [] u' Hlat Hu Hrow.
    replace ((lat + 1 + 90) * 360) with ((lat + 90) * 360 + (180 + 180)) by lia.
    apply (for_loopM_inv
             (fun lon (_ : unit) v => noisy_state size ((lat + 90) * 360 + (lon + 180)) v))
      in Hrow; [exact Hrow | lia | |].
    + now replace ((lat + 90) * 360 + (-180 + 180)) with ((lat + 90) * 360) by lia.
    + intros lon [] v [] v' Hlon Hv Hcell. rewrite noisy_cell in Hcell.
      injection Hcell as <-.
      replace ((lat + 90) * 360 + (lon + 1 + 180))
        with ((lat + 90) * 360 + (lon + 180) + 1) by lia.
      now apply noisy_step.
  - exists w'. split; [exact Hrun | exact Hend].
Qed.

Lemma noisy_header_size :
  fsize (ofp (world_of (write_header E 1 initial_world))) = SWBD_MASK_HEADER_SIZE.
Proof. vm_compute. reflexivity. Qed.

Lemma noisy_main :
  exists w, main E noisy_argv = Normal 0 w /\ noisy_state size 64800 w.
Proof.
  unfold main.
  change (configure E noisy_argv) with (@inr diagnostic _ (1, 4)).
  cbn [ofile_fopen E noisy_externals]. rewrite build_steps.
  assert (Hstart : fpos (ofp initial_world) = fsize (ofp initial_world)) by reflexivity.
  assert (Hzero : 0 <= fsize (ofp initial_world)) by (cbn; lia).
  destruct (write_header_runs E 1 initial_world Hstart Hzero) as (wh & Hh & Hend & _).
  pose proof noisy_header_size as Hhs. rewrite Hh in Hhs |- *. cbn [world_of] in Hhs.
  destruct (write_empty_map_runs wh Hend) as (w1 & Hm & Hbuf & Hsize1).
  rewrite Hm.
  destruct noisy_cells_bounds as (HK & _).
  destruct (noisy_loops w1) as (w2 & Hcells & Hstate).
  - split; [exact Hbuf |]. split; [| lia].
    rewrite Hsize1, Hhs. unfold noisy_size. rewrite Z.min_l by lia. reflexivity.
  - rewrite Hcells. exists w2. split; [reflexivity | exact Hstate].
Qed.

End NoisyRun.

(** *** The bits of a noisy cell *)

Lemma indices_range (n v : Z) : In v (indices n) -> 0 <= v < n.
Proof.
  unfold indices. intros H. apply in_map_iff in H as (k & <- & Hk).
  apply in_seq in Hk. lia.
Qed.

Lemma Qle_bool_spec (a b : Q) : BoolSpec (a <= b)%Q (b < a)%Q (Qle_bool a b).
Proof.
  destruct (Qle_bool a b) eqn:H; constructor.
  - now apply Qle_bool_iff.
  - apply Qnot_le_lt. intros Hle. apply Qle_bool_iff in Hle. congruence.
Qed.

Lemma Qlt_bool_spec (a b : Q) : BoolSpec (a < b)%Q (b <= a)%Q (Qlt_bool a b).
Proof.
  unfold Qlt_bool. destruct (Qle_bool_spec b a); constructor; assumption.
Qed.

Lemma for_loop_five {S : Type} (body : Z -> S -> S) (s : S) :
  for_loop 0 5 body s = body 4 (body 3 (body 2 (body 1 (body 0 s)))).
Proof. reflexivity. Qed.

Lemma crossing_number_steps (poly_x poly_y : list Q) (x y : Q) :
  let edge := fun i j =>
    let xi := aget 0%Q poly_x i in
    let yi := aget 0%Q poly_y i in
    let xj := aget 0%Q poly_x j in
    let yj := aget 0%Q poly_y j in
    ((Qle_bool yi y && Qlt_bool y yj) || (Qle_bool yj y && Qlt_bool y yi))
    && Qlt_bool x ((xj - xi) * (y - yi) / (yj - yi) + xi)%Q in
  let turn := fun i j (c : Z) => if edge i j then 1 - c else c in
  crossing_number poly_x poly_y 5 x y
  = turn 4 3 (turn 3 2 (turn 2 1 (turn 1 0 (turn 0 4 0)))).
Proof.
  intros edge turn. unfold crossing_number.
  change (5 - 1) with 4.
  match goal with
  | |- snd (for_loop 0 5 ?f _) = _ => set (body := f)
  end.
  rewrite for_loop_five.
  assert (Hstep : forall i j c, body i (j, c) = (i, turn i j c)).
  { intros i j c. unfold body, turn, edge. cbv zeta.
    destruct (_ && _); reflexivity. }
  now rewrite !Hstep.
Qed.

(** The crossing-number test on the ring of the rectangle from [a] to [b]
    and from [c] to [d]. *)
Lemma crossing_number_square (a b c d x y : Q) :
  (a < b)%Q -> (c < d)%Q ->
  crossing_number [a; b; b; a; a] [c; c; d; d; c] 5 x y
  = if Qle_bool c y && Qlt_bool y d && Qle_bool a x && Qlt_bool x b then 1 else 0.
Proof.
  intros Hab Hcd. rewrite crossing_number_steps.
  cbv beta iota zeta delta [aget nth Z.ltb Z.compare Z.to_nat Pos.to_nat Pos.iter_op
                            Init.Nat.add].
  assert (Hb : ((b - b) * (y - d) / (c - d) + b == b)%Q).
  { unfold Qdiv. ring. }
  assert (Ha : ((a - a) * (y - c) / (d - c) + a == a)%Q).
  { unfold Qdiv. ring. }
  destruct (Qle_bool_spec c y), (Qlt_bool_spec y c), (Qle_bool_spec d y),
    (Qlt_bool_spec y d); cbn [andb orb]; try (exfalso; lra);
    destruct (Qlt_bool_spec x ((b - b) * (y - d) / (c - d) + b)),
      (Qlt_bool_spec x ((a - a) * (y - c) / (d - c) + a)),
      (Qle_bool_spec a x), (Qlt_bool_spec x b); cbn [andb orb];
    try reflexivity; exfalso; lra.
Qed.

(** The centre of a bin is within the quarter of a bin of the centre of
    its own bin only. *)
Lemma bin_centre_near (sw j j' : Z) :
  let x := bin_centre sw j 3600 in
  let cx := bin_centre sw j' 3600 in
  Qle_bool (cx - (1 # 14400)) x && Qlt_bool x (cx + (1 # 14400)) = (j =? j').
Proof.
  intros x cx. subst x cx. unfold bin_centre, Qdiv.
  change (/ inject_Z 3600)%Q with (1 # 3600)%Q.
  destruct (Z.eqb_spec j j') as [->|Hne].
  - destruct (Qle_bool_spec
                (inject_Z sw + (inject_Z j' + (1 # 2)) * (1 # 3600) - (1 # 14400))
                (inject_Z sw + (inject_Z j' + (1 # 2)) * (1 # 3600)));
      [| exfalso; lra].
    destruct (Qlt_bool_spec
                (inject_Z sw + (inject_Z j' + (1 # 2)) * (1 # 3600))
                (inject_Z sw + (inject_Z j' + (1 # 2)) * (1 # 3600) + (1 # 14400)));
      [reflexivity | exfalso; lra].
  - assert (Hcase : (inject_Z j + 1 <= inject_Z j')%Q \/ (inject_Z j' + 1 <= inject_Z j)%Q).
    { destruct (Z_lt_le_dec j j') as [Hlt|Hge].
      - left. change 1%Q with (inject_Z 1). rewrite <- inject_Z_plus.
        rewrite <- Zle_Qle. lia.
      - right. change 1%Q with (inject_Z 1). rewrite <- inject_Z_plus.
        rewrite <- Zle_Qle. lia. }
    destruct (Qle_bool_spec
                (inject_Z sw + (inject_Z j' + (1 # 2)) * (1 # 3600) - (1 # 14400))
                (inject_Z sw + (inject_Z j + (1 # 2)) * (1 # 3600)));
      cbn [andb]; [| reflexivity].
    destruct (Qlt_bool_spec
                (inject_Z sw + (inject_Z j + (1 # 2)) * (1 # 3600))
                (inject_Z sw + (inject_Z j' + (1 # 2)) * (1 # 3600) + (1 # 14400)));
      [exfalso; destruct Hcase; lra | reflexivity].
Qed.

(** The ring of a noisy cell holds the centre of its own bin and of no
    other bin. *)
Lemma noise_ring_test (lat lon i j i' j' : Z) :
  crossing_number (padfX (noise_ring lat lon i' j')) (padfY (noise_ring lat lon i' j')) 5
    (bin_centre lon j 3600) (bin_centre lat i 3600)
  = if (i =? i') && (j =? j') then 1 else 0.
Proof.
  unfold noise_ring. cbn [padfX padfY].
  rewrite crossing_number_square by lra.
  rewrite <- andb_assoc.
  rewrite (bin_centre_near lat i i'), (bin_centre_near lon j j'). reflexivity.
Qed.

Lemma noise_ring_parts (coords : SHPObject -> list Q) (lat lon i j : Z) :
  parts_of coords (noise_ring lat lon i j)
  = [slice (coords (noise_ring lat lon i j)) 0 5].
Proof. reflexivity. Qed.

Lemma rings_of_noise (coords : SHPObject -> list Q) (lat lon : Z) (l : list Z) :
  flat_map (parts_of coords)
    (flat_map (fun k => if Z.odd (noise k)
                        then [noise_ring lat lon (k / 3600) (k mod 3600)]
                        else []) l)
  = map (fun k => slice (coords (noise_ring lat lon (k / 3600) (k mod 3600))) 0 5)
      (filter (fun k => Z.odd (noise k)) l).
Proof.
  induction l as [|k l IH]; [reflexivity |].
  cbn [flat_map filter]. rewrite flat_map_app, IH.
  destruct (Z.odd (noise k)); [| reflexivity].
  cbn [flat_map map app]. rewrite noise_ring_parts. reflexivity.
Qed.

(** The rings that a test holds, counted by their indices or along the
    list that they were made from. *)
Lemma count_rings {K : Type} (L : list K) (fx fy : K -> list Q)
    (g : list Q -> list Q -> Z -> bool) :
  length (filter (fun r => g (aget [] (map fx L) r) (aget [] (map fy L) r)
                             (aget 0 (map (fun k => Z.of_nat (length (fx k))) L) r))
            (indices (Z.of_nat (length L))))
  = length (filter (fun k => g (fx k) (fy k) (Z.of_nat (length (fx k)))) L).
Proof.
  induction L as [|k L IH] using rev_ind; [reflexivity |].
  rewrite length_app. cbn [length].
  replace (Z.of_nat (length L + 1)) with (Z.of_nat (length L) + 1) by lia.
  rewrite indices_snoc by lia. rewrite !filter_app, !length_app, <- IH.
  f_equal.
  - f_equal. apply filter_ext_in. intros r Hr. apply indices_range in Hr.
    unfold aget. destruct (Z.ltb_spec r 0); [lia |].
    rewrite !map_app, !app_nth1 by (rewrite length_map; lia). reflexivity.
  - cbn [filter]. unfold aget. destruct (Z.ltb_spec (Z.of_nat (length L)) 0); [lia |].
    rewrite Nat2Z.id, !map_app.
    rewrite !app_nth2 by (rewrite length_map; lia).
    rewrite !length_map, Nat.sub_diag. cbn [map nth].
    destruct (g _ _ _); reflexivity.
Qed.

Lemma filter_both {A : Type} (f g : A -> bool) (l : list A) :
  filter g (filter f l) = filter (fun k => f k && g k) l.
Proof.
  induction l as [|k l IH]; [reflexivity |].
  cbn [filter]. destruct (f k); cbn [andb filter]; [| exact IH].
  destruct (g k); now rewrite IH.
Qed.

(** One index at most is equal to [k0]. *)
Lemma count_one (f : Z -> bool) (k0 n : Z) :
  0 <= n ->
  Z.of_nat (length (filter (fun k => f k && (k =? k0)) (indices n)))
  = if (0 <=? k0) && (k0 <? n) && f k0 then 1 else 0.
Proof.
  intros Hn. revert n Hn. apply natlike_ind.
  - change (indices 0) with (@nil Z). cbn [filter length Z.of_nat].
    destruct (Z.leb_spec 0 k0), (Z.ltb_spec k0 0); cbn [andb]; try reflexivity; lia.
  - intros n Hn IH. unfold Z.succ. rewrite indices_snoc by exact Hn.
    rewrite filter_app, length_app, Nat2Z.inj_add, IH. cbn [filter].
    destruct (Z.eqb_spec n k0) as [->|Hne].
    + destruct (Z.leb_spec 0 k0); [| lia].
      destruct (Z.ltb_spec k0 k0); [lia |].
      destruct (Z.ltb_spec k0 (k0 + 1)); [| lia].
      cbn [andb]. rewrite andb_true_r. destruct (f k0); reflexivity.
    + rewrite andb_false_r. cbn [length]. rewrite Z.add_0_r.
      destruct (Z.leb_spec 0 k0); cbn [andb]; [| reflexivity].
      destruct (Z.ltb_spec k0 n), (Z.ltb_spec k0 (n + 1)); cbn [andb];
        try reflexivity; lia.
Qed.

(** The flags of a noisy cell: the samples whose number has an odd
    [noise] are water, the others are land. *)
Lemma noisy_cell_flags (size lat lon i j : Z) :
  0 <= i < 3600 -> 0 <= j < 3600 ->
  let p := polygons_of 0 (flat_map (parts_of padfX) (noise_shapes lat lon))
             (flat_map (parts_of padfY) (noise_shapes lat lon)) in
  load_polygons (noise_shapes lat lon) = Some p /\
  aget 0 (fst (rasterize (noisy_externals size) 1 p lat lon 4)) (i * 3600 + j)
  = if Z.odd (noise (i * 3600 + j)) then NVFalse else NVTrue.
Proof.
  intros Hi Hj p.
  split; [apply load_polygons_parts, noise_shapes_in_order |].
  destruct (rasterize_block (noisy_externals size) 1 p lat lon 4 eq_refl eq_refl)
    as (_ & Hflags).
  change (point_count 1) with 3600 in Hflags. rewrite (Hflags i j Hi Hj).
  unfold sample_flag. f_equal.
  unfold rings_containing. subst p. unfold noise_shapes.
  set (all := indices (3600 * 3600)).
  rewrite !rings_of_noise.
  set (L := filter (fun k => Z.odd (noise k)) all).
  unfold polygons_of. cbn [num_poly poly_x poly_y poly_count inside_polygon2 noisy_externals].
  rewrite Z.add_0_r, map_map, length_map.
  rewrite (count_rings L
             (fun k => slice (padfX (noise_ring lat lon (k / 3600) (k mod 3600))) 0 5)
             (fun k => slice (padfY (noise_ring lat lon (k / 3600) (k mod 3600))) 0 5)
             (fun rx ry n => negb (crossing_number rx ry n
                                     (bin_centre lon j 3600) (bin_centre lat i 3600)
                                   =? 0))).
  unfold L. rewrite filter_both.
  rewrite (filter_ext_in _ (fun k => Z.odd (noise k) && (k =? i * 3600 + j))).
  - unfold all. rewrite count_one by lia.
    destruct (Z.leb_spec 0 (i * 3600 + j)); [| lia].
    destruct (Z.ltb_spec (i * 3600 + j) (3600 * 3600)); [| lia].
    cbn [andb]. destruct (Z.odd (noise (i * 3600 + j))); reflexivity.
  - intros k Hk. unfold all in Hk. apply indices_range in Hk. f_equal.
    change (slice (padfX (noise_ring lat lon (k / 3600) (k mod 3600))) 0 5)
      with (padfX (noise_ring lat lon (k / 3600) (k mod 3600))).
    change (slice (padfY (noise_ring lat lon (k / 3600) (k mod 3600))) 0 5)
      with (padfY (noise_ring lat lon (k / 3600) (k mod 3600))).
    change (Z.of_nat (length (padfX (noise_ring lat lon (k / 3600) (k mod 3600)))))
      with 5.
    rewrite noise_ring_test.
    destruct (Z.eqb_spec i (k / 3600)), (Z.eqb_spec j (k mod 3600)),
      (Z.eqb_spec k (i * 3600 + j)); cbn [andb negb Z.eqb]; try reflexivity;
      exfalso; Z.to_euclidean_division_equations; lia.
Qed.

(** The bits that [compress2] gets for a noisy cell: 1620000 bytes, of
    which bit [k] is set when [noise k] is even. *)
Lemma noisy_cell_bits (size lat lon k : Z) :
  0 <= k < 3600 * 3600 ->
  exists p,
    load_polygons (noise_shapes lat lon) = Some p /\
    Z.of_nat (length (cell_bits (noisy_externals size) 1 4 lat lon p)) = 1620000 /\
    get_bit (cell_bits (noisy_externals size) 1 4 lat lon p) k = negb (Z.odd (noise k)).
Proof.
  intros Hk.
  assert (Hi : 0 <= k / 3600 < 3600) by (Z.to_euclidean_division_equations; lia).
  assert (Hj : 0 <= k mod 3600 < 3600) by (Z.to_euclidean_division_equations; lia).
  assert (Hsplit : k / 3600 * 3600 + k mod 3600 = k)
    by (pose proof (Z.div_mod k 3600 ltac:(lia)); lia).
  destruct (noisy_cell_flags size lat lon (k / 3600) (k mod 3600) Hi Hj) as (Hp & Hflag).
  rewrite Hsplit in Hflag.
  eexists. split; [exact Hp |]. unfold cell_bits.
  change (point_count 1) with 3600.
  match goal with
  | |- context [bit_block ?b 3600] => destruct (bit_block_spec b 3600) as (Hlen & Hbits)
  end.
  split; [exact Hlen |]. rewrite Hbits by exact Hk. rewrite Hflag.
  destruct (Z.odd (noise k)); reflexivity.
Qed.

(** C5. The code breaks the directory once the file exceeds 2^31 - 1
    bytes. In the noisy run, whatever the size of the deflate stream of a
    block between 33135 bytes and the bound of zlib for a block of one
    arc-second (1620506 bytes), the run returns with a file beyond what
    [int32_t] holds: [block_address = ftell (ofp)] is then negative, the
    [fseek] to it is refused and not tested, and the block is written after
    the record instead of the end of the file. The record of the last cell
    holds the end of the file as its code, with the size of the block: the
    bytes that it tells of lie after the end of the file, and not within
    it as the claim has it. The block that [compress2] gets for every cell
    of this run is the noise itself, which deflate does not shrink: bit [k]
    of its 1620000 bytes is set when [noise k] is even. *)
Theorem noisy_run_breaks_directory (size : Z) :
  33135 <= size <= 1620506 ->
  zlib_contract (noisy_externals size) /\
  (forall lat lon k, 0 <= k < 3600 * 3600 ->
     exists p,
       load_polygons (noise_shapes lat lon) = Some p /\
       Z.of_nat (length (cell_bits (noisy_externals size) 1 4 lat lon p)) = 1620000 /\
       get_bit (cell_bits (noisy_externals size) 1 4 lat lon p) k
       = negb (Z.odd (noise k))) /\
  exists w,
    main (noisy_externals size) noisy_argv = Normal 0 w /\
    let f := ofp w in
    let code := record_code (record_at f 89 179) in
    let size' := record_size (record_at f 89 179) in
    INT32_MAX < fsize f /\ code = fsize f /\ size' = size /\
    ~ ((size' = 0 /\ (code = 0 \/ code = 1 \/ code = 2)) \/
       (MAP_END <= code /\ 0 < size' /\ code + size' <= fsize f)).
Proof.
  intros Hsize. split; [now apply noisy_contract |].
  split; [intros lat lon k Hk; now apply noisy_cell_bits |].
  destruct (noisy_main size Hsize) as (w & Hrun & _ & Hfs & Hlast).
  destruct (noisy_cells_bounds size Hsize) as (HK & Hover & _).
  exists w. split; [exact Hrun |]. cbv zeta.
  destruct (Hlast ltac:(lia)) as (Hcode & Hrsize).
  change (cell_of_index (64800 - 1)) with (89, 179) in Hcode, Hrsize.
  cbn [fst snd] in Hcode, Hrsize. rewrite Hcode, Hrsize, Hfs.
  unfold noisy_size. rewrite Z.min_r by lia.
  split; [lia |]. split; [reflexivity |]. split; [reflexivity |].
  intros [(H & _)|(_ & _ & H)]; lia.
Qed.

Lemma noisy_run_breaks_directory_witness :
  33135 <= 1620501 <= 1620506 /\
  exists w,
    main (noisy_externals 1620501) noisy_argv = Normal 0 w /\
    fsize (ofp w) = 2147633809 /\
    record_code (record_at (ofp w) 89 179) = 2147633809 /\
    record_size (record_at (ofp w) 89 179) = 1620501.
Proof.
  split; [lia |].
  destruct (noisy_run_breaks_directory 1620501 ltac:(lia))
    as (_ & _ & w & Hrun & _ & Hcode & Hsize & _).
  exists w. split; [exact Hrun |].
  destruct (noisy_main 1620501 ltac:(lia)) as (w' & Hrun' & _ & Hfs & _).
  assert (w' = w) by congruence. subst w'.
  change (noisy_size 1620501 64800) with 2147633809 in Hfs.
  rewrite Hcode, Hfs. split; [reflexivity |]. split; [reflexivity | exact Hsize].
Defined.

(** ** The search for the shape file *)

(** The six turns of the search, one after the other. *)
Lemma find_shp_unrolled (E : externals) (lat lon : Z) :
  find_shp E lat lon =
  if swbd_fopen E lat lon 0 then (true, 0)
  else if swbd_fopen E lat lon 1 then (true, 1)
  else if swbd_fopen E lat lon 2 then (true, 2)
  else if swbd_fopen E lat lon 3 then (true, 3)
  else if swbd_fopen E lat lon 4 then (true, 4)
  else if swbd_fopen E lat lon 5 then (true, 5)
  else (false, 0).
Proof.
  unfold find_shp, for_loop. change (Z.to_nat (6 - 0)) with 6%nat.
  cbn [for_up]. change (0 + 1) with 1. change (1 + 1) with 2.
  change (2 + 1) with 3. change (3 + 1) with 4. change (4 + 1) with 5.
  destruct (swbd_fopen E lat lon 0); [reflexivity |].
  destruct (swbd_fopen E lat lon 1); [reflexivity |].
  destruct (swbd_fopen E lat lon 2); [reflexivity |].
  destruct (swbd_fopen E lat lon 3); [reflexivity |].
  destruct (swbd_fopen E lat lon 4); [reflexivity |].
  destruct (swbd_fopen E lat lon 5); reflexivity.
Qed.

(** The search tries the data sets 0 to 5 (the letters a, e, f, i, n and
    s) in this order and stops at the first whose file exists: the data
    set that it returns is the first one that exists. The seventh letter
    of [dataset], x, is not tried. When no file exists the data set is
    left at 0. *)
Theorem first_data_set_found (E : externals) (lat lon : Z) :
  let found := fst (find_shp E lat lon) in
  let ds := snd (find_shp E lat lon) in
  if found
  then 0 <= ds < 6 /\ swbd_fopen E lat lon ds = true /\
       forall d, 0 <= d < ds -> swbd_fopen E lat lon d = false
  else ds = 0 /\ forall d, 0 <= d < 6 -> swbd_fopen E lat lon d = false.
Proof.
  cbv zeta. rewrite find_shp_unrolled.
  destruct (swbd_fopen E lat lon 0) eqn:H0; cbn [fst snd].
  { split; [lia |]. split; [exact H0 |]. intros d Hd. lia. }
  destruct (swbd_fopen E lat lon 1) eqn:H1; cbn [fst snd].
  { split; [lia |]. split; [exact H1 |]. intros d Hd.
    assert (d = 0) as -> by lia. exact H0. }
  destruct (swbd_fopen E lat lon 2) eqn:H2; cbn [fst snd].
  { split; [lia |]. split; [exact H2 |]. intros d Hd.
    assert (d = 0 \/ d = 1) as [-> | ->] by lia; assumption. }
  destruct (swbd_fopen E lat lon 3) eqn:H3; cbn [fst snd].
  { split; [lia |]. split; [exact H3 |]. intros d Hd.
    assert (d = 0 \/ d = 1 \/ d = 2) as [-> | [-> | ->]] by lia; assumption. }
  destruct (swbd_fopen E lat lon 4) eqn:H4; cbn [fst snd].
  { split; [lia |]. split; [exact H4 |]. intros d Hd.
    assert (d = 0 \/ d = 1 \/ d = 2 \/ d = 3) as [-> | [-> | [-> | ->]]] by lia;
      assumption. }
  destruct (swbd_fopen E lat lon 5) eqn:H5; cbn [fst snd].
  { split; [lia |]. split; [exact H5 |]. intros d Hd.
    assert (d = 0 \/ d = 1 \/ d = 2 \/ d = 3 \/ d = 4)
      as [-> | [-> | [-> | [-> | ->]]]] by lia; assumption. }
  split; [reflexivity |]. intros d Hd.
  assert (d = 0 \/ d = 1 \/ d = 2 \/ d = 3 \/ d = 4 \/ d = 5)
    as [-> | [-> | [-> | [-> | [-> | ->]]]]] by lia; assumption.
Qed.

(** ** The names of the files *)

Lemma format_three_digits (v : Z) : 0 <= v < 1000 -> format_0d 3 v = three_digits v.
Proof.
  intros H.
  assert (Hall : forallb (fun v => String.eqb (format_0d 3 v) (three_digits v))
                   (indices 1000) = true) by (vm_compute; reflexivity).
  rewrite forallb_forall in Hall. apply String.eqb_eq. apply Hall.
  now apply In_indices.
Qed.

Lemma format_two_digits (v : Z) : 0 <= v < 100 -> format_0d 2 v = two_digits v.
Proof.
  intros H.
  assert (Hall : forallb (fun v => String.eqb (format_0d 2 v) (two_digits v))
                   (indices 100) = true) by (vm_compute; reflexivity).
  rewrite forallb_forall in Hall. apply String.eqb_eq. apply Hall.
  now apply In_indices.
Qed.

Lemma digit_char_inj (d d' : Z) :
  0 <= d < 10 -> 0 <= d' < 10 -> digit_char d = digit_char d' -> d = d'.
Proof.
  intros Hd Hd' H. unfold digit_char in H.
  apply (f_equal N_of_ascii) in H.
  rewrite !N_ascii_embedding in H by lia. lia.
Qed.

Lemma three_digits_inj (v v' : Z) :
  0 <= v < 1000 -> 0 <= v' < 1000 -> three_digits v = three_digits v' -> v = v'.
Proof.
  intros Hv Hv' H. unfold three_digits in H. injection H as H2 H1 H0.
  apply digit_char_inj in H2, H1, H0;
    Z.to_euclidean_division_equations; lia.
Qed.

Lemma two_digits_inj (v v' : Z) :
  0 <= v < 100 -> 0 <= v' < 100 -> two_digits v = two_digits v' -> v = v'.
Proof.
  intros Hv Hv' H. unfold two_digits in H. injection H as H1 H0.
  apply digit_char_inj in H1, H0;
    Z.to_euclidean_division_equations; lia.
Qed.

Lemma append_inv_head (s a b : string) : (s ++ a = s ++ b)%string -> a = b.
Proof.
  induction s as [|c s IH]; cbn; intros H; [exact H |].
  injection H as H. now apply IH.
Qed.

Lemma length_append (a b : string) :
  String.length (a ++ b) = (String.length a + String.length b)%nat.
Proof. induction a as [|c a IH]; cbn; [reflexivity | now rewrite IH]. Qed.

Lemma dataset_letter_inj (ds ds' : Z) :
  0 <= ds < 7 -> 0 <= ds' < 7 ->
  aget " "%char dataset ds = aget " "%char dataset ds' -> ds = ds'.
Proof.
  intros H H' Heq.
  assert (Hc : ds = 0 \/ ds = 1 \/ ds = 2 \/ ds = 3 \/ ds = 4 \/ ds = 5 \/ ds = 6) by lia.
  assert (Hc' : ds' = 0 \/ ds' = 1 \/ ds' = 2 \/ ds' = 3 \/ ds' = 4 \/ ds' = 5 \/ ds' = 6)
    by lia.
  destruct Hc as [-> | [-> | [-> | [-> | [-> | [-> | ->]]]]]];
    destruct Hc' as [-> | [-> | [-> | [-> | [-> | [-> | ->]]]]]];
    first [reflexivity | discriminate Heq].
Qed.

(** The name of a shape file tells its cell and its data set. *)
Theorem shape_file_names_distinct (dirname : string) (SEPARATOR : ascii)
    (lat lon ds lat' lon' ds' : Z) :
  -90 <= lat < 90 -> -180 <= lon < 180 -> 0 <= ds < 7 ->
  -90 <= lat' < 90 -> -180 <= lon' < 180 -> 0 <= ds' < 7 ->
  shpname dirname SEPARATOR lat lon ds = shpname dirname SEPARATOR lat' lon' ds' ->
  lat = lat' /\ lon = lon' /\ ds = ds'.
Proof.
  intros Hlat Hlon Hds Hlat' Hlon' Hds' H. unfold shpname in H.
  apply append_inv_head in H. injection H as Hhem H.
  rewrite !format_three_digits, !format_two_digits in H by lia.
  unfold three_digits, two_digits in H. cbn [append] in H.
  injection H as H2 H1 H0 Hlathem G1 G0 Hletter.
  assert (Hln : Z.abs lon = Z.abs lon').
  { apply three_digits_inj; [lia | lia |]. unfold three_digits. congruence. }
  assert (Hlt : Z.abs lat = Z.abs lat').
  { apply two_digits_inj; [lia | lia |]. unfold two_digits. congruence. }
  apply dataset_letter_inj in Hletter; [| lia | lia].
  unfold lonhem in Hhem. unfold lathem in Hlathem.
  destruct (Z.ltb_spec lon 0), (Z.ltb_spec lon' 0); try discriminate Hhem;
    destruct (Z.ltb_spec lat 0), (Z.ltb_spec lat' 0); try discriminate Hlathem;
    repeat split; lia.
Qed.

Lemma shape_file_names_distinct_witness :
  shpname "/data" "/" 10 124 0 = "/data/SWBD/e124n10a.shp"%string /\
  (shpname "/data" "/" 10 124 0 = shpname "/data" "/" 10 124 0 ->
   10 = 10 /\ 124 = 124 /\ 0 = 0).
Proof.
  split; [reflexivity |].
  intros H.
  exact (shape_file_names_distinct "/data" "/" 10 124 0 10 124 0
           ltac:(lia) ltac:(lia) ltac:(lia) ltac:(lia) ltac:(lia) ltac:(lia) H).
Defined.

(** The names of the files of a run are 18 and 34 characters longer than
    the name of the directory: they fit the 512 bytes of [shpname] and of
    [ofile] when the name of the directory has at most 477 characters. *)
Theorem file_name_lengths (dirname : string) (SEPARATOR : ascii)
    (lat lon ds resolution : Z) :
  -90 <= lat < 90 -> -180 <= lon < 180 -> 0 <= resolution < 100 ->
  String.length (shpname dirname SEPARATOR lat lon ds)
  = (String.length dirname + 18)%nat /\
  String.length (ofile dirname SEPARATOR resolution)
  = (String.length dirname + 34)%nat.
Proof.
  intros Hlat Hlon Hr. unfold shpname, ofile.
  rewrite format_three_digits, !format_two_digits by lia.
  rewrite !length_append. split; reflexivity.
Qed.

Lemma file_name_lengths_witness :
  shpname "/data" "/" (-10) 124 3 = "/data/SWBD/e124s10i.shp"%string /\
  ofile "/data" "/" 3 = "/data/land_mask/swbd_mask_03_second.clm"%string /\
  String.length (shpname "/data" "/" (-10) 124 3) = 23%nat /\
  String.length (ofile "/data" "/" 3) = 39%nat.
Proof.
  split; [reflexivity |]. split; [reflexivity |].
  apply (file_name_lengths "/data" "/" (-10) 124 3 3); lia.
Defined.

(** ** Runs that stop *)

Section ExitRules.

Context {S : Type}.



(** A loop whose turns all return returns. *)
Lemma for_upM_returns (P : Z -> S -> world -> Prop) (body : Z -> S -> M S)
    (n : nat) (a : Z) (s : S) (w : world) :
  P a s w ->
  (forall i t u, a <= i < a + Z.of_nat n -> P i t u ->
                 exists t' u', body i t u = Normal t' u' /\ P (i + 1) t' u') ->
  exists s' w', for_upM n a body s w = Normal s' w' /\ P (a + Z.of_nat n) s' w'.
Proof.
  revert a s w. induction n as [|n IH]; intros a s w H0 Hstep.
  - exists s, w. split; [reflexivity |]. now replace (a + Z.of_nat 0) with a by lia.
  - cbn [for_upM]. unfold bind.
    destruct (Hstep a s w ltac:(lia) H0) as (t & u & Hb & HP). rewrite Hb.
    replace (a + Z.of_nat (Datatypes.S n)) with ((a + 1) + Z.of_nat n) by lia.
    apply IH; [exact HP |]. intros i t0 u0 Hi. apply Hstep. lia.
Qed.

Lemma for_loopM_returns (P : Z -> S -> world -> Prop) (body : Z -> S -> M S)
    (a b : Z) (s : S) (w : world) :
  a <= b ->
  P a s w ->
  (forall i t u, a <= i < b -> P i t u ->
                 exists t' u', body i t u = Normal t' u' /\ P (i + 1) t' u') ->
  exists s' w', for_loopM a b body s w = Normal s' w' /\ P b s' w'.
Proof.
  intros Hab H0 Hstep. unfold for_loopM.
  destruct (for_upM_returns P body (Z.to_nat (b - a)) a s w H0)
    as (s' & w' & Hrun & HP).
  - intros i t u Hi. apply Hstep. lia.
  - exists s', w'. split; [exact Hrun |].
    now replace (a + Z.of_nat (Z.to_nat (b - a))) with b in HP by lia.
Qed.

End ExitRules.

Section CellExits.

Variable E : externals.




End CellExits.

Section Diagnostics.

Variable E : externals.







End Diagnostics.




Lemma header_then_map (E : externals) (r : Z) :
  header_fits E r = true ->
  exists wh w1,
    write_header E r initial_world = Normal tt wh /\
    write_empty_map wh = Normal tt w1 /\
    length (mapbuf w1) = 7%nat /\ fsize (ofp w1) = MAP_END.
Proof.
  intros Hheader.
  destruct (write_header_runs E r initial_world eq_refl ltac:(cbn; lia))
    as (wh & Hh & Hend & _).
  destruct (write_empty_map_runs wh Hend) as (w1 & Hm & Hbuf & Hsize).
  exists wh, w1. repeat (split; [assumption |]).
  unfold header_fits in Hheader. rewrite Hh in Hheader. cbn [world_of] in Hheader.
  apply Z.eqb_eq in Hheader. rewrite Hsize, Hheader. reflexivity.
Qed.


(** ** The bytes of the header and of the empty map *)

Lemma map_seq_from {A : Type} (g : nat -> A) (a b : nat) :
  map g (seq a b) = map (fun k => g (a + k)%nat) (seq 0 b).
Proof.
  revert a. induction b as [|b IH]; intros a; [reflexivity |].
  cbn [seq map]. f_equal; [f_equal; lia |].
  rewrite IH, <- seq_shift, map_map. apply map_ext. intros k. f_equal. lia.
Qed.

Lemma file_read_app (f : FILE) (off a b : Z) :
  0 <= a -> 0 <= b ->
  file_read f off (a + b) = file_read f off a ++ file_read f (off + a) b.
Proof.
  intros Ha Hb. unfold file_read.
  replace (Z.to_nat (a + b)) with (Z.to_nat a + Z.to_nat b)%nat by lia.
  rewrite seq_app, map_app. f_equal. cbn [Nat.add].
  rewrite map_seq_from. apply map_ext. intros k. f_equal. lia.
Qed.

Lemma app_inv_length {A : Type} (a c b d : list A) :
  length a = length c -> a ++ b = c ++ d -> a = c /\ b = d.
Proof.
  revert c. induction a as [|x a IH]; intros [|y c] Hlen H; try discriminate Hlen.
  - now split.
  - injection H as -> H. injection Hlen as Hlen.
    destruct (IH c Hlen H) as (-> & ->). now split.
Qed.

Lemma length_bytes_of_string (s : string) :
  length (bytes_of_string s) = String.length s.
Proof.
  unfold bytes_of_string. rewrite length_map.
  induction s as [|c s IH]; cbn; [reflexivity | now rewrite IH].
Qed.

Lemma bytes_of_string_app (a b : string) :
  bytes_of_string (a ++ b) = bytes_of_string a ++ bytes_of_string b.
Proof.
  unfold bytes_of_string. induction a as [|c a IH]; cbn; [reflexivity |].
  now rewrite IH.
Qed.

Lemma length_contents (f : FILE) : 0 <= fsize f -> Z.of_nat (length (contents f)) = fsize f.
Proof. intros H. unfold contents. rewrite length_file_read. lia. Qed.

(** A write at the end of the file adds its bytes to the file. *)
Lemma file_write_appends (f : FILE) (buf : list Z) (n : Z) :
  fpos f = fsize f -> 0 <= fsize f -> Z.of_nat (length buf) = n ->
  let f' := file_write f buf n in
  contents f' = contents f ++ buf /\ fpos f' = fsize f' /\ fsize f' = fsize f + n.
Proof.
  intros Hend Hsize Hlen f'. subst f'.
  destruct (Z.eq_dec n 0) as [Hn|Hn].
  - assert (buf = []) as -> by (destruct buf; [reflexivity | exfalso; cbn [length] in Hlen; lia]).
    unfold file_write. rewrite Hn. cbn [Z.leb Z.compare]. rewrite app_nil_r.
    split; [reflexivity |]. split; [exact Hend | lia].
  - assert (Hs : fsize (file_write f buf n) = fsize f + n).
    { rewrite fsize_file_write. destruct (Z.leb_spec n 0); lia. }
    split; [| split; [| exact Hs]].
    + unfold contents. rewrite Hs. rewrite file_read_app by lia.
      rewrite file_read_kept by lia. f_equal. cbn [Z.add].
      rewrite <- Hend. rewrite file_read_written. now apply stored_bytes_all.
    + rewrite Hs. unfold file_write. destruct (Z.leb_spec n 0); [lia |].
      cbn [fpos]. lia.
Qed.

Lemma fwrite_contents (from : buffer) (buf : list Z) (size nmemb : Z) (w : world) :
  fpos (ofp w) = fsize (ofp w) -> 0 <= fsize (ofp w) ->
  Z.of_nat (length buf) = size * nmemb ->
  exists w',
    fwrite from buf size nmemb w = Normal tt w' /\
    mapbuf w' = mapbuf w /\
    contents (ofp w') = contents (ofp w) ++ buf /\
    fpos (ofp w') = fsize (ofp w') /\
    fsize (ofp w') = fsize (ofp w) + size * nmemb.
Proof.
  intros Hend Hsize Hlen. eexists. split; [reflexivity |]. cbn [mapbuf ofp].
  split; [reflexivity |]. now apply file_write_appends.
Qed.

Lemma fprintf_contents (s : string) (w : world) :
  fpos (ofp w) = fsize (ofp w) -> 0 <= fsize (ofp w) ->
  exists w',
    fprintf s w = Normal tt w' /\
    contents (ofp w') = contents (ofp w) ++ bytes_of_string s /\
    fpos (ofp w') = fsize (ofp w') /\
    0 <= fsize (ofp w').
Proof.
  intros Hend Hsize. unfold fprintf.
  destruct (fwrite_contents Text (bytes_of_string s) 1 (Z.of_nat (String.length s)) w
              Hend Hsize) as (w' & Hrun & _ & Hc & Hend' & Hsize').
  - rewrite length_bytes_of_string. lia.
  - exists w'. repeat (split; [assumption |]). lia.
Qed.

Section Header.

Variable E : externals.

(** The header: its text, and zeros up to its size. *)
Lemma write_header_contents (r : Z) :
  Z.of_nat (String.length (header_text E r)) <= SWBD_MASK_HEADER_SIZE ->
  exists wh,
    write_header E r initial_world = Normal tt wh /\
    contents (ofp wh) = header_bytes E r /\
    fpos (ofp wh) = fsize (ofp wh) /\
    fsize (ofp wh) = SWBD_MASK_HEADER_SIZE.
Proof.
  intros Hfits. unfold write_header.
  assert (Hend : fpos (ofp initial_world) = fsize (ofp initial_world)) by reflexivity.
  assert (Hsize : 0 <= fsize (ofp initial_world)) by (cbn; lia).
  assert (Hc : contents (ofp initial_world) = []) by reflexivity.
  revert Hend Hsize Hc. generalize initial_world as w0. intros w0 Hend Hsize Hc.
  repeat match goal with
         | |- context [bind (fprintf ?s) _ ?u] =>
             let w1 := fresh "w" in
             let Hrun := fresh "Hrun" in
             let Hc1 := fresh "Hc" in
             let Hend1 := fresh "Hend" in
             let Hsize1 := fresh "Hsize" in
             unfold bind at 1;
             destruct (fprintf_contents s u ltac:(assumption) ltac:(assumption))
               as (w1 & Hrun & Hc1 & Hend1 & Hsize1);
             rewrite Hrun; clear Hrun
         end.
  unfold bind at 1. unfold ftell.
  match goal with
  | |- context [for_loopM ?j _ _ tt ?u] => set (position := j); set (v := u) in *
  end.
  assert (Htext : contents (ofp v) = bytes_of_string (header_text E r)).
  { unfold header_text.
    repeat match goal with
           | H : contents (ofp ?a) = contents (ofp ?b) ++ _ |- _ =>
               rewrite H; clear H
           end.
    rewrite Hc. cbn [app]. rewrite !bytes_of_string_app, <- !app_assoc. reflexivity. }
  assert (Hlen : fsize (ofp v) = Z.of_nat (String.length (header_text E r))).
  { rewrite <- (length_contents (ofp v)) by assumption.
    now rewrite Htext, length_bytes_of_string. }
  assert (Hpos : position = fsize (ofp v)).
  { subst position. replace (fpos (ofp v)) with (fsize (ofp v)) by congruence.
    apply to_int32_small. unfold INT32_MAX, SWBD_MASK_HEADER_SIZE in *. lia. }
  destruct (for_loopM_returns
              (fun i (_ : unit) u =>
                 fpos (ofp u) = fsize (ofp u) /\ fsize (ofp u) = i /\
                 contents (ofp u) = contents (ofp v) ++ repeat 0 (Z.to_nat (i - position)))
              (fun _ _ => fwrite Zero [0] 1 1) position SWBD_MASK_HEADER_SIZE tt v)
    as ([] & wh & Hrun & Hend' & Hsize' & Hc').
  - lia.
  - split; [assumption |]. split; [lia |].
    replace (Z.to_nat (position - position)) with O by lia. cbn [repeat].
    now rewrite app_nil_r.
  - intros i [] u Hi (He & Hs & Hcu).
    destruct (fwrite_contents Zero [0] 1 1 u He ltac:(lia) eq_refl)
      as (u' & Hu & _ & Hcu' & He' & Hs').
    exists tt, u'. split; [exact Hu |]. split; [exact He' |]. split; [lia |].
    rewrite Hcu', Hcu, <- app_assoc. f_equal.
    replace (Z.to_nat (i + 1 - position)) with (Z.to_nat (i - position) + 1)%nat by lia.
    now rewrite repeat_app.
  - exists wh. split; [exact Hrun |]. split; [| split; assumption].
    rewrite Hc', Htext. unfold header_bytes. f_equal. f_equal. lia.
Qed.

End Header.

(** The empty map: 64800 records of 7 zeros after what the file holds. *)
Lemma write_empty_map_contents (w : world) :
  fpos (ofp w) = fsize (ofp w) -> 0 <= fsize (ofp w) ->
  exists w',
    write_empty_map w = Normal tt w' /\
    mapbuf w' = repeat 0 7%nat /\
    contents (ofp w') = contents (ofp w) ++ repeat 0 (Z.to_nat (64800 * 7)) /\
    fsize (ofp w') = fsize (ofp w) + 64800 * 7.
Proof.
  intros Hend Hsize. unfold write_empty_map. unfold bind at 1.
  unfold memset_mapbuf, set_mapbuf.
  set (v := {| ofp := ofp w; mapbuf := repeat 0 7%nat; log := log w |}).
  set (P := fun (k : Z) (u : world) =>
              mapbuf u = repeat 0 7%nat /\
              fpos (ofp u) = fsize (ofp u) /\
              fsize (ofp u) = fsize (ofp w) + k * 7 /\
              contents (ofp u) = contents (ofp w) ++ repeat 0 (Z.to_nat (k * 7))).
  assert (Hcell : forall k u, 0 <= k -> P k u ->
                    exists u', fwrite_mapbuf u = Normal tt u' /\ P (k + 1) u').
  { intros k u Hk (Hb & He & Hs & Hc).
    unfold fwrite_mapbuf, bind, get_mapbuf.
    destruct (fwrite_contents Mapbuf (mapbuf u) 7 1 u He ltac:(lia))
      as (u' & Hu & Hb' & Hc' & He' & Hs').
    { rewrite Hb. reflexivity. }
    exists u'. split; [exact Hu |]. split; [congruence |]. split; [exact He' |].
    split; [lia |]. rewrite Hc', Hc, Hb, <- app_assoc. f_equal.
    replace (Z.to_nat ((k + 1) * 7)) with (Z.to_nat (k * 7) + 7)%nat by lia.
    now rewrite repeat_app. }
  destruct (for_loopM_returns
              (fun lat (_ : unit) u => P ((lat + 90) * 360) u)
              (fun _ _ => for_loopM (-180) 180 (fun _ _ => fwrite_mapbuf) tt)
              (-90) 90 tt v ltac:(lia))
    as ([] & w' & Hrun & Hb & He & Hs & Hc).
  - split; [reflexivity |]. split; [exact Hend |]. cbn [v ofp].
    split; [lia |]. cbn [Z.add Z.mul Z.to_nat repeat]. now rewrite app_nil_r.
  - intros lat [] u Hlat Hu.
    destruct (for_loopM_returns
                (fun lon (_ : unit) x => P ((lat + 90) * 360 + (lon + 180)) x)
                (fun _ _ => fwrite_mapbuf) (-180) 180 tt u ltac:(lia))
      as ([] & u' & Hrun & Hu').
    + now replace ((lat + 90) * 360 + (-180 + 180)) with ((lat + 90) * 360) by lia.
    + intros lon [] x Hlon Hx.
      destruct (Hcell ((lat + 90) * 360 + (lon + 180)) x ltac:(lia) Hx)
        as (x' & Hrun & Hx').
      exists tt, x'. split; [exact Hrun |].
      now replace ((lat + 90) * 360 + (lon + 1 + 180))
        with ((lat + 90) * 360 + (lon + 180) + 1) by lia.
    + exists tt, u'. split; [exact Hrun |].
      now replace ((lat + 1 + 90) * 360) with ((lat + 90) * 360 + (180 + 180)) by lia.
  - exists w'. split; [exact Hrun |]. split; [exact Hb |].
    split; [exact Hc |]. lia.
Qed.

(** ** The header during the run *)

(** The invariant rule of the two loops over the cells. *)
Lemma cells_inv (E : externals) (P : Z -> Z -> world -> Prop) (r nt : Z)
    (w w' : world) :
  P (-90) (-180) w ->
  (forall lat lon u u', -90 <= lat < 90 -> -180 <= lon < 180 -> P lat lon u ->
                        cell E r nt lat lon u = Normal tt u' -> P lat (lon + 1) u') ->
  (forall lat u, -90 <= lat < 90 -> P lat 180 u -> P (lat + 1) (-180) u) ->
  cells E r nt w = Normal tt w' -> P 90 (-180) w'.
Proof.
  intros H0 Hcell Hrow Hrun. unfold cells in Hrun.
  refine (for_loopM_inv (fun lat (_ : unit) u => P lat (-180) u) _ (-90) 90 tt w
            ltac:(lia) H0 _ tt w' Hrun).
  intros lat [] u [] u' Hlat Hu Hrun'. apply Hrow; [exact Hlat |].
  refine (for_loopM_inv (fun lon (_ : unit) v => P lat lon v) _ (-180) 180 tt u
            ltac:(lia) Hu _ tt u' Hrun').
  intros lon [] v [] v' Hlon Hv Hc. now apply (Hcell lat lon v v').
Qed.

Lemma main_steps (E : externals) (argv : list string) (status : Z) (w : world) :
  main E argv = Normal status w ->
  let r := arg_resolution argv in
  let nt := arg_num_threads argv in
  status = 0 /\ valid_resolution r = true /\ valid_num_threads nt = true /\
  exists wh w1,
    write_header E r initial_world = Normal tt wh /\
    write_empty_map wh = Normal tt w1 /\
    cells E r nt w1 = Normal tt w.
Proof.
  intros Hmain r nt. unfold main in Hmain.
  destruct (configure E argv) as [d|[r' nt']] eqn:Hconf; [discriminate |].
  destruct (configure_valid E argv r' nt' Hconf) as (-> & -> & Hr & Hn).
  fold r nt in Hmain, Hr, Hn.
  destruct (ofile_fopen E); [| discriminate].
  rewrite build_steps in Hmain.
  destruct (write_header E r initial_world) as [[] wh|] eqn:Hh; [| discriminate].
  destruct (write_empty_map wh) as [[] w1|] eqn:Hm; [| discriminate].
  destruct (cells E r nt w1) as [[] w2|] eqn:Hc; [| discriminate].
  injection Hmain as <- <-. repeat (split; [assumption || reflexivity |]).
  exists wh, w1. auto.
Qed.

Section Frame.

Variables (E : externals) (r nt : Z).

Hypothesis Hzlib : zlib_contract E.

Hypothesis Hr : valid_resolution r = true.

(** A cell writes nothing before its record. *)
Lemma cell_keeps_below (lat lon : Z) (w w' : world) :
  -90 <= lat < 90 -> -180 <= lon < 180 ->
  length (mapbuf w) = 7%nat ->
  MAP_END <= fsize (ofp w) <= INT32_MAX + MAX_BLOCK_SIZE ->
  cell E r nt lat lon w = Normal tt w' ->
  forall off m, off + m <= map_address lat lon ->
                file_read (ofp w') off m = file_read (ofp w) off m.
Proof.
  intros Hlat Hlon Hbuf Hsize Hrun.
  assert (HME : MAP_END = 469984) by reflexivity.
  assert (HMAX : INT32_MAX = 2147483647) by reflexivity.
  assert (HMB : MAX_BLOCK_SIZE = 16777215) by reflexivity.
  destruct (map_address_in_map lat lon Hlat Hlon) as (_ & Hlo & Hhi).
  unfold cell in Hrun.
  destruct (find_shp E lat lon) as [[|] ext] eqn:Hfind; cbn [negb] in Hrun.
  - pose proof (cell_with_file_cases E r nt lat lon ext w) as Hcases.
    destruct (SHPOpen E lat lon ext) as [shapes|] eqn:Hopen;
      [| destruct Hcases as (? & Hc); congruence].
    destruct (load_polygons shapes) as [p|] eqn:Hload;
      [| destruct Hcases as (? & Hc); congruence].
    cbv zeta in Hcases.
    destruct (Z.eqb_spec (fst (fst (cell_compress E r nt lat lon p))) 0) as [Hn|Hn];
      [| destruct Hcases as (? & Hc); congruence].
    rewrite Hcases in Hrun. injection Hrun as <-.
    pose proof (cell_compress_size E r nt lat lon p Hzlib Hr Hn) as Hout.
    set (out_size := snd (fst (cell_compress E r nt lat lon p))) in *.
    set (out_buf := snd (cell_compress E r nt lat lon p)) in *.
    destruct (Z_le_gt_dec (fsize (ofp w)) INT32_MAX) as [Hfit|Hbig].
    + destruct (after_cell_with_file_file lat lon Hlat Hlon w r nt ext out_size out_buf
                  Hbuf ltac:(lia) ltac:(lia))
        as (_ & _ & _ & _ & _ & Hkept).
      intros off m Hoff. apply Hkept; lia.
    + destruct (after_cell_with_file_beyond lat lon Hlat Hlon w r nt ext out_size out_buf
                  Hbuf)
        as (_ & _ & _ & _ & Hkept).
      * change (2 ^ 32) with 4294967296. lia.
      * lia.
      * lia.
      * exact Hkept.
  - assert (Hdone : forall record calls off m,
               length record = 7%nat -> off + m <= map_address lat lon ->
               file_read (ofp (after_cell_without_file w lat lon record calls)) off m
               = file_read (ofp w) off m).
    { intros record calls off m Hlen Hoff.
      destruct (after_cell_without_file_file lat lon Hlat Hlon w record calls Hlen
                  ltac:(lia)) as (_ & _ & Hkept).
      apply Hkept. now left. }
    destruct ((lat <? -57) || (lat >? 59)) eqn:Hband.
    + rewrite cell_without_file_undefined in Hrun by exact Hband.
      injection Hrun as <-. intros off m Hoff. now apply Hdone.
    + rewrite cell_without_file_sampled in Hrun by exact Hband.
      injection Hrun as <-. intros off m Hoff. apply Hdone; [| exact Hoff].
      apply length_sentinel_record.
Qed.

End Frame.

(** The header of a run that returns: the cells leave it as it was
    written. *)
Theorem header_survives (E : externals) (argv : list string) :
  let r := arg_resolution argv in
  zlib_contract E ->
  Z.of_nat (String.length (header_text E r)) <= SWBD_MASK_HEADER_SIZE ->
  returns (main E argv) = true ->
  file_read (ofp (world_of (main E argv))) 0 SWBD_MASK_HEADER_SIZE = header_bytes E r.
Proof.
  intros r Hzlib Hfits Hret.
  destruct (main E argv) as [status w|d w] eqn:Hmain; [| discriminate].
  cbn [world_of].
  destruct (main_steps E argv status w Hmain) as (_ & Hr & Hn & wh & w1 & Hh & Hm & Hc).
  clear Hmain Hret. fold r in Hr, Hh, Hc.
  destruct (write_header_contents E r Hfits) as (wh' & Hh' & Hch & Hend & Hsize).
  assert (wh' = wh) by congruence. subst wh'.
  destruct (write_empty_map_contents wh Hend ltac:(rewrite Hsize; unfold SWBD_MASK_HEADER_SIZE; lia))
    as (w1' & Hm' & Hbuf & Hc1 & Hsize1).
  assert (w1' = w1) by congruence. subst w1'.
  assert (Hhead : file_read (ofp w1) 0 SWBD_MASK_HEADER_SIZE = header_bytes E r).
  { unfold contents in Hc1. rewrite Hsize1, Hsize in Hc1.
    rewrite file_read_app in Hc1 by (unfold SWBD_MASK_HEADER_SIZE; lia).
    change (file_read (ofp wh) 0 SWBD_MASK_HEADER_SIZE) with
      (file_read (ofp wh) 0 SWBD_MASK_HEADER_SIZE) in Hc1.
    set (zeros := repeat 0 (Z.to_nat (64800 * 7))) in Hc1.
    set (map_bytes := file_read (ofp w1) (0 + SWBD_MASK_HEADER_SIZE) (64800 * 7)) in Hc1.
    assert (Hlen : length (file_read (ofp w1) 0 SWBD_MASK_HEADER_SIZE)
                   = length (file_read (ofp wh) 0 SWBD_MASK_HEADER_SIZE))
      by now rewrite !length_file_read.
    destruct (app_inv_length _ _ map_bytes zeros Hlen Hc1) as (H1 & _).
    rewrite H1. rewrite <- Hch. unfold contents. now rewrite Hsize. }
  refine (proj2 (cells_inv E
            (fun lat lon u =>
               marks_invariant E r (arg_num_threads argv) lat lon u /\
               file_read (ofp u) 0 SWBD_MASK_HEADER_SIZE = header_bytes E r)
            r (arg_num_threads argv) w1 w _ _ _ Hc)).
  - split; [| exact Hhead]. split; [rewrite Hbuf; reflexivity |]. split.
    + rewrite Hsize1, Hsize.
      unfold MAP_END, SWBD_MASK_HEADER_SIZE, INT32_MAX, MAX_BLOCK_SIZE. lia.
    + unfold before. intros la lo Hla Hlo Hb. lia.
  - intros lat lon u u' Hlat Hlon (Hinv & Hu) Hcell. split.
    + now apply (cell_keeps_marks E r (arg_num_threads argv) Hzlib Hr lat lon u u').
    + destruct Hinv as (Hb & Hs & _). rewrite <- Hu.
      apply (cell_keeps_below E r (arg_num_threads argv) Hzlib Hr lat lon u u');
        try assumption.
      destruct (map_address_in_map lat lon Hlat Hlon) as (_ & Hlo & _). lia.
  - intros lat u Hlat ((Hb & Hs & Hrecs) & Hu). split; [| exact Hu].
    split; [exact Hb |]. split; [exact Hs |].
    intros la lo Hla Hlo Hbefore. apply Hrecs; [assumption | assumption |].
    unfold before in *. lia.
Qed.

Lemma header_survives_witness :
  zlib_contract sample_externals /\
  returns (main sample_externals sample_argv) = true /\
  file_read (ofp (world_of (main sample_externals sample_argv))) 0 SWBD_MASK_HEADER_SIZE
  = header_bytes sample_externals (arg_resolution sample_argv).
Proof.
  split; [exact sample_externals_contract |].
  split; [exact sample_run_returns |].
  apply (header_survives sample_externals sample_argv sample_externals_contract);
    [vm_compute; discriminate | exact sample_run_returns].
Defined.

(** ** The map of a run that stops *)



Section Ahead.

Variables (E : externals) (r nt : Z).

Hypothesis Hzlib : zlib_contract E.

Hypothesis Hr : valid_resolution r = true.


End Ahead.




(** ** The order of the workers *)

Lemma aget_ext (a b : list Z) :
  length a = length b ->
  (forall k, 0 <= k < Z.of_nat (length a) -> aget 0 a k = aget 0 b k) ->
  a = b.
Proof.
  intros Hlen H. apply (nth_ext a b 0 0 Hlen). intros n Hn.
  specialize (H (Z.of_nat n) ltac:(lia)). unfold aget in H.
  destruct (Z.ltb_spec (Z.of_nat n) 0); [lia |]. now rewrite Nat2Z.id in H.
Qed.

Section Order.

Variable E : externals.

Lemma snd_run (block complete : list Z) (r : Z) (p : polygons)
    (lat lon nt pass : Z) :
  snd (run E block r (num_poly p) (poly_count p) (poly_y p) (poly_x p)
         lat lon complete nt pass) = aset complete pass NVTrue.
Proof. reflexivity. Qed.

(** The blocks and the flags while workers run, one after the other, in
    any order: the samples of the tiles of the workers that have run hold
    their flags. *)
Lemma workers_done (r : Z) (p : polygons) (lat lon nt : Z) (done : list Z) :
  valid_resolution r = true -> valid_num_threads nt = true ->
  (forall q, In q done -> 0 <= q < nt) ->
  let pc := point_count r in
  let st := rasterize_in_order E r p lat lon nt done in
  Z.of_nat (length (fst st)) = pc * pc /\
  Z.of_nat (length (snd st)) = nt /\
  (forall i j, 0 <= i < pc -> 0 <= j < pc -> In (owner r nt i j) done ->
     aget 0 (fst st) (i * pc + j) = sample_flag E p lat lon pc i j) /\
  (forall q, In q done -> aget 0 (snd st) q = NVTrue).
Proof.
  intros Hr Hn. intros Hin pc. revert Hin.
  assert (Hnt : 0 <= nt) by (destruct (valid_num_threads_cases nt Hn); lia).
  induction done as [|q done IH] using rev_ind; intros Hin st.
  - subst st. unfold rasterize_in_order. cbn [fold_left fst snd].
    rewrite !length_calloc. fold pc.
    split; [nia |]. split; [lia |]. split; [intros i j _ _ [] | intros q []].
  - subst st. unfold rasterize_in_order. rewrite fold_left_app. cbn [fold_left].
    fold (rasterize_in_order E r p lat lon nt done).
    destruct IH as (Hlen & Hlenc & Hblock & Hflags).
    { intros q' Hq'. apply Hin. apply in_or_app. now left. }
    set (st := rasterize_in_order E r p lat lon nt done) in *.
    assert (Hq : 0 <= q < nt) by (apply Hin; apply in_or_app; right; now left).
    destruct (run_block E (fst st) (snd st) r p lat lon nt q Hr Hn Hq Hlen)
      as (Hl & Hget).
    fold pc in Hget.
    split; [rewrite Hl; exact Hlen |].
    rewrite snd_run. split; [rewrite length_aset; exact Hlenc |]. split.
    + intros i j Hi Hj Ho. rewrite Hget by assumption.
      destruct (in_tile r nt q i j) eqn:Htile; [reflexivity |].
      apply Hblock; try assumption.
      apply in_app_or in Ho as [Ho|[Ho|[]]]; [exact Ho |].
      rewrite Ho in Htile. rewrite owner_in_tile in Htile by assumption.
      discriminate.
    + intros q' Hq'. destruct (Z.eq_dec q q') as [<-|Hne].
      * apply aget_aset_same. lia.
      * rewrite aget_aset_other by exact Hne. apply Hflags.
        apply in_app_or in Hq' as [Hq'|[Hq'|[]]]; [exact Hq' | contradiction].
Qed.

Lemma for_up_fold {S : Type} (body : Z -> S -> S) (n k : nat) (s : S) :
  for_up n (Z.of_nat k) body s
  = fold_left (fun t i => body i t) (map Z.of_nat (seq k n)) s.
Proof.
  revert k s. induction n as [|n IH]; intros k s; [reflexivity |].
  cbn [for_up seq map fold_left].
  replace (Z.of_nat k + 1) with (Z.of_nat (Datatypes.S k)) by lia. apply IH.
Qed.

(** The loop of [main] over the threads is the run of the workers in the
    order of their numbers. *)
Lemma rasterize_indices (r : Z) (p : polygons) (lat lon nt : Z) :
  rasterize E r p lat lon nt = rasterize_in_order E r p lat lon nt (indices nt).
Proof.
  unfold rasterize, rasterize_in_order, for_loop, indices.
  rewrite Z.sub_0_r. apply (for_up_fold _ (Z.to_nat nt) 0).
Qed.

End Order.

(** The block and the completion flags of a cell do not depend on the
    order in which the workers run, nor on a worker that runs again. *)
Theorem workers_in_any_order (E : externals) (r : Z) (p : polygons)
    (lat lon nt : Z) (order : list Z) :
  valid_resolution r = true -> valid_num_threads nt = true ->
  (forall q, In q order <-> 0 <= q < nt) ->
  rasterize_in_order E r p lat lon nt order = rasterize E r p lat lon nt.
Proof.
  intros Hr Hn Horder. rewrite rasterize_indices.
  assert (Hnt : 0 <= nt) by (destruct (valid_num_threads_cases nt Hn); lia).
  destruct (workers_done E r p lat lon nt order Hr Hn)
    as (Hlen & Hlenc & Hblock & Hflags); [intros q; apply Horder |].
  destruct (workers_done E r p lat lon nt (indices nt) Hr Hn)
    as (Hlen' & Hlenc' & Hblock' & Hflags'); [intros q; apply indices_range |].
  set (st := rasterize_in_order E r p lat lon nt order) in *.
  set (st' := rasterize_in_order E r p lat lon nt (indices nt)) in *.
  set (pc := point_count r) in *.
  assert (Hpc : 0 < pc).
  { subst pc. destruct (valid_resolution_cases r Hr) as [->|[->|[->|[->| ->]]]];
      reflexivity. }
  rewrite (surjective_pairing st), (surjective_pairing st'). f_equal.
  - apply aget_ext; [lia |]. intros k Hk.
    assert (Hi : 0 <= k / pc < pc) by (split; [apply Z.div_pos; lia |
                                                 apply Z.div_lt_upper_bound; nia]).
    assert (Hj : 0 <= k mod pc < pc) by (apply Z.mod_pos_bound; lia).
    replace k with (k / pc * pc + k mod pc)
      by (rewrite (Z.div_mod k pc) at 3 by lia; lia).
    pose proof (owner_range r nt (k / pc) (k mod pc) Hr Hn Hi Hj) as Ho.
    rewrite Hblock, Hblock'; try assumption; [reflexivity | |].
    + now apply In_indices.
    + now apply Horder.
  - apply aget_ext; [lia |]. intros q Hq.
    rewrite Hflags, Hflags'; [reflexivity | |].
    + apply In_indices. lia.
    + apply Horder. lia.
Qed.

Lemma workers_in_any_order_witness :
  (forall q, In q [3; 1; 2; 0; 1] <-> 0 <= q < 4) /\
  rasterize_in_order sample_externals 60 square_polygons 10 10 4 [3; 1; 2; 0; 1]
  = rasterize sample_externals 60 square_polygons 10 10 4.
Proof.
  assert (Horder : forall q, In q [3; 1; 2; 0; 1] <-> 0 <= q < 4).
  { intros q. cbn [In]. lia. }
  split; [exact Horder |].
  exact (workers_in_any_order sample_externals 60 square_polygons 10 10 4
           [3; 1; 2; 0; 1] eq_refl eq_refl Horder).
Defined.

(** A worker writes the samples of its tile and its own flag, and nothing
    else: the samples of the other tiles and the flags of the other
    workers are as they were. *)
Theorem worker_keeps_other_tiles (E : externals) (block complete : list Z) (r : Z)
    (p : polygons) (lat lon nt pass : Z) :
  valid_resolution r = true -> valid_num_threads nt = true -> 0 <= pass < nt ->
  Z.of_nat (length block) = point_count r * point_count r ->
  let pc := point_count r in
  let st := run E block r (num_poly p) (poly_count p) (poly_y p) (poly_x p)
              lat lon complete nt pass in
  length (fst st) = length block /\
  (forall i j, 0 <= i < pc -> 0 <= j < pc -> owner r nt i j <> pass ->
     aget 0 (fst st) (i * pc + j) = aget 0 block (i * pc + j)) /\
  (forall q, q <> pass -> aget 0 (snd st) q = aget 0 complete q).
Proof.
  intros Hr Hnt Hpass Hlen pc st.
  destruct (run_block E block complete r p lat lon nt pass Hr Hnt Hpass Hlen)
    as (Hl & Hget).
  split; [exact Hl |]. split.
  - intros i j Hi Hj Hown. unfold st, pc. rewrite (Hget i j Hi Hj).
    destruct (in_tile r nt pass i j) eqn:Htile; [| reflexivity].
    exfalso. apply Hown. symmetry. now apply (in_tile_owner r nt pass i j).
  - intros q Hq. unfold st. rewrite snd_run.
    apply aget_aset_other. congruence.
Qed.

Lemma worker_keeps_other_tiles_witness :
  owner 60 4 0 0 = 0 /\
  aget 0 (fst (run sample_externals (calloc 3600) 60 (num_poly square_polygons)
                 (poly_count square_polygons) (poly_y square_polygons)
                 (poly_x square_polygons) 10 10 (calloc 4) 4 1)) (0 * point_count 60 + 0)
  = aget 0 (calloc 3600) (0 * point_count 60 + 0) /\
  aget 0 (snd (run sample_externals (calloc 3600) 60 (num_poly square_polygons)
                 (poly_count square_polygons) (poly_y square_polygons)
                 (poly_x square_polygons) 10 10 (calloc 4) 4 1)) 0
  = aget 0 (calloc 4) 0.
Proof.
  split; [reflexivity |].
  destruct (worker_keeps_other_tiles sample_externals (calloc 3600) (calloc 4) 60
              square_polygons 10 10 4 1 eq_refl eq_refl ltac:(lia) eq_refl)
    as (_ & Hblock & Hflags).
  split.
  - apply Hblock; [vm_compute; split; [discriminate | reflexivity] .. | discriminate].
  - apply Hflags. discriminate.
Defined.

(** ** The size of the file *)

Lemma In_range (a v : Z) (n : nat) : In v (range a n) <-> a <= v < a + Z.of_nat n.
Proof.
  unfold range. rewrite in_map_iff. split.
  - intros (k & <- & Hk). apply in_seq in Hk. lia.
  - intros H. exists (Z.to_nat (v - a)). split; [lia |]. apply in_seq. lia.
Qed.

Lemma In_cells_before (lat lon la lo : Z) :
  -90 <= lat -> -180 <= lon ->
  In (la, lo) (cells_before lat lon) ->
  -90 <= la /\ -180 <= lo /\
  (la < lat /\ lo < 180 \/ la = lat /\ lo < lon).
Proof.
  intros Hlat Hlon H. unfold cells_before in H. apply in_app_or in H as [H|H].
  - apply in_flat_map in H as (la' & Hla & Hrow). unfold row_cells in Hrow.
    apply in_map_iff in Hrow as (lo' & Heq & Hlo). injection Heq as <- <-.
    apply In_range in Hla, Hlo. lia.
  - unfold row_cells in H. apply in_map_iff in H as (lo' & Heq & Hlo).
    injection Heq as <- <-. apply In_range in Hlo. lia.
Qed.

Lemma cells_before_next (lat lon : Z) :
  -180 <= lon ->
  cells_before lat (lon + 1) = cells_before lat lon ++ [(lat, lon)].
Proof.
  intros Hlon. unfold cells_before. unfold row_cells at 2 3.
  replace (Z.to_nat (lon + 1 + 180)) with (Datatypes.S (Z.to_nat (lon + 180))) by lia.
  rewrite (range_snoc (-180) (Z.to_nat (lon + 180))), map_app, app_assoc.
  cbn [map]. do 3 f_equal. lia.
Qed.

Lemma cells_before_row (lat : Z) :
  -90 <= lat -> cells_before (lat + 1) (-180) = cells_before lat 180.
Proof.
  intros Hlat. unfold cells_before.
  replace (Z.to_nat (lat + 1 + 90)) with (Datatypes.S (Z.to_nat (lat + 90))) by lia.
  rewrite range_snoc, flat_map_app. cbn [flat_map].
  change (Z.to_nat (-180 + 180)) with O. change (Z.to_nat (180 + 180)) with 360%nat.
  unfold row_cells at 4. cbn [range seq map]. rewrite !app_nil_r.
  do 3 f_equal. lia.
Qed.

Lemma cells_before_all : cells_before 90 (-180) = cell_order.
Proof.
  unfold cells_before, cell_order, row_cells.
  change (Z.to_nat (-180 + 180)) with O. cbn [range seq map]. rewrite app_nil_r.
  reflexivity.
Qed.

Lemma recorded_size_app (f : FILE) (a b : list (Z * Z)) :
  recorded_size f (a ++ b) = recorded_size f a + recorded_size f b.
Proof.
  unfold recorded_size. rewrite map_app.
  induction (map _ a) as [|x l IH]; cbn [app fold_right]; [lia | rewrite IH; lia].
Qed.

Lemma recorded_size_ext (f f' : FILE) (cs : list (Z * Z)) :
  (forall c, In c cs -> record_at f' (fst c) (snd c) = record_at f (fst c) (snd c)) ->
  recorded_size f' cs = recorded_size f cs.
Proof.
  intros H. unfold recorded_size. f_equal. apply map_ext_in. intros c Hc.
  now rewrite H.
Qed.

Section Accounting.

Variables (E : externals) (r nt : Z).

Hypothesis Hzlib : zlib_contract E.

Hypothesis Hr : valid_resolution r = true.

(** A cell adds to the file what its record tells. *)
Lemma cell_accounts (lat lon : Z) (w w' : world) :
  -90 <= lat < 90 -> -180 <= lon < 180 ->
  length (mapbuf w) = 7%nat ->
  MAP_END <= fsize (ofp w) <= INT32_MAX ->
  cell E r nt lat lon w = Normal tt w' ->
  length (mapbuf w') = 7%nat /\
  fsize (ofp w') = fsize (ofp w) + record_size (record_at (ofp w') lat lon).
Proof.
  intros Hlat Hlon Hbuf Hsize Hrun.
  assert (HME : MAP_END = 469984) by reflexivity.
  unfold cell in Hrun.
  destruct (find_shp E lat lon) as [[|] ext] eqn:Hfind; cbn [negb] in Hrun.
  - pose proof (cell_with_file_cases E r nt lat lon ext w) as Hcases.
    destruct (SHPOpen E lat lon ext) as [shapes|] eqn:Hopen;
      [| destruct Hcases as (? & Hc); congruence].
    destruct (load_polygons shapes) as [p|] eqn:Hload;
      [| destruct Hcases as (? & Hc); congruence].
    cbv zeta in Hcases.
    destruct (Z.eqb_spec (fst (fst (cell_compress E r nt lat lon p))) 0) as [Hn|Hn];
      [| destruct Hcases as (? & Hc); congruence].
    rewrite Hcases in Hrun. injection Hrun as <-.
    pose proof (cell_compress_size E r nt lat lon p Hzlib Hr Hn) as Hout.
    set (out_size := snd (fst (cell_compress E r nt lat lon p))) in *.
    set (out_buf := snd (cell_compress E r nt lat lon p)) in *.
    destruct (after_cell_with_file_file lat lon Hlat Hlon w r nt ext out_size out_buf
                Hbuf ltac:(lia) ltac:(lia))
      as (Hfs & Hmb & Hrec & _).
    destruct (block_record_fields (mapbuf w) (fsize (ofp w)) out_size Hbuf
                ltac:(lia) ltac:(lia)) as (_ & Hrsize).
    split; [rewrite Hmb; now apply length_block_record |].
    rewrite Hrec, Hrsize. exact Hfs.
  - assert (Hdone : forall record calls,
               length record = 7%nat -> record_size record = 0 ->
               let u := after_cell_without_file w lat lon record calls in
               length (mapbuf u) = 7%nat /\
               fsize (ofp u) = fsize (ofp w) + record_size (record_at (ofp u) lat lon)).
    { intros record calls Hlen Hrs u. subst u.
      destruct (after_cell_without_file_file lat lon Hlat Hlon w record calls Hlen
                  ltac:(lia)) as (Hfs & Hrec & _).
      split; [exact Hlen |]. rewrite Hrec, Hrs. lia. }
    destruct ((lat <? -57) || (lat >? 59)) eqn:Hband.
    + rewrite cell_without_file_undefined in Hrun by exact Hband.
      injection Hrun as <-. apply Hdone; reflexivity.
    + rewrite cell_without_file_sampled in Hrun by exact Hband.
      injection Hrun as <-. apply Hdone.
      * apply length_sentinel_record.
      * apply sentinel_record_size.
Qed.

End Accounting.

(** The file of a run that returns, when it does not exceed 2^31 - 1
    bytes, is the header, the map and the blocks whose sizes the records
    of the map hold, and nothing else. *)
Theorem file_is_map_and_blocks (E : externals) (argv : list string) :
  zlib_contract E ->
  header_fits E (arg_resolution argv) = true ->
  run_fits (main E argv) = true ->
  let f := ofp (world_of (main E argv)) in
  fsize f = MAP_END + recorded_size f cell_order.
Proof.
  intros Hzlib Hheader Hfits.
  destruct (main E argv) as [status w|d w] eqn:Hmain; [| discriminate].
  cbn [run_fits] in Hfits. apply andb_true_iff in Hfits as (_ & Hmax).
  apply Z.leb_le in Hmax. cbn [world_of]. cbv zeta.
  destruct (main_steps E argv status w Hmain) as (_ & Hr & Hn & wh & w1 & Hh & Hm & Hc).
  clear Hmain.
  set (r := arg_resolution argv) in *. set (nt := arg_num_threads argv) in *.
  destruct (header_then_map E r Hheader) as (wh' & w1' & Hh' & Hm' & Hbuf & Hsize).
  assert (wh' = wh) by congruence. subst wh'.
  assert (w1' = w1) by congruence. subst w1'.
  assert (HME : MAP_END = 469984) by reflexivity.
  assert (Hinv : INT32_MAX < fsize (ofp w) \/
                 (length (mapbuf w) = 7%nat /\ MAP_END <= fsize (ofp w) /\
                  fsize (ofp w)
                  = MAP_END + recorded_size (ofp w) (cells_before 90 (-180)))).
  { refine (cells_inv E
              (fun lat lon u =>
                 INT32_MAX < fsize (ofp u) \/
                 (length (mapbuf u) = 7%nat /\ MAP_END <= fsize (ofp u) /\
                  fsize (ofp u)
                  = MAP_END + recorded_size (ofp u) (cells_before lat lon)))
              r nt w1 w _ _ _ Hc).
    - right. split; [exact Hbuf |]. split; [lia |]. rewrite Hsize.
      change (cells_before (-90) (-180)) with (@nil (Z * Z)).
      unfold recorded_size. cbn [map fold_right]. lia.
    - intros lat lon u u' Hlat Hlon Hu Hcell.
      pose proof (cell_grows E r nt lat lon u u' Hcell) as Hgrow.
      destruct Hu as [Hbig|(Hb & Hs & Hsum)]; [left; lia |].
      destruct (Z_lt_le_dec INT32_MAX (fsize (ofp u))) as [Hbig|Hsmall];
        [left; lia | right].
      destruct (cell_accounts E r nt Hzlib Hr lat lon u u' Hlat Hlon Hb
                  ltac:(lia) Hcell) as (Hb' & Hs').
      split; [exact Hb' |]. split; [lia |].
      rewrite cells_before_next by lia. rewrite recorded_size_app.
      rewrite (recorded_size_ext (ofp u) (ofp u') (cells_before lat lon)).
      + unfold recorded_size at 2. cbn [map fold_right fst snd]. lia.
      + intros [la lo] Hin. cbn [fst snd]. unfold record_at.
        apply In_cells_before in Hin; [| lia | lia].
        apply (cell_keeps_below E r nt Hzlib Hr lat lon u u'); try assumption.
        * unfold INT32_MAX, MAX_BLOCK_SIZE in *. lia.
        * apply map_address_before; try lia.
          unfold before. lia.
    - intros lat u Hlat Hu. rewrite cells_before_row by lia. exact Hu. }
  destruct Hinv as [Hbig|(_ & _ & Hsum)]; [lia |].
  now rewrite cells_before_all in Hsum.
Qed.

Lemma file_is_map_and_blocks_witness :
  zlib_contract sample_externals /\
  header_fits sample_externals (arg_resolution sample_argv) = true /\
  run_fits (main sample_externals sample_argv) = true /\
  let f := ofp (world_of (main sample_externals sample_argv)) in
  fsize f = MAP_END + recorded_size f cell_order.
Proof.
  split; [exact sample_externals_contract |]. split; [exact sample_header_fits |].
  split; [exact sample_run_fits |].
  exact (file_is_map_and_blocks sample_externals sample_argv sample_externals_contract
           sample_header_fits sample_run_fits).
Defined.

(** ** The text of the arguments *)

(** With more than three arguments the number of threads is not read:
    the run is the one of the first two arguments alone. *)
Theorem extra_arguments_ignored (E : externals) (argv : list string) :
  3 < argc_of argv -> main E argv = main E (firstn 2 argv).
Proof.
  intros Hargc. unfold argc_of in Hargc.
  destruct argv as [|a0 [|a1 [|a2 [|a3 rest]]]]; cbn [length] in Hargc; try lia.
  unfold main, configure, arg_resolution, arg_num_threads, argc_of, argv_at.
  cbn [firstn length nth].
  destruct (Z.ltb_spec (Z.of_nat (Datatypes.S (Datatypes.S (Datatypes.S
             (Datatypes.S (length rest)))))) 2); [lia |].
  destruct (Z.eqb_spec (Z.of_nat (Datatypes.S (Datatypes.S (Datatypes.S
             (Datatypes.S (length rest)))))) 3); [lia |].
  reflexivity.
Qed.

Lemma extra_arguments_ignored_witness :
  3 < argc_of ["swbd_mask"; "60"; "16"; "x"]%string /\
  arg_num_threads ["swbd_mask"; "60"; "16"]%string = 16 /\
  main sample_externals ["swbd_mask"; "60"; "16"; "x"]%string
  = main sample_externals ["swbd_mask"; "60"]%string.
Proof.
  split; [cbn; lia |]. split; [reflexivity |].
  exact (extra_arguments_ignored sample_externals
           ["swbd_mask"; "60"; "16"; "x"]%string ltac:(cbn; lia)).
Defined.

Lemma digit_is_no_space (c : ascii) :
  digit_of c <> None ->
  is_space c = false /\ Ascii.eqb c "-" = false /\ Ascii.eqb c "+" = false.
Proof.
  intros Hd. repeat split.
  - unfold digit_of in Hd. unfold is_space. cbv zeta in *.
    destruct ((48 <=? Z.of_N (N_of_ascii c)) && (Z.of_N (N_of_ascii c) <=? 57)) eqn:H;
      [| congruence].
    apply andb_true_iff in H. destruct H as (H1 & H2).
    apply Z.leb_le in H1. apply Z.leb_le in H2.
    apply orb_false_iff. split; [apply Z.eqb_neq; lia |].
    apply andb_false_iff. right. apply Z.leb_gt. lia.
  - destruct (Ascii.eqb_spec c "-") as [->|]; [| reflexivity].
    exfalso. apply Hd. reflexivity.
  - destruct (Ascii.eqb_spec c "+") as [->|]; [| reflexivity].
    exfalso. apply Hd. reflexivity.
Qed.

Lemma scan_digits_stops (number text : string) (acc : Z) :
  (forall c, In c (list_ascii_of_string number) -> digit_of c <> None) ->
  match text with
  | String c _ => digit_of c = None
  | EmptyString => True
  end ->
  scan_digits (number ++ text) acc = scan_digits number acc.
Proof.
  intros Hnum Htext. revert acc.
  induction number as [|c s IH]; intros acc.
  - cbn [append scan_digits]. destruct text as [|c t]; [reflexivity |].
    cbn [scan_digits]. now rewrite Htext.
  - cbn [append scan_digits]. destruct (digit_of c); [| reflexivity].
    apply IH. intros c' Hc'. apply Hnum. now right.
Qed.

(** The text after the digits of an argument is not looked at: the
    resolution read from digits followed by anything but a digit is the
    one read from the digits alone. *)
Theorem trailing_text_ignored (number text argv0 : string) (rest : list string) :
  number <> EmptyString ->
  (forall c, In c (list_ascii_of_string number) -> digit_of c <> None) ->
  match text with
  | String c _ => digit_of c = None
  | EmptyString => True
  end ->
  arg_resolution (argv0 :: (number ++ text)%string :: rest)
  = arg_resolution (argv0 :: number :: rest).
Proof.
  intros Hne Hnum Htext. unfold arg_resolution, argv_at. cbn [nth].
  destruct number as [|c s]; [congruence |].
  assert (Hc : digit_of c <> None) by (apply Hnum; now left).
  destruct (digit_is_no_space c Hc) as (Hsp & Hminus & Hplus).
  unfold sscanf_d. cbn [append skip_space]. rewrite Hsp, Hminus, Hplus.
  unfold scan_unsigned. destruct (digit_of c) eqn:Hd; [| congruence].
  change (String c (s ++ text)) with (String c s ++ text)%string.
  now rewrite scan_digits_stops.
Qed.

Lemma trailing_text_ignored_witness :
  arg_resolution ["swbd_mask"; "60"]%string = 60 /\
  arg_resolution ["swbd_mask"; "60 seconds"]%string
  = arg_resolution ["swbd_mask"; "60"]%string.
Proof.
  split; [reflexivity |].
  apply (trailing_text_ignored "60" " seconds" "swbd_mask" []).
  - discriminate.
  - intros c [<-|[<-|[]]]; discriminate.
  - reflexivity.
Defined.

(** ** Shapes without parts *)

Lemma starts_without_part_short (shapes : list SHPObject) :
  (forall k, 0 <= k < Z.of_nat (length shapes) ->
             nVertices (aget no_shape shapes k) < 2) ->
  starts_without_part shapes = false.
Proof.
  induction shapes as [|s l IH]; intros Hall; [reflexivity |].
  cbn [starts_without_part].
  pose proof (Hall 0 ltac:(cbn [length]; lia)) as H0. cbn in H0.
  destruct (Z.leb_spec 2 (nVertices s)); [lia |].
  apply IH. intros k Hk.
  specialize (Hall (k + 1) ltac:(cbn [length]; lia)).
  unfold aget in *. destruct (Z.ltb_spec (k + 1) 0); [lia |].
  destruct (Z.ltb_spec k 0); [lia |].
  replace (Z.to_nat (k + 1)) with (Datatypes.S (Z.to_nat k)) in Hall by lia.
  exact Hall.
Qed.

Lemma starts_without_part_at (shapes : list SHPObject) (i : Z) :
  0 <= i < Z.of_nat (length shapes) ->
  (forall k, 0 <= k < i -> nVertices (aget no_shape shapes k) < 2) ->
  2 <= nVertices (aget no_shape shapes i) ->
  starts_without_part shapes = (nParts (aget no_shape shapes i) <=? 0).
Proof.
  revert i. induction shapes as [|s l IH]; intros i Hi Hall Hlong;
    [cbn [length] in Hi; lia |].
  cbn [starts_without_part].
  destruct (Z.eq_dec i 0) as [->|Hne].
  - cbn in Hlong |- *. destruct (Z.leb_spec 2 (nVertices s)); [reflexivity | lia].
  - pose proof (Hall 0 ltac:(lia)) as H0. cbn in H0.
    destruct (Z.leb_spec 2 (nVertices s)); [lia |].
    assert (Hshift : forall k, 0 <= k -> aget no_shape (s :: l) (k + 1)
                                         = aget no_shape l k).
    { intros k Hk. unfold aget. destruct (Z.ltb_spec (k + 1) 0); [lia |].
      destruct (Z.ltb_spec k 0); [lia |].
      now replace (Z.to_nat (k + 1)) with (Datatypes.S (Z.to_nat k)) by lia. }
    replace i with (i - 1 + 1) by lia. rewrite Hshift by lia.
    apply IH.
    + cbn [length] in Hi. lia.
    + intros k Hk. rewrite <- Hshift by lia. apply Hall. lia.
    + rewrite <- Hshift by lia. now replace (i - 1 + 1) with i by lia.
Qed.

(** A vertex that is added to rings that exist. *)
Lemma load_vertex_goes_on (shape : SHPObject) (j n : Z) (p : polygons) :
  0 <= num_poly p ->
  exists n' p', load_vertex shape j (Some (n, p)) = Some (n', p') /\ 0 <= num_poly p'.
Proof.
  intros Hp. unfold load_vertex.
  destruct ((n <? nParts shape) && (aget 0 (panPartStart shape) n =? j));
    [| destruct ((j =? 0) && (0 <? nParts shape))]; cbn [num_poly].
  - destruct (Z.ltb_spec (num_poly p + 1) 0); [lia |].
    eexists _, _. split; [reflexivity |]. cbn [num_poly]. lia.
  - destruct (Z.ltb_spec (num_poly p + 1) 0); [lia |].
    eexists _, _. split; [reflexivity |]. cbn [num_poly]. lia.
  - destruct (Z.ltb_spec (num_poly p) 0); [lia |].
    eexists _, _. split; [reflexivity |]. cbn [num_poly]. lia.
Qed.

(** The first vertex of a shape, before any ring. *)
Lemma load_vertex_first (shape : SHPObject) :
  2 <= nVertices shape ->
  if nParts shape <=? 0
  then load_vertex shape 0 (Some (1, no_polygons)) = None
  else exists n' p', load_vertex shape 0 (Some (1, no_polygons)) = Some (n', p') /\
                     0 <= num_poly p'.
Proof.
  intros Hlong. unfold load_vertex.
  destruct (Z.leb_spec (nParts shape) 0) as [Hno|Hparts].
  - destruct (Z.ltb_spec 1 (nParts shape)); [lia |].
    destruct (Z.ltb_spec 0 (nParts shape)); [lia |]. reflexivity.
  - destruct (Z.ltb_spec 0 (nParts shape)); [| lia].
    destruct ((1 <? nParts shape) && (aget 0 (panPartStart shape) 1 =? 0));
      cbn [Z.eqb andb num_poly no_polygons]; change (-1 + 1 <? 0) with false;
      cbv iota; eexists _, _; (split; [reflexivity | cbn [num_poly]; lia]).
Qed.

Lemma load_shape_goes_on (shape : SHPObject) (p : polygons) :
  0 <= num_poly p ->
  exists p', load_shape shape (Some p) = Some p' /\ 0 <= num_poly p'.
Proof.
  intros Hp. unfold load_shape.
  destruct (Z.leb_spec 2 (nVertices shape)); [| exists p; now split].
  cbn [option_map].
  assert (Hloop : exists n' p',
             for_loop 0 (nVertices shape) (load_vertex shape) (Some (1, p))
             = Some (n', p') /\ 0 <= num_poly p').
  { apply (for_loop_inv (fun _ st => exists n' p', st = Some (n', p') /\ 0 <= num_poly p'));
      [lia | now exists 1, p |].
    intros j st Hj (n' & p' & -> & Hp'). now apply load_vertex_goes_on. }
  destruct Hloop as (n' & p' & -> & Hp'). exists p'. now split.
Qed.

Lemma load_shape_stopped (shape : SHPObject) : load_shape shape None = None.
Proof.
  unfold load_shape. destruct (2 <=? nVertices shape); [| reflexivity].
  cbn [option_map]. now rewrite for_loop_fixed.
Qed.

Lemma load_shape_first (shape : SHPObject) :
  2 <= nVertices shape ->
  if nParts shape <=? 0
  then load_shape shape (Some no_polygons) = None
  else exists p', load_shape shape (Some no_polygons) = Some p' /\ 0 <= num_poly p'.
Proof.
  intros Hlong. unfold load_shape.
  destruct (Z.leb_spec 2 (nVertices shape)); [| lia]. cbn [option_map].
  assert (Hsplit : for_loop 0 (nVertices shape) (load_vertex shape)
                     (Some (1, no_polygons))
                   = for_loop 1 (nVertices shape) (load_vertex shape)
                       (load_vertex shape 0 (Some (1, no_polygons)))).
  { unfold for_loop. rewrite Z.sub_0_r.
    replace (Z.to_nat (nVertices shape))
      with (Datatypes.S (Z.to_nat (nVertices shape - 1))) by lia.
    reflexivity. }
  rewrite Hsplit. pose proof (load_vertex_first shape Hlong) as Hfirst.
  destruct (nParts shape <=? 0).
  - rewrite Hfirst. now rewrite for_loop_fixed.
  - destruct Hfirst as (n' & p' & -> & Hp').
    assert (Hloop : exists n'' p'',
               for_loop 1 (nVertices shape) (load_vertex shape) (Some (n', p'))
               = Some (n'', p'') /\ 0 <= num_poly p'').
    { apply (for_loop_inv
               (fun _ st => exists n'' p'', st = Some (n'', p'') /\ 0 <= num_poly p''));
        [lia | now exists n', p' |].
      intros j st Hj (n'' & p'' & -> & Hp''). now apply load_vertex_goes_on. }
    destruct Hloop as (n'' & p'' & -> & Hp''). exists p''. now split.
Qed.

(** The loading of the shapes of a file fails when, and only when, the
    first shape of at least two vertices has no part: [main] then stores
    its first vertex through [poly_x[-1]], before any ring is allocated.
    In every other case the rings are loaded, whatever the parts of the
    shapes are. *)
Theorem loading_fails_without_part (shapes : list SHPObject) :
  load_polygons shapes = None <-> starts_without_part shapes = true.
Proof.
  unfold load_polygons.
  assert (Hinv :
            (fun i st =>
               (st = Some no_polygons /\
                forall k, 0 <= k < i -> nVertices (aget no_shape shapes k) < 2) \/
               ((exists p, st = Some p /\ 0 <= num_poly p) /\
                starts_without_part shapes = false) \/
               (st = None /\ starts_without_part shapes = true))
              (Z.of_nat (length shapes))
              (for_loop 0 (Z.of_nat (length shapes))
                 (fun i p => load_shape (aget no_shape shapes i) p)
                 (Some no_polygons))).
  { apply for_loop_inv.
    - lia.
    - left. split; [reflexivity | intros k Hk; lia].
    - intros i st Hi [(-> & Hshort)|[((p & -> & Hp) & Hb)|(-> & Hc)]].
      + destruct (Z_lt_le_dec (nVertices (aget no_shape shapes i)) 2) as [Hfew|Hlong].
        * left. split.
          -- unfold load_shape.
             destruct (Z.leb_spec 2 (nVertices (aget no_shape shapes i)));
               [lia | reflexivity].
          -- intros k Hk. destruct (Z.eq_dec k i) as [->|];
               [exact Hfew | apply Hshort; lia].
        * right.
          pose proof (starts_without_part_at shapes i Hi Hshort Hlong) as Hat.
          pose proof (load_shape_first (aget no_shape shapes i) Hlong) as Hfirst.
          destruct (nParts (aget no_shape shapes i) <=? 0).
          -- right. now split.
          -- left. split; [exact Hfirst | exact Hat].
      + right. left. split; [| exact Hb].
        now apply load_shape_goes_on.
      + right. right. split; [apply load_shape_stopped | exact Hc]. }
  cbv beta in Hinv.
  destruct Hinv as [(-> & Hshort)|[((p & -> & _) & Hb)|(-> & Hc)]]; cbn [option_map].
  - rewrite (starts_without_part_short shapes Hshort). split; discriminate.
  - rewrite Hb. split; discriminate.
  - rewrite Hc. split; reflexivity.
Qed.

Lemma loading_fails_without_part_witness :
  load_polygons [lone_vertex; two_points; square_ring] = None /\
  load_polygons [lone_vertex; square_ring; two_points] <> None.
Proof.
  split.
  - now apply loading_fails_without_part.
  - intros H. apply loading_fails_without_part in H. discriminate H.
Defined.

(** A shape of at least two vertices and no part starts no ring: after a
    ring has been loaded, [main] adds its vertices to that ring, the last
    one of the shapes before. *)
Theorem shape_without_part_joins_ring (shape : SHPObject) (rx ry : list (list Q))
    (a b : list Q) :
  2 <= nVertices shape -> nParts shape <= 0 ->
  length ry = length rx -> length b = length a ->
  load_shape shape (Some (polygons_of (-1) (rx ++ [a]) (ry ++ [b])))
  = Some (polygons_of (-1)
            (rx ++ [a ++ slice (padfX shape) 0 (nVertices shape)])
            (ry ++ [b ++ slice (padfY shape) 0 (nVertices shape)])).
Proof.
  intros Hlong Hparts Hlen Hab. unfold load_shape.
  destruct (Z.leb_spec 2 (nVertices shape)); [| lia]. cbn [option_map].
  assert (Hloop : for_loop 0 (nVertices shape) (load_vertex shape)
                    (Some (1, polygons_of (-1) (rx ++ [a]) (ry ++ [b])))
                  = Some (1, polygons_of (-1)
                               (rx ++ [a ++ slice (padfX shape) 0 (nVertices shape)])
                               (ry ++ [b ++ slice (padfY shape) 0 (nVertices shape)]))).
  { apply (for_loop_inv
             (fun j st => st = Some (1, polygons_of (-1)
                                          (rx ++ [a ++ slice (padfX shape) 0 j])
                                          (ry ++ [b ++ slice (padfY shape) 0 j]))));
      [lia | |].
    - unfold slice. cbn [Z.sub Z.to_nat range seq map]. now rewrite !app_nil_r.
    - intros j st Hj ->. rewrite load_vertex_grows.
      + rewrite !slice_snoc by lia. now rewrite !app_assoc.
      + destruct (Z.ltb_spec 0 (nParts shape)); [lia |]. apply andb_false_r.
      + destruct (Z.ltb_spec 1 (nParts shape)); [lia |]. reflexivity.
      + exact Hlen.
      + rewrite !length_app. f_equal; [exact Hab | apply length_slice]. }
  now rewrite Hloop.
Qed.

Lemma shape_without_part_joins_ring_witness :
  load_polygons [square_ring; two_points]
  = Some (polygons_of 0
            [[10 # 1; 21 # 2; 21 # 2; 10 # 1; 10 # 1; 30 # 1; 31 # 1]%Q]
            [[10 # 1; 10 # 1; 21 # 2; 21 # 2; 10 # 1; 40 # 1; 41 # 1]%Q]).
Proof.
  unfold load_polygons.
  change (for_loop 0 (Z.of_nat (length [square_ring; two_points]))
            (fun i p => load_shape (aget no_shape [square_ring; two_points] i) p)
            (Some no_polygons))
    with (load_shape two_points (load_shape square_ring (Some no_polygons))).
  change (load_shape square_ring (Some no_polygons))
    with (Some (polygons_of (-1) ([] ++ [padfX square_ring]) ([] ++ [padfY square_ring]))).
  rewrite (shape_without_part_joins_ring two_points [] [] (padfX square_ring)
             (padfY square_ring)); [reflexivity | ..]; cbn; try lia; reflexivity.
Defined.
